(** * proxyratemanager: a shallow embedding of the coordination engine

  The development follows the JavaScript sources
  - [ProxyCircuit]      (the circuit structure and its constructor),
  - [ProxyRateManager]  (rate store, circuit pool, IP-change protocol),
  - [ProxyRateClient]   (the user-facing handle),
  - [IPCheckRequest]    (what a probe makes of the answer it gets),
  and states, for each documented property, what the code does.

  Conventions.
  - A JavaScript object used as a dictionary is the ordered list of its own
    properties ([JsObj]): [for (k in o)] walks it in insertion order, and a
    fault in the middle of such a loop leaves the earlier iterations' writes
    behind. (A key that is an array index, such as ["5"], comes first in
    JavaScript; action names and addresses are taken not to be.) What an
    object inherits is not in the list: [Js.inherited] names the keys under
    which every object of the program finds a property of
    [Object.prototype], and a statement that depends on a key being absent
    says that the key is not one of them.
  - Objects shared by reference (circuits) live in a store and are named by
    their address; arrays of numbers are never shared in this program and
    are plain lists.
  - Code that can throw runs in a state-and-fault monad; a fault keeps the
    state reached when it was raised.
  - Everything the program asks of its environment (clock, random numbers,
    IP probes, process table, signals, the cache file) is answered by an
    oracle indexed by the number of questions asked so far.
  - One task is followed at a time: other tasks that could run while an
    [await] is pending are not interleaved. *)

From Stdlib Require Import ZArith String List Bool Lia DecimalString.
From Stdlib Require Import Ascii Sorted.
From stdpp Require Import base list strings.

Open Scope string_scope.
Open Scope list_scope.
Open Scope Z_scope.

(* ================================================================== *)
(** * JavaScript values and objects                                    *)
(* ================================================================== *)

Module Js.

(** Dynamically typed values, as far as circuit definitions use them.
    [undefined] is the absence of a value ([None] in an [option JsVal]).
    [VTimeout] is the object [setInterval] returns. *)
Inductive JsVal :=
| VNull
| VBool (b : bool)
| VNum (n : Z)
| VStr (s : string)
| VTimeout.

(** ToBoolean. *)
Definition truthy (v : option JsVal) : bool :=
  match v with
  | None | Some VNull => false
  | Some (VBool b) => b
  | Some (VNum n) => negb (n =? 0)
  | Some (VStr s) => negb (String.eqb s "")
  | Some VTimeout => true
  end.

(** ToBoolean on a string that may be [null]. *)
Definition truthy_str (s : option string) : bool :=
  match s with
  | None => false
  | Some s => negb (String.eqb s "")
  end.

(** ToBoolean on a number. *)
Definition truthy_num (n : Z) : bool := negb (n =? 0).

(** A value used as a property key: [o[null]] reads the key ["null"]. *)
Definition propKey (s : option string) : string :=
  match s with
  | None => "null"
  | Some s => s
  end.

(** Template-literal rendering of an integer. *)
Definition numToString (n : Z) : string := NilZero.string_of_int (Z.to_int n).

(** ** Objects as ordered property lists *)

(** The own properties of an object, in the order they were created. The
    order is that of [for (k in o)] and of [Object.keys(o)] for keys that
    are not array indices. *)
Definition JsObj (V : Type) : Type := list (string * V).

(** The properties of [Object.prototype]: under these keys every plain
    object has something to show ([o.constructor], [o.toString], ...)
    without owning it. *)
Definition inheritedNames : list string :=
  [ "constructor"; "__defineGetter__"; "__defineSetter__"; "hasOwnProperty";
    "__lookupGetter__"; "__lookupSetter__"; "isPrototypeOf";
    "propertyIsEnumerable"; "toString"; "valueOf"; "__proto__";
    "toLocaleString" ].

Definition inherited (k : string) : bool :=
  existsb (String.eqb k) inheritedNames.

(** The own property [k] of [o]: this is [o[k]] when [inherited k = false]. *)
Fixpoint get {V} (k : string) (o : JsObj V) : option V :=
  match o with
  | [] => None
  | (k', v) :: o' => if String.eqb k k' then Some v else get k o'
  end.

(** [o[k] = v]: an existing property keeps its place, a new one goes last. *)
Fixpoint set {V} (k : string) (v : V) (o : JsObj V) : JsObj V :=
  match o with
  | [] => [(k, v)]
  | (k', v') :: o' =>
      if String.eqb k k' then (k', v) :: o' else (k', v') :: set k v o'
  end.

(** [delete o[k]] *)
Fixpoint del {V} (k : string) (o : JsObj V) : JsObj V :=
  match o with
  | [] => []
  | (k', v') :: o' =>
      if String.eqb k k' then del k o' else (k', v') :: del k o'
  end.

(** [Object.keys(o)], also the order of [for (k in o)]. *)
Definition keys {V} (o : JsObj V) : list string := map fst o.

(** [o.hasOwnProperty(k)]: this is [k in o] when [inherited k = false]. *)
Definition has {V} (k : string) (o : JsObj V) : bool :=
  match get k o with Some _ => true | None => false end.

(** [Object.assign(target, src)]: the own properties of [src], in order. *)
Definition assign {V} (target src : JsObj V) : JsObj V :=
  fold_left (fun t kv => set (fst kv) (snd kv) t) src target.

(** ** Arrays *)

(** [a[i]] for an integer index: [undefined] outside the array. *)
Definition index {A} (a : list A) (i : Z) : option A :=
  if i <? 0 then None else a !! Z.to_nat i.

(** [a.slice(start, end)] (Array.prototype.slice): negative arguments count
    from the end, both are clamped to the array, and [-0] is [0]. *)
Definition slice {A} (a : list A) (start end_ : Z) : list A :=
  let len := Z.of_nat (length a) in
  let k := if start <? 0 then Z.max (len + start) 0 else Z.min start len in
  let final := if end_ <? 0 then Z.max (len + end_) 0 else Z.min end_ len in
  take (Z.to_nat (final - k)) (drop (Z.to_nat k) a).

(** [a.indexOf(x)], [None] for [-1]. *)
Definition indexOf (a : list nat) (x : nat) : option nat :=
  fst <$> list_find (fun y => y = x) a.

End Js.

Import Js.

(* ================================================================== *)
(** * ProxyCircuit                                                     *)
(* ================================================================== *)

Module ProxyCircuit.

(** The circuit structure once built. [None] stands for [null]. *)
Record t := Make {
  host : string;
  port : Z;
  username : option string;
  password : option string;
  type : string;
  poll_wait_interval : option Z;
  name : option string;
  addToCyclingCircuitPool : bool;
  isLocalTor : bool;
  activeExitNodeIP : option string;
  lastIPPollTime : Z;
  healInterval : Z;
  healAmountPerInterval : Z;
  health : Z;
  valid : bool;
  pollingClient : option nat   (* address of the polling client, once attached *)
}.

(** [circuitDefaults], in the order of the object literal. *)
Definition circuitDefaults : JsObj JsVal :=
  [ ("host", VStr "0.0.0.0");
    ("port", VNum 9050);
    ("username", VNull);
    ("password", VNull);
    ("type", VStr "socks5h");
    ("poll_wait_interval", VNull);
    ("name", VNull);
    ("addToCyclingCircuitPool", VBool true);
    ("isLocalTor", VBool false);
    ("activeExitNodeIP", VNull);
    ("lastIPPollTime", VNum 0);
    ("healInterval", VNum (1000 * 60 * 20));
    ("healAmountPerInterval", VNum 10) ].

(** The constructor, statement by statement, on the property list of
    [this]; [args] is the caller's circuit definition. The last statement
    starts the heal timer and keeps its handle; the timer's callback,
    [promoteHealth(healAmountPerInterval)] every [healInterval] ms, is a
    task of its own. *)
Definition constructor (args : JsObj JsVal) : JsObj JsVal :=
  let this : JsObj JsVal := [] in
  (* this.poll_wait_interval =
       this.poll_wait_interval || (this.isLocalTor ? 1000 * 5 : 1000 * 60 * 2) *)
  let this :=
    set "poll_wait_interval"
      (match get "poll_wait_interval" this with
       | Some v =>
           if truthy (Some v) then v
           else if truthy (get "isLocalTor" this)
                then VNum (1000 * 5) else VNum (1000 * 60 * 2)
       | None =>
           if truthy (get "isLocalTor" this)
           then VNum (1000 * 5) else VNum (1000 * 60 * 2)
       end) this in
  let this := set "health" (VNum 100) this in
  let this := set "valid" (VBool true) this in
  let this := set "pollingClient" VNull this in
  (* Object.assign(this, circuitDefaults, args) *)
  let this := assign (assign this circuitDefaults) args in
  (* this.healIntFD = setInterval(...) *)
  set "healIntFD" VTimeout this.

(** Readers for the fields of a built object. A circuit definition gives
    each field a value of its documented type; a field of another type
    reads as the type's empty value. The polling client is not a field of
    a circuit definition: the manager attaches it. *)
Definition strField (k : string) (o : JsObj JsVal) : string :=
  match get k o with Some (VStr s) => s | _ => "" end.
Definition optStrField (k : string) (o : JsObj JsVal) : option string :=
  match get k o with Some (VStr s) => Some s | _ => None end.
Definition numField (k : string) (o : JsObj JsVal) : Z :=
  match get k o with Some (VNum n) => n | _ => 0 end.
Definition optNumField (k : string) (o : JsObj JsVal) : option Z :=
  match get k o with Some (VNum n) => Some n | _ => None end.
Definition boolField (k : string) (o : JsObj JsVal) : bool :=
  truthy (get k o).

Definition ofObject (o : JsObj JsVal) : t :=
  {| host := strField "host" o;
     port := numField "port" o;
     username := optStrField "username" o;
     password := optStrField "password" o;
     type := strField "type" o;
     poll_wait_interval := optNumField "poll_wait_interval" o;
     name := optStrField "name" o;
     addToCyclingCircuitPool := boolField "addToCyclingCircuitPool" o;
     isLocalTor := boolField "isLocalTor" o;
     activeExitNodeIP := optStrField "activeExitNodeIP" o;
     lastIPPollTime := numField "lastIPPollTime" o;
     healInterval := numField "healInterval" o;
     healAmountPerInterval := numField "healAmountPerInterval" o;
     health := numField "health" o;
     valid := boolField "valid" o;
     pollingClient := None |}.

(** [new ProxyCircuit(args)] *)
Definition new (args : JsObj JsVal) : t := ofObject (constructor args).

(** [getProxyIDString] *)
Definition getProxyIDString (c : t) : string :=
  let unpw :=
    if truthy_str (username c) || truthy_str (password c)
    then (if truthy_str (username c) then propKey (username c) else "")
         +:+ ":" +:+
         (if truthy_str (password c) then propKey (password c) else "")
         +:+ "@"
    else "" in
  type c +:+ "://" +:+ unpw +:+ host c +:+ ":" +:+ numToString (port c).

(** [getIdentifier] *)
Definition getIdentifier (c : t) : string :=
  (if truthy_str (name c) then "(" +:+ propKey (name c) +:+ ") " else "")
  +:+ getProxyIDString c.

Definition isValid (c : t) : bool := valid c.

Definition isHealthy (c : t) : bool := health c >? 20.

Definition with_valid (b : bool) (c : t) : t :=
  Make (host c) (port c) (username c) (password c) (type c)
    (poll_wait_interval c) (name c) (addToCyclingCircuitPool c)
    (isLocalTor c) (activeExitNodeIP c) (lastIPPollTime c) (healInterval c)
    (healAmountPerInterval c) (health c) b (pollingClient c).

Definition with_health (h : Z) (c : t) : t :=
  Make (host c) (port c) (username c) (password c) (type c)
    (poll_wait_interval c) (name c) (addToCyclingCircuitPool c)
    (isLocalTor c) (activeExitNodeIP c) (lastIPPollTime c) (healInterval c)
    (healAmountPerInterval c) h (valid c) (pollingClient c).

Definition setPollingClient (b : option nat) (c : t) : t :=
  Make (host c) (port c) (username c) (password c) (type c)
    (poll_wait_interval c) (name c) (addToCyclingCircuitPool c)
    (isLocalTor c) (activeExitNodeIP c) (lastIPPollTime c) (healInterval c)
    (healAmountPerInterval c) (health c) (valid c) b.

(** [circuit.activeExitNodeIP = ip; circuit.lastIPPollTime = now] *)
Definition with_exit (ip : option string) (now : Z) (c : t) : t :=
  Make (host c) (port c) (username c) (password c) (type c)
    (poll_wait_interval c) (name c) (addToCyclingCircuitPool c)
    (isLocalTor c) ip now (healInterval c)
    (healAmountPerInterval c) (health c) (valid c) (pollingClient c).

(** [circuit.lastIPPollTime = now] *)
Definition with_lastIPPollTime (now : Z) (c : t) : t :=
  Make (host c) (port c) (username c) (password c) (type c)
    (poll_wait_interval c) (name c) (addToCyclingCircuitPool c)
    (isLocalTor c) (activeExitNodeIP c) now (healInterval c)
    (healAmountPerInterval c) (health c) (valid c) (pollingClient c).

Definition markInvalid (c : t) : t := with_valid false c.

Definition degradeHealth (degradation : Z) (c : t) : t :=
  with_health (Z.max 0 (health c - degradation)) c.

Definition promoteHealth (improvement : Z) (c : t) : t :=
  with_health (Z.min 100 (health c + improvement)) c.

End ProxyCircuit.

(* ================================================================== *)
(** * ProxyRateManager                                                 *)
(* ================================================================== *)

Module Manager.

(** Addresses of circuit and client objects, and names of the [resolve]
    functions of pending promises. *)
Abbreviation CircuitRef := nat (only parsing).
Abbreviation ClientRef := nat (only parsing).
Abbreviation Resolver := nat (only parsing).

(** [clientId] is [this.clients.length] or the string ["POLLER"]. *)
Inductive ClientId :=
| NumId (n : nat)
| StrId (s : string).

(** A ProxyRateClient; [circuit] is [undefined] when the pool had nothing to
    give. The [manager] field is the one manager of this development. *)
Record ProxyRateClient := MakeClient {
  clientId : ClientId;
  circuit : option CircuitRef;
  isPollingClient : bool
}.

(** The call sites of [DIE], by the error kind they stand for. [DIE] comes
    from the logging library and ends the operation: it is fatal. *)
Inductive DieSite :=
| DuplicateCircuit          (* addCircuit: circuit already exists *)
| UnnamedRigidCircuit       (* addCircuit: named circuit must have a name *)
| CircuitNotInPool          (* _removeCircuit: is not in this.circuits *)
| NoCircuitFound            (* createClient *)
| AllCircuitsUnhealthy      (* onAllCircuitsUnhealthy *)
| MissingActionName         (* 1st / 2nd argument must be actionName *)
| UnknownAction             (* reportNewAction: action not registered *)
| MissingIP                 (* _onChangedIP: newIp must be provided *)
| IPChangeExhausted         (* _definitivelyChangeToAvailableIP *)
| TorNotFound               (* _changeExitNode: tor process not found *)
| RigidCircuitMisuse.       (* client on a rigid circuit *)

Inductive Fault :=
| Die (site : DieSite)
| TypeError (what : string)
| ReferenceError (identifier : string)
| Thrown (err : string).

(** Why a run gives neither a value nor a fault. *)
Inductive Halt :=
| Awaiting (r : Resolver)   (* suspended on a promise only another task resolves *)
| OutOfFuel                 (* a loop was cut by the fuel given to it *)
| Dangling (address : nat). (* an address with no object: not a program state *)

Inductive Outcome (A : Type) :=
| Ret (a : A)
| Raise (f : Fault)
| NoReturn (h : Halt).
Arguments Ret {A} a.
Arguments Raise {A} f.
Arguments NoReturn {A} h.

(** Answers of [ps.lookup]. *)
Inductive PsResult :=
| PsErr (err : string)
| PsList (pids : list Z).

(** What the program does to its environment. *)
Inductive Effect :=
| SpawnTor                                  (* torProc.startProc(['--runasdaemon','1']) *)
| Kill (pid : Z)                            (* ps.kill(pid) *)
| Sighup (pid : Z)                          (* ps.kill(pid, {signal: 'SIGHUP'}) *)
| WriteCache (snapshot : JsObj (JsObj (list Z))).

(** The environment. Each oracle is asked with the number of questions put
    so far, so two questions never share an answer.
    - [clock]: [new Date().getTime()];
    - [random]: the draw behind [Math.floor(Math.random() * n)], reduced
      modulo [n] where it is used: any index below [n], and no other;
    - [probe]: the address an [IPCheckRequest] ends with;
    - [psLookup], [psKill]: the process table and the error (rendered by
      [toString]) handed to the callback of [ps.kill], [None] for none;
    - [writeFile]: the error handed to the callback of [fs.writeFile];
    - [looseZero]: whether a string converts to the number zero, as the
      comparison [array == 0] asks of the runtime. *)
Record World := MakeWorld {
  clock : nat -> Z;
  random : nat -> nat;
  probe : nat -> string;
  psLookup : nat -> PsResult;
  psKill : nat -> option string;
  writeFile : nat -> option string;
  looseZero : string -> bool
}.

Definition MAX_CHANGE_TRIES : nat := 7.

(** The manager instance, the objects it shares, and its environment.
    [this.circuits] and [this.namedCircuits] exist once [initWithCircuits]
    has run, which every state here assumes. *)
Record t := Make {
  reqStats : JsObj (JsObj (list Z));   (* ip => action => timestamps of reported actions, oldest first *)
  pendingCallbacks : list Resolver;   (* resolve functions of callers waiting for a change to end *)
  isCurrentlyChanging : bool;
  isCurrentlyRestarting : bool;   (* undefined until first written; only ever tested for truth *)
  clients : list ClientRef;   (* clients handed out by createClient *)
  blacklistedIPs : JsObj bool;
  actionLimits : JsObj Z;   (* action => limit *)
  actionResetTimes : JsObj Z;   (* action => rolling window in ms *)
  circuits : list CircuitRef;   (* the cycling pool *)
  namedCircuits : JsObj CircuitRef;   (* circuits reachable by name only *)
  circuitStore : list ProxyCircuit.t;   (* circuit objects, by address *)
  clientStore : list ProxyRateClient;   (* client objects, by address *)
  nextTicks : list (Resolver * bool);   (* process.nextTick queue: resolver and the value it will be given *)
  effects : list Effect;   (* what the program did to processes and the cache file, latest last *)
  globalScope : JsObj (option string);   (* bindings of the global object that hold a string or null *)
  nextResolver : nat;   (* promises created so far *)
  world : World;
  asked : nat   (* questions put to the world so far *)
}.

Definition set_reqStats (v : JsObj (JsObj (list Z))) (s : t) : t :=
  Make v (pendingCallbacks s) (isCurrentlyChanging s)
    (isCurrentlyRestarting s) (clients s) (blacklistedIPs s)
    (actionLimits s) (actionResetTimes s) (circuits s) (namedCircuits s)
    (circuitStore s) (clientStore s) (nextTicks s) (effects s)
    (globalScope s) (nextResolver s) (world s) (asked s).

Definition set_pendingCallbacks (v : list Resolver) (s : t) : t :=
  Make (reqStats s) v (isCurrentlyChanging s) (isCurrentlyRestarting s)
    (clients s) (blacklistedIPs s) (actionLimits s) (actionResetTimes s)
    (circuits s) (namedCircuits s) (circuitStore s) (clientStore s)
    (nextTicks s) (effects s) (globalScope s) (nextResolver s) (world s)
    (asked s).

Definition set_isCurrentlyChanging (v : bool) (s : t) : t :=
  Make (reqStats s) (pendingCallbacks s) v (isCurrentlyRestarting s)
    (clients s) (blacklistedIPs s) (actionLimits s) (actionResetTimes s)
    (circuits s) (namedCircuits s) (circuitStore s) (clientStore s)
    (nextTicks s) (effects s) (globalScope s) (nextResolver s) (world s)
    (asked s).

Definition set_isCurrentlyRestarting (v : bool) (s : t) : t :=
  Make (reqStats s) (pendingCallbacks s) (isCurrentlyChanging s) v
    (clients s) (blacklistedIPs s) (actionLimits s) (actionResetTimes s)
    (circuits s) (namedCircuits s) (circuitStore s) (clientStore s)
    (nextTicks s) (effects s) (globalScope s) (nextResolver s) (world s)
    (asked s).

Definition set_clients (v : list ClientRef) (s : t) : t :=
  Make (reqStats s) (pendingCallbacks s) (isCurrentlyChanging s)
    (isCurrentlyRestarting s) v (blacklistedIPs s) (actionLimits s)
    (actionResetTimes s) (circuits s) (namedCircuits s) (circuitStore s)
    (clientStore s) (nextTicks s) (effects s) (globalScope s)
    (nextResolver s) (world s) (asked s).

Definition set_actionLimits (v : JsObj Z) (s : t) : t :=
  Make (reqStats s) (pendingCallbacks s) (isCurrentlyChanging s)
    (isCurrentlyRestarting s) (clients s) (blacklistedIPs s) v
    (actionResetTimes s) (circuits s) (namedCircuits s) (circuitStore s)
    (clientStore s) (nextTicks s) (effects s) (globalScope s)
    (nextResolver s) (world s) (asked s).

Definition set_actionResetTimes (v : JsObj Z) (s : t) : t :=
  Make (reqStats s) (pendingCallbacks s) (isCurrentlyChanging s)
    (isCurrentlyRestarting s) (clients s) (blacklistedIPs s)
    (actionLimits s) v (circuits s) (namedCircuits s) (circuitStore s)
    (clientStore s) (nextTicks s) (effects s) (globalScope s)
    (nextResolver s) (world s) (asked s).

Definition set_circuits (v : list CircuitRef) (s : t) : t :=
  Make (reqStats s) (pendingCallbacks s) (isCurrentlyChanging s)
    (isCurrentlyRestarting s) (clients s) (blacklistedIPs s)
    (actionLimits s) (actionResetTimes s) v (namedCircuits s)
    (circuitStore s) (clientStore s) (nextTicks s) (effects s)
    (globalScope s) (nextResolver s) (world s) (asked s).

Definition set_namedCircuits (v : JsObj CircuitRef) (s : t) : t :=
  Make (reqStats s) (pendingCallbacks s) (isCurrentlyChanging s)
    (isCurrentlyRestarting s) (clients s) (blacklistedIPs s)
    (actionLimits s) (actionResetTimes s) (circuits s) v (circuitStore
    s) (clientStore s) (nextTicks s) (effects s) (globalScope s)
    (nextResolver s) (world s) (asked s).

Definition set_circuitStore (v : list ProxyCircuit.t) (s : t) : t :=
  Make (reqStats s) (pendingCallbacks s) (isCurrentlyChanging s)
    (isCurrentlyRestarting s) (clients s) (blacklistedIPs s)
    (actionLimits s) (actionResetTimes s) (circuits s) (namedCircuits s)
    v (clientStore s) (nextTicks s) (effects s) (globalScope s)
    (nextResolver s) (world s) (asked s).

Definition set_clientStore (v : list ProxyRateClient) (s : t) : t :=
  Make (reqStats s) (pendingCallbacks s) (isCurrentlyChanging s)
    (isCurrentlyRestarting s) (clients s) (blacklistedIPs s)
    (actionLimits s) (actionResetTimes s) (circuits s) (namedCircuits s)
    (circuitStore s) v (nextTicks s) (effects s) (globalScope s)
    (nextResolver s) (world s) (asked s).

Definition set_nextTicks (v : list (Resolver * bool)) (s : t) : t :=
  Make (reqStats s) (pendingCallbacks s) (isCurrentlyChanging s)
    (isCurrentlyRestarting s) (clients s) (blacklistedIPs s)
    (actionLimits s) (actionResetTimes s) (circuits s) (namedCircuits s)
    (circuitStore s) (clientStore s) v (effects s) (globalScope s)
    (nextResolver s) (world s) (asked s).

Definition set_effects (v : list Effect) (s : t) : t :=
  Make (reqStats s) (pendingCallbacks s) (isCurrentlyChanging s)
    (isCurrentlyRestarting s) (clients s) (blacklistedIPs s)
    (actionLimits s) (actionResetTimes s) (circuits s) (namedCircuits s)
    (circuitStore s) (clientStore s) (nextTicks s) v (globalScope s)
    (nextResolver s) (world s) (asked s).

Definition set_globalScope (v : JsObj (option string)) (s : t) : t :=
  Make (reqStats s) (pendingCallbacks s) (isCurrentlyChanging s)
    (isCurrentlyRestarting s) (clients s) (blacklistedIPs s)
    (actionLimits s) (actionResetTimes s) (circuits s) (namedCircuits s)
    (circuitStore s) (clientStore s) (nextTicks s) (effects s) v
    (nextResolver s) (world s) (asked s).

Definition set_nextResolver (v : nat) (s : t) : t :=
  Make (reqStats s) (pendingCallbacks s) (isCurrentlyChanging s)
    (isCurrentlyRestarting s) (clients s) (blacklistedIPs s)
    (actionLimits s) (actionResetTimes s) (circuits s) (namedCircuits s)
    (circuitStore s) (clientStore s) (nextTicks s) (effects s)
    (globalScope s) v (world s) (asked s).

Definition set_asked (v : nat) (s : t) : t :=
  Make (reqStats s) (pendingCallbacks s) (isCurrentlyChanging s)
    (isCurrentlyRestarting s) (clients s) (blacklistedIPs s)
    (actionLimits s) (actionResetTimes s) (circuits s) (namedCircuits s)
    (circuitStore s) (clientStore s) (nextTicks s) (effects s)
    (globalScope s) (nextResolver s) (world s) v.

(** ** The monad of manager code *)

Definition M (A : Type) : Type := t -> Outcome A * t.

Definition ret {A} (a : A) : M A := fun s => (Ret a, s).

Definition bind {A B} (m : M A) (k : A -> M B) : M B :=
  fun s =>
    match m s with
    | (Ret a, s') => k a s'
    | (Raise f, s') => (Raise f, s')
    | (NoReturn h, s') => (NoReturn h, s')
    end.

Definition raise {A} (f : Fault) : M A := fun s => (Raise f, s).
Definition halt {A} (h : Halt) : M A := fun s => (NoReturn h, s).
Definition gets {A} (f : t -> A) : M A := fun s => (Ret (f s), s).
Definition modify (f : t -> t) : M unit := fun s => (Ret tt, f s).

Notation "x <- m ;; k" := (bind m (fun x => k))
  (at level 100, m at next level, right associativity).
Notation "m ;;; k" := (bind m (fun _ => k))
  (at level 100, right associativity).

(** [for (x of l) f(x)] *)
Fixpoint forEach {A} (l : list A) (f : A -> M unit) : M unit :=
  match l with
  | [] => ret tt
  | x :: l' => f x ;;; forEach l' f
  end.

(** [l.map(f)] for an [f] that may throw. *)
Fixpoint mapM {A B} (f : A -> M B) (l : list A) : M (list B) :=
  match l with
  | [] => ret []
  | x :: l' => y <- f x ;; ys <- mapM f l' ;; ret (y :: ys)
  end.

(** [l.filter(p)] for a [p] that may throw. *)
Fixpoint filterM {A} (p : A -> M bool) (l : list A) : M (list A) :=
  match l with
  | [] => ret []
  | x :: l' =>
      b <- p x ;; ys <- filterM p l' ;; ret (if b then x :: ys else ys)
  end.

(** One question to the world. *)
Definition ask {A} (oracle : World -> nat -> A) : M A :=
  fun s => (Ret (oracle (world s) (asked s)), set_asked (S (asked s)) s).

Definition log (e : Effect) : M unit :=
  modify (fun s => set_effects (effects s ++ [e]) s).

(** Reading and writing an object through its address. *)
Definition readCircuit (r : CircuitRef) : M ProxyCircuit.t :=
  fun s =>
    match circuitStore s !! r with
    | Some c => (Ret c, s)
    | None => (NoReturn (Dangling r), s)
    end.

Definition updateCircuit (r : CircuitRef) (f : ProxyCircuit.t -> ProxyCircuit.t)
  : M unit :=
  c <- readCircuit r ;;
  modify (fun s => set_circuitStore (<[r := f c]> (circuitStore s)) s).

Definition readClient (k : ClientRef) : M ProxyRateClient :=
  fun s =>
    match clientStore s !! k with
    | Some c => (Ret c, s)
    | None => (NoReturn (Dangling k), s)
    end.

Definition writeClient (k : ClientRef) (c : ProxyRateClient) : M unit :=
  modify (fun s => set_clientStore (<[k := c]> (clientStore s)) s).

(** [new ProxyCircuit(args)] and [new ProxyRateClient(args)]: a new object
    at the next free address. *)
Definition newCircuit (args : JsObj JsVal) : M CircuitRef :=
  fun s =>
    (Ret (length (circuitStore s)),
     set_circuitStore (circuitStore s ++ [ProxyCircuit.new args]) s).

Definition newClient (c : ProxyRateClient) : M ClientRef :=
  fun s =>
    (Ret (length (clientStore s)), set_clientStore (clientStore s ++ [c]) s).

(** [await new Promise(resolve => this.pendingCallbacks.push(resolve))]:
    the caller is parked until some other task calls its [resolve]. *)
Definition awaitPendingCallback {A} : M A :=
  fun s =>
    let r := nextResolver s in
    (NoReturn (Awaiting r),
     set_nextResolver (S r) (set_pendingCallbacks (pendingCallbacks s ++ [r]) s)).

(** A free identifier is looked up in the global scope. *)
Definition readGlobal (x : string) : M (option string) :=
  fun s =>
    match get x (globalScope s) with
    | Some v => (Ret v, s)
    | None => (Raise (ReferenceError x), s)
    end.

(** In strict mode, so is the target of an assignment. *)
Definition writeGlobal (x : string) (v : option string) : M unit :=
  fun s =>
    match get x (globalScope s) with
    | Some _ => (Ret tt, set_globalScope (set x v (globalScope s)) s)
    | None => (Raise (ReferenceError x), s)
    end.

(** ** Action catalogue and rate store *)

(** [addRateLimitActionKey({key, limit = 1200, timeForRateReset = one day})] *)
Definition addRateLimitActionKey (key : string) (limit timeForRateReset : option Z)
  : M unit :=
  modify (fun s =>
    set_actionResetTimes
      (set key (default (1000 * 60 * 60 * 24) timeForRateReset) (actionResetTimes s))
      (set_actionLimits (set key (default 1200 limit) (actionLimits s)) s)).

(** The [actionArrays] of [_initializeIPDataIfNotInitialized]: an empty series
    for each action in [actionLimits]. *)
Definition emptySeries (limits : JsObj Z) : JsObj (list Z) :=
  fold_left (fun actionArrays actionName => set actionName [] actionArrays)
    (keys limits) [].

Definition _initializeIPDataIfNotInitialized (ip : string) : M unit :=
  modify (fun s =>
    match get ip (reqStats s) with
    | Some _ => s
    | None => set_reqStats (set ip (emptySeries (actionLimits s)) (reqStats s)) s
    end).

(** [reportNewAction(actionName, circuit)]. The call of [DIE] for an action
    that is not registered names the free identifier [actionLimits] among its
    arguments, which is looked up first. *)
Definition reportNewAction (actionName : option string) (circuit : CircuitRef)
  : M unit :=
  c <- readCircuit circuit ;;
  let exitIP := propKey (ProxyCircuit.activeExitNodeIP c) in
  match actionName with
  | None => raise (Die MissingActionName)
  | Some a =>
      limits <- gets actionLimits ;;
      (if has a limits then ret tt
       else (_ <- readGlobal "actionLimits" ;; raise (Die UnknownAction))) ;;;
      _initializeIPDataIfNotInitialized exitIP ;;;
      now <- ask clock ;;
      stats <- gets reqStats ;;
      match get exitIP stats with
      | None => raise (TypeError "this.reqStats[exitIP] is undefined")
      | Some ipStats =>
          let series := default [] (get a ipStats) in
          modify (set_reqStats (set exitIP (set a (series ++ [now]) ipStats) stats))
      end
  end.

(** The inner loop of [_preenOldRequestsForIP]: [shift] while the oldest
    entry is more than [window] behind [now]. *)
Fixpoint shiftExpired (now window : Z) (series : list Z) : list Z :=
  match series with
  | [] => []
  | oldest :: rest =>
      if now - oldest >? window then shiftExpired now window rest else series
  end.

(** One turn of the outer loop: it reads [this.reqStats[ip][actionName].length]
    whatever the store holds. *)
Definition preenAction (ip : string) (now : Z) (actionName : string) : M unit :=
  stats <- gets reqStats ;;
  windows <- gets actionResetTimes ;;
  match get ip stats with
  | None => raise (TypeError "this.reqStats[ip] is undefined")
  | Some ipStats =>
      match get actionName ipStats with
      | None => raise (TypeError "this.reqStats[ip][actionName] is undefined")
      | Some series =>
          let series' :=
            match get actionName windows with
            | Some TIME_FOR_RATE_RESET => shiftExpired now TIME_FOR_RATE_RESET series
            | None => series
            end in
          modify (set_reqStats (set ip (set actionName series' ipStats) stats))
      end
  end.

Definition _preenOldRequestsForIP (ip : string) : M unit :=
  now <- ask clock ;;
  windows <- gets actionResetTimes ;;
  forEach (keys windows) (preenAction ip now).

(** [_isIPAvailableForRequests(ip, actionName = null)]. A limit that is not
    registered is [undefined], and no number is below [undefined]. *)
Definition _isIPAvailableForRequests (ip : string) (actionName : option string)
  : M bool :=
  stats <- gets reqStats ;;
  blacklist <- gets blacklistedIPs ;;
  match get ip stats with
  | None => ret true                               (* totally fresh IP *)
  | Some _ =>
      if default false (get ip blacklist) then ret false   (* blacklisted *)
      else
        match actionName with
        | None => raise (Die MissingActionName)
        | Some a =>
            _preenOldRequestsForIP ip ;;;
            stats <- gets reqStats ;;
            limits <- gets actionLimits ;;
            match get ip stats with
            | None => raise (TypeError "this.reqStats[ip] is undefined")
            | Some ipStats =>
                match get a ipStats with
                | None => raise (TypeError "this.reqStats[ip][actionName] is undefined")
                | Some series =>
                    ret (match get a limits with
                         | Some limit => Z.of_nat (length series) <? limit
                         | None => false
                         end)
                end
            end
        end
  end.

Definition _shouldPreenIPData : M bool :=
  gets (fun s => (500 <? length (keys (reqStats s)))%nat).

(** [c.getCurrentIP()] on a circuit: ProxyCircuit has no such method (it is a
    method of ProxyRateClient), so the call throws. *)
Definition circuit_getCurrentIP (c : ProxyCircuit.t) : M (option string) :=
  raise (TypeError "c.getCurrentIP is not a function").

(** [numRelevantPoints == 0], an array compared with a number: the array is
    joined with commas and the string converted to a number. The empty array
    gives the empty string, which is zero; two names or more give a string
    with a comma, which is not a number. *)
Definition arrayLooselyZero (w : World) (a : list string) : bool :=
  match a with
  | [] => true
  | [x] => looseZero w x
  | _ => false
  end.

(** One turn of the loop of [freeOldIPData]; a key deleted before its turn is
    not visited. *)
Definition freeOldIP (ip : string) : M unit :=
  stats <- gets reqStats ;;
  match get ip stats with
  | None => ret tt
  | Some _ =>
      _preenOldRequestsForIP ip ;;;
      pool <- gets circuits ;;
      objs <- mapM readCircuit pool ;;
      holders <- filterM (fun c =>
                 cur <- circuit_getCurrentIP c ;;
                 ret (String.eqb ip (propKey cur))) objs ;;
      let numCircuitsWithIP := length holders in
      stats <- gets reqStats ;;
      w <- gets world ;;
      match get ip stats with
      | None => raise (TypeError "ipStats is undefined")
      | Some ipStats =>
          let numRelevantPoints :=
            List.filter
              (fun actionName =>
                 (0 <? length (default [] (get actionName ipStats)))%nat)
              (keys ipStats) in
          if arrayLooselyZero w numRelevantPoints && (numCircuitsWithIP =? 0)%nat
          then modify (set_reqStats (del ip stats))
          else ret tt
      end
  end.

Definition freeOldIPData : M unit :=
  ips <- gets (fun s => keys (reqStats s)) ;;
  forEach ips freeOldIP.

(** [_writeOutCache]: the whole store, overwriting the file. *)
Definition _writeOutCache : M unit :=
  stats <- gets reqStats ;;
  log (WriteCache stats) ;;;
  err <- ask writeFile ;;
  match err with
  | Some e => raise (Thrown e)
  | None => ret tt
  end.

(** ** The IP-change protocol *)

(** The loop that empties [pendingCallbacks]: each entry is taken from the
    front and its call with [true] is queued for the next tick. Only
    [resolve] functions are ever pushed, so the [typeof] test holds. *)
Fixpoint firePending (queue : list Resolver) : M unit :=
  match queue with
  | [] => ret tt
  | fn :: rest =>
      modify (fun s =>
        set_nextTicks (nextTicks s ++ [(fn, true)]) (set_pendingCallbacks rest s)) ;;;
      firePending rest
  end.

(** [_onChangedIP(circuit, newIp)]. The two follow counters it resets are
    read nowhere and are left out. *)
Definition _onChangedIP (circuit : CircuitRef) (newIp : option string) : M unit :=
  (if truthy_str newIp then ret tt else raise (Die MissingIP)) ;;;
  _initializeIPDataIfNotInitialized (propKey newIp) ;;;
  modify (set_isCurrentlyChanging false) ;;;
  now <- ask clock ;;
  updateCircuit circuit (ProxyCircuit.with_exit newIp now) ;;;
  full <- _shouldPreenIPData ;;
  (if full then freeOldIPData else ret tt) ;;;
  queue <- gets pendingCallbacks ;;
  firePending queue.

(** The scan of [_onUnrequestedIPChange]:
    [while ((point = actionStats[actionStats.length - 1 - i]) && point > lastIPPollTime) i++].
    It ends within [length actionStats + 1] tests, the last index read
    being [-1]. *)
Fixpoint countNewer (fuel : nat) (actionStats : list Z) (lastIPPollTime : Z)
  (i : nat) : nat :=
  match fuel with
  | O => i
  | S fuel' =>
      match index actionStats (Z.of_nat (length actionStats) - 1 - Z.of_nat i) with
      | Some point =>
          if truthy_num point && (point >? lastIPPollTime)
          then countNewer fuel' actionStats lastIPPollTime (S i)
          else i
      | None => i
      end
  end.

(** One turn of the loop over [actionLimits] in [_onUnrequestedIPChange]. *)
Definition copyAmbiguous (oldIp newIp : string) (lastIPPollTime : Z)
  (actionName : string) : M unit :=
  stats <- gets reqStats ;;
  match get oldIp stats with
  | None => raise (TypeError "ipStats is undefined")
  | Some ipStats =>
      match get actionName ipStats with
      | None => raise (TypeError "actionStats is undefined")
      | Some actionStats =>
          let i := countNewer (S (length actionStats)) actionStats lastIPPollTime 0 in
          let ambiguousPoints := slice actionStats 0 (- Z.of_nat i) in
          match get newIp stats with
          | None => raise (TypeError "this.reqStats[newIp] is undefined")
          | Some newStats =>
              match get actionName newStats with
              | None =>
                  raise (TypeError "this.reqStats[newIp][actionName] is undefined")
              | Some series =>
                  modify (set_reqStats
                    (set newIp (set actionName (series ++ ambiguousPoints) newStats)
                       stats))
              end
          end
      end
  end.

(** [_onUnrequestedIPChange(circuit, newIp)], with [circuit.activeExitNodeIP]
    still the old address. *)
Definition _onUnrequestedIPChange (circuit : CircuitRef) (newIp : option string)
  : M unit :=
  modify (set_isCurrentlyChanging true) ;;;
  _initializeIPDataIfNotInitialized (propKey newIp) ;;;
  c <- readCircuit circuit ;;
  let oldIp := propKey (ProxyCircuit.activeExitNodeIP c) in
  let lastIPPollTime := ProxyCircuit.lastIPPollTime c in
  limits <- gets actionLimits ;;
  forEach (keys limits) (copyAmbiguous oldIp (propKey newIp) lastIPPollTime) ;;;
  _writeOutCache ;;;
  _onChangedIP circuit newIp.


(** ** The circuit pool *)

Definition poolObjects : M (list ProxyCircuit.t) :=
  pool <- gets circuits ;;
  mapM readCircuit pool.

(** [_hasCircuit(circuit)]: looks through [this.circuits]. *)
Definition _hasCircuit (circuit : ProxyCircuit.t) : M bool :=
  let id := ProxyCircuit.getIdentifier circuit in
  objs <- poolObjects ;;
  ret (0 <? length
         (List.filter
            (fun c => String.eqb (ProxyCircuit.getIdentifier c) id) objs))%nat.

Definition areAllCircuitsUnhealthy : M bool :=
  objs <- poolObjects ;;
  ret (length (List.filter ProxyCircuit.isHealthy objs) =? 0)%nat.

(** The hook as shipped. *)
Definition onAllCircuitsUnhealthy : M unit := raise (Die AllCircuitsUnhealthy).

(** The [do ... while] of [_getRandomCircuit]. [fuel] bounds the number of
    draws. A [continue] inside [do ... while] goes to the test of the loop,
    not to the top of its body. *)
Fixpoint randomCircuitLoop (fuel : nat) (circuitToOmit : option CircuitRef)
  (omitUnhealthyCircuits : bool) : M (option CircuitRef) :=
  match fuel with
  | O => halt OutOfFuel
  | S fuel' =>
      pool <- gets circuits ;;
      u <- ask random ;;
      let randomIndex := (u mod length pool)%nat in
      match pool !! randomIndex with
      | None => halt (Dangling randomIndex)
      | Some randomRef =>
          randomCircuit <- readCircuit randomRef ;;
          (* the body: [Some c] when it returns [c], [None] when it reaches
             its end or a [continue] *)
          returned <-
            (if omitUnhealthyCircuits && negb (ProxyCircuit.isHealthy randomCircuit)
             then
               allBad <- areAllCircuitsUnhealthy ;;
               if allBad then onAllCircuitsUnhealthy ;;; ret None
               else
                 match circuitToOmit with
                 | Some omitRef =>
                     omit <- readCircuit omitRef ;;
                     if ProxyCircuit.isHealthy omit then ret (Some omitRef)
                     else ret None
                 | None => ret None
                 end
             else ret None) ;;
          match returned with
          | Some c => ret (Some c)
          | None =>
              (* while (circuitToOmit &&
                        circuitToOmit.getIdentifier() == randomCircuit.getIdentifier()) *)
              again <-
                match circuitToOmit with
                | Some omitRef =>
                    omit <- readCircuit omitRef ;;
                    ret (String.eqb (ProxyCircuit.getIdentifier omit)
                           (ProxyCircuit.getIdentifier randomCircuit))
                | None => ret false
                end ;;
              if again
              then randomCircuitLoop fuel' circuitToOmit omitUnhealthyCircuits
              else ret (Some randomRef)
          end
      end
  end.

(** [_getRandomCircuit(circuitToOmit = null, omitUnhealthyCircuits = true)];
    [None] is [undefined], the first element of an empty pool. *)
Definition _getRandomCircuit (fuel : nat) (circuitToOmit : option CircuitRef)
  (omitUnhealthyCircuits : bool) : M (option CircuitRef) :=
  pool <- gets circuits ;;
  if (length pool <=? 1)%nat then ret (pool !! 0%nat)
  else randomCircuitLoop fuel circuitToOmit omitUnhealthyCircuits.

(** ** The tor daemon *)

Definition _getListOfTorProcesses : M (list Z) :=
  r <- ask psLookup ;;
  match r with
  | PsErr e => raise (Thrown e)
  | PsList pids => ret pids
  end.

Definition _checkIfTorIsRunning : M bool :=
  r <- ask psLookup ;;
  match r with
  | PsErr e => raise (Thrown e)
  | PsList resultList => ret (0 <? length resultList)%nat
  end.

(** [_startTorIfNotStarted]: whether tor was running already. *)
Definition _startTorIfNotStarted : M bool :=
  isRunning <- _checkIfTorIsRunning ;;
  if isRunning then modify (set_isCurrentlyRestarting false) ;;; ret true
  else
    log SpawnTor ;;;
    modify (set_isCurrentlyRestarting false) ;;;
    ret false.

Definition _killAllTorProcesses : M nat :=
  resultList <- _getListOfTorProcesses ;;
  forEach resultList (fun pid =>
    log (Kill pid) ;;;
    err <- ask psKill ;;
    match err with
    | Some e => raise (Thrown e)
    | None => ret tt
    end) ;;;
  ret (length resultList).

(** [_changeExitNode]: SIGHUP to every tor process; the timeout of the kill
    call is the expected answer. *)
Definition _changeExitNode : M unit :=
  resultList <- _getListOfTorProcesses ;;
  (if (length resultList =? 0)%nat then raise (Die TorNotFound) else ret tt) ;;;
  forEach resultList (fun pid =>
    log (Sighup pid) ;;;
    err <- ask psKill ;;
    match err with
    | Some e =>
        if String.eqb e "Error: Kill process timeout" then ret tt
        else raise (Thrown e)
    | None => ret tt
    end).

(** [_getExternalIP(circuit)]: an IPCheckRequest through the polling client
    of the circuit. A request that ends well through a polling client raises
    the health of that client's circuit ([onFinish]); the wait for an answer
    and the attempts that fail before it belong to the request library. *)
Definition _getExternalIP (circuit : CircuitRef) : M string :=
  c <- readCircuit circuit ;;
  extIp <- ask probe ;;
  match ProxyCircuit.pollingClient c with
  | Some k =>
      proxyClient <- readClient k ;;
      (if isPollingClient proxyClient
       then match Manager.circuit proxyClient with
            | Some r => updateCircuit r (ProxyCircuit.promoteHealth 10)
            | None => raise (TypeError "proxyClient.circuit is undefined")
            end
       else ret tt) ;;;
      ret extIp
  | None => ret extIp
  end.

(** [_startPoller(circuit)]: the loop that watches the exit address of a
    circuit for as long as the circuit is valid. [fuel] bounds the number of
    turns followed; the waits between turns pass no information. *)
Fixpoint _startPoller (fuel : nat) (circuit : CircuitRef) : M unit :=
  match fuel with
  | O => halt OutOfFuel
  | S fuel' =>
      c <- readCircuit circuit ;;
      if ProxyCircuit.isValid c then
        changing <- gets isCurrentlyChanging ;;
        restarting <- gets isCurrentlyRestarting ;;
        if changing || restarting then _startPoller fuel' circuit
        else
          extIp <- _getExternalIP circuit ;;
          c <- readCircuit circuit ;;
          (if bool_decide (Some extIp = ProxyCircuit.activeExitNodeIP c)
           then ret tt
           else _onUnrequestedIPChange circuit (Some extIp)) ;;;
          now <- ask clock ;;
          updateCircuit circuit (ProxyCircuit.with_lastIPPollTime now) ;;;
          _startPoller fuel' circuit
      else ret tt
  end.

(** The [while (numTries < this.MAX_CHANGE_TRIES)] of
    [_definitivelyChangeToAvailableIP], counted by the tries that are left.
    The message of the final [DIE] also reads [actualExitIP]. *)
Fixpoint changeLoop (triesLeft : nat) (circuit : CircuitRef) : M unit :=
  match triesLeft with
  | O =>
      _ <- readGlobal "actualExitIP" ;;
      raise (Die IPChangeExhausted)
  | S triesLeft' =>
      _changeExitNode ;;;
      extIp <- _getExternalIP circuit ;;
      actualExitIP <- readGlobal "actualExitIP" ;;
      if match actualExitIP with
         | Some a => String.eqb extIp a
         | None => false
         end
      then changeLoop triesLeft' circuit
      else _onChangedIP circuit (Some extIp)
  end.

(** [_definitivelyChangeToAvailableIP(circuit, activeExitNodeIP = null)].
    The body never mentions its second parameter: it reads and writes
    [actualExitIP], an identifier declared nowhere in the module. *)
Definition _definitivelyChangeToAvailableIP (circuit : CircuitRef) : M unit :=
  modify (set_isCurrentlyChanging true) ;;;
  c <- readCircuit circuit ;;
  let storedExitIP := ProxyCircuit.activeExitNodeIP c in
  actualExitIP <- readGlobal "actualExitIP" ;;
  (if truthy_str actualExitIP then ret tt
   else
     extIp <- _getExternalIP circuit ;;
     writeGlobal "actualExitIP" (Some extIp)) ;;;
  changeLoop MAX_CHANGE_TRIES circuit.

(** [changeIPIfNecessary(circuit, actionName = null)] of the manager. *)
Definition changeIPIfNecessary (circuit : CircuitRef) (actionName : option string)
  : M bool :=
  changing <- gets isCurrentlyChanging ;;
  if changing then awaitPendingCallback
  else
    match actionName with
    | None => raise (Die MissingActionName)
    | Some a =>
        c <- readCircuit circuit ;;
        free <- _isIPAvailableForRequests
                  (propKey (ProxyCircuit.activeExitNodeIP c)) (Some a) ;;
        if free then ret false
        else _definitivelyChangeToAvailableIP circuit ;;; ret true
    end.

(** [forceIPChangeImmediately(circuit)] of the manager; its first statement
    renders [circuit.getIdentifier()] for the log. [None] is a call without
    argument, and the result [None] is [undefined]. *)
Definition forceIPChangeImmediately (circuit : option CircuitRef)
  : M (option bool) :=
  match circuit with
  | None => raise (TypeError "circuit is undefined")
  | Some r =>
      _ <- readCircuit r ;;
      changing <- gets isCurrentlyChanging ;;
      if changing then awaitPendingCallback
      else _definitivelyChangeToAvailableIP r ;;; ret None
  end.

Definition forceRestartTorImmediately : M unit :=
  modify (set_isCurrentlyChanging true) ;;;
  restarting <- gets isCurrentlyRestarting ;;
  if restarting then awaitPendingCallback
  else
    modify (set_isCurrentlyRestarting true) ;;;
    _killAllTorProcesses ;;;
    _startTorIfNotStarted ;;;
    pool <- gets circuits ;;
    torCircuits <- filterM (fun r =>
                     c <- readCircuit r ;; ret (ProxyCircuit.isLocalTor c)) pool ;;
    forEach torCircuits (fun circuit =>
      extIp <- _getExternalIP circuit ;;
      _onUnrequestedIPChange circuit (Some extIp)).

(** ** ProxyRateClient *)

Module Client.

(** [this.circuit], for a read of one of its properties. *)
Definition boundCircuit (this : ClientRef) : M ProxyCircuit.t :=
  client <- readClient this ;;
  match circuit client with
  | Some r => readCircuit r
  | None => raise (TypeError "this.circuit is undefined")
  end.

Definition getCurrentIP (this : ClientRef) : M (option string) :=
  c <- boundCircuit this ;;
  ret (ProxyCircuit.activeExitNodeIP c).

Definition _changeToRandomCircuit (fuel : nat) (this : ClientRef) : M unit :=
  client <- readClient this ;;
  if isPollingClient client then ret tt
  else
    c <- _getRandomCircuit fuel (circuit client) true ;;
    writeClient this (MakeClient (clientId client) c (isPollingClient client)).

(** [forceIPChangeImmediately()] of the client. The manager's method is
    called without argument; [_changeToRandomCircuit] returns nothing. *)
Definition forceIPChangeImmediately (fuel : nat) (this : ClientRef)
  : M (option bool) :=
  c <- boundCircuit this ;;
  if ProxyCircuit.isLocalTor c then Manager.forceIPChangeImmediately None
  else if negb (ProxyCircuit.addToCyclingCircuitPool c) then ret None
  else _changeToRandomCircuit fuel this ;;; ret None.

(** [changeIPIfNecessary(actionName)] of the client. *)
Definition changeIPIfNecessary (fuel : nat) (this : ClientRef)
  (actionName : option string) : M (option bool) :=
  c <- boundCircuit this ;;
  (if negb (ProxyCircuit.addToCyclingCircuitPool c)
   then raise (Die RigidCircuitMisuse) else ret tt) ;;;
  free <- _isIPAvailableForRequests
            (propKey (ProxyCircuit.activeExitNodeIP c)) actionName ;;
  if free then ret (Some false)
  else forceIPChangeImmediately fuel this.

Definition reportNewAction (this : ClientRef) (action : option string) : M unit :=
  client <- readClient this ;;
  c <- boundCircuit this ;;
  (if negb (ProxyCircuit.addToCyclingCircuitPool c)
   then raise (Die RigidCircuitMisuse) else ret tt) ;;;
  match circuit client with
  | Some r => Manager.reportNewAction action r
  | None => raise (TypeError "this.circuit is undefined")
  end.

End Client.

(** ** Adding and removing circuits *)

(** [addCircuit(circuitDetails)]. The poller it launches last is a task of
    its own and is not followed. *)
Definition addCircuit (circuitDetails : JsObj JsVal) : M unit :=
  circuit <- newCircuit circuitDetails ;;
  c <- readCircuit circuit ;;
  exists_ <- _hasCircuit c ;;
  (if exists_ then raise (Die DuplicateCircuit) else ret tt) ;;;
  (if ProxyCircuit.isLocalTor c then _startTorIfNotStarted ;;; ret tt else ret tt) ;;;
  extIp <- _getExternalIP circuit ;;
  _onChangedIP circuit (Some extIp) ;;;
  (if ProxyCircuit.addToCyclingCircuitPool c
   then modify (fun s => set_circuits (circuits s ++ [circuit]) s)
   else
     if truthy_str (ProxyCircuit.name c)
     then modify (fun s =>
            set_namedCircuits
              (set (propKey (ProxyCircuit.name c)) circuit (namedCircuits s)) s)
     else raise (Die UnnamedRigidCircuit)) ;;;
  pollingClient <- newClient (MakeClient (StrId "POLLER") (Some circuit) true) ;;
  updateCircuit circuit (ProxyCircuit.setPollingClient (Some pollingClient)).

Definition addCircuits (circuitsArr : list (JsObj JsVal)) : M unit :=
  forEach circuitsArr addCircuit.

Definition initWithCircuits (circuitDetailsArr : list (JsObj JsVal)) : M unit :=
  modify (fun s => set_namedCircuits [] (set_circuits [] s)) ;;;
  addCircuits circuitDetailsArr.

(** [_removeCircuit(circuit)] *)
Definition _removeCircuit (fuel : nat) (circuit : CircuitRef) : M CircuitRef :=
  updateCircuit circuit ProxyCircuit.markInvalid ;;;
  c <- readCircuit circuit ;;
  (if ProxyCircuit.addToCyclingCircuitPool c
   then modify (fun s =>
          set_namedCircuits (del (propKey (ProxyCircuit.name c)) (namedCircuits s)) s)
   else
     pool <- gets circuits ;;
     match indexOf pool circuit with
     | None => raise (Die CircuitNotInPool)
     | Some index => modify (set_circuits (delete index pool))
     end) ;;;
  tracked <- gets clients ;;
  forEach tracked (fun k =>
    client <- readClient k ;;
    if bool_decide (Manager.circuit client = Some circuit)
    then Client._changeToRandomCircuit fuel k
    else ret tt) ;;;
  (if ProxyCircuit.isLocalTor c
   then
     pool <- gets circuits ;;
     torCircuits <- filterM (fun r =>
                      c' <- readCircuit r ;; ret (ProxyCircuit.isLocalTor c')) pool ;;
     if (length torCircuits =? 0)%nat then _killAllTorProcesses ;;; ret tt
     else ret tt
   else ret tt) ;;;
  ret circuit.

(** [createClient(circuitSpecifier = true)] *)
Inductive CircuitSpecifier :=
| AnyCircuit                 (* argument omitted *)
| ByName (name : string)
| ByIndex (i : nat).

Definition createClient (fuel : nat) (circuitSpecifier : CircuitSpecifier)
  : M ClientRef :=
  found <-
    match circuitSpecifier with
    | AnyCircuit => _getRandomCircuit fuel None true
    | ByName n => gets (fun s => get n (namedCircuits s))
    | ByIndex i => gets (fun s => circuits s !! i)
    end ;;
  match found with
  | None => raise (Die NoCircuitFound)
  | Some r =>
      n <- gets (fun s => length (clients s)) ;;
      client <- newClient (MakeClient (NumId n) (Some r) false) ;;
      modify (fun s => set_clients (clients s ++ [client]) s) ;;;
      ret client
  end.

End Manager.

(* ================================================================== *)
(** * IPCheckRequest                                                   *)
(* ================================================================== *)

Module IPCheckRequest.

(** The constructs the regular expression of the module is written with. *)
Inductive Regex :=
| Digit                                (* \d *)
| Char (c : ascii)                     (* a character, escaped or not *)
| Seq (r1 r2 : Regex)                  (* r1 followed by r2 *)
| Repeat (r : Regex) (min max : nat).  (* r{min,max}, greedy; r{n} is r{n,n} *)

(** [\d] without the unicode flag: the ten ASCII digits. *)
Definition isDigit (c : ascii) : bool :=
  (48 <=? nat_of_ascii c)%nat && (nat_of_ascii c <=? 57)%nat.

(** The backtracking matcher of RegExp. [matchFrom r s k] matches [r] at the
    head of [s] and hands what follows to the continuation [k], which
    answers with the text the rest of the pattern matched, or refuses. The
    first alternative the continuation accepts is taken; a greedy repetition
    tries one more turn before it tries to stop. The result is the text
    matched from here on. *)
Fixpoint matchFrom (r : Regex) (s : string) (k : string -> option string)
  : option string :=
  match r with
  | Digit =>
      match s with
      | String c s' => if isDigit c then String c <$> k s' else None
      | EmptyString => None
      end
  | Char c0 =>
      match s with
      | String c s' => if Ascii.eqb c c0 then String c <$> k s' else None
      | EmptyString => None
      end
  | Seq r1 r2 => matchFrom r1 s (fun s' => matchFrom r2 s' k)
  | Repeat r0 min max =>
      (fix turns (min max : nat) (s : string) (k : string -> option string)
         : option string :=
         match max with
         | O => if (min =? 0)%nat then k s else None
         | S max' =>
             match matchFrom r0 s (fun s' => turns (pred min) max' s' k) with
             | Some matched => Some matched
             | None => if (min =? 0)%nat then k s else None
             end
         end) min max s k
  end.

(** [s.match(r)[0]] for a pattern without the [g] flag: the match that
    starts first, tried at every position from the left. *)
Fixpoint search (r : Regex) (s : string) : option string :=
  match matchFrom r s (fun _ => Some "") with
  | Some matched => Some matched
  | None =>
      match s with
      | String _ s' => search r s'
      | EmptyString => None
      end
  end.

(** [/(\d{1,3}\.){3}\d{1,3}/] *)
Definition ipPattern : Regex :=
  Seq (Repeat (Seq (Repeat Digit 1 3) (Char ".")) 3 3) (Repeat Digit 1 3).

(** How [postProcess] ends: with a call of [fail] or of [onFinish]. *)
Inductive Ending :=
| Fail (sleepSeconds : Z) (additionalMsg : string)
| Finish (result : string).

(** [postProcess()], on the body of the response. The pattern has no state,
    so the two calls of [match] give one result. *)
Definition postProcess (data : string) : Ending :=
  if negb (truthy_str (Some data))
  then Fail 40 "IPCheckRequest failed, BLANK request. Retrying 40s"
  else
    match search ipPattern data with
    | None => Fail 10 "ERR getting external IP - response data failed regex:"
    | Some matched => Finish matched
    end.

End IPCheckRequest.

(* ================================================================== *)
(** * Scenarios                                                        *)
(* ================================================================== *)

(** Concrete environments and manager states, built where possible by
    running the operations themselves. *)

Module Scenario.

(** An environment in which nothing goes wrong. To question number [k] the
    clock answers [1000 + 1000 * k], the random source answers [k], a probe
    sees the address [10.0.0.k], one tor process runs and survives its
    signals, and the cache file is written without error. *)
Definition calm : Manager.World :=
  Manager.MakeWorld
    (fun k => 1000 + 1000 * Z.of_nat k)
    (fun k => k)
    (fun k => "10.0.0." +:+ numToString (Z.of_nat k))
    (fun _ => Manager.PsList [4242])
    (fun _ => Some "Error: Kill process timeout")
    (fun _ => None)
    (fun _ => false).

(** The same, but every probe sees the blacklisted address. *)
Definition hostile : Manager.World :=
  Manager.MakeWorld
    (Manager.clock calm) (Manager.random calm)
    (fun _ => "163.172.67.180")
    (Manager.psLookup calm) (Manager.psKill calm) (Manager.writeFile calm)
    (Manager.looseZero calm).

(** A manager as its constructor leaves it, after [initWithCircuits([])]. *)
Definition fresh (w : Manager.World) : Manager.t :=
  Manager.Make [] [] false false [] [("163.172.67.180", true)] [] []
    [] [] [] [] [] [] [] 0 w 0.

(** The state an operation ends in, and what it ends with. *)
Definition after {A} (m : Manager.M A) (s : Manager.t) : Manager.t := snd (m s).
Definition outcome {A} (m : Manager.M A) (s : Manager.t) : Manager.Outcome A :=
  fst (m s).

(** One registered action, ["api"], limited to two a day. *)
Definition withApi (w : Manager.World) : Manager.t :=
  after (Manager.addRateLimitActionKey "api" (Some 2) None) (fresh w).

(** Two cycling proxies and a client on the first, which has reported two
    actions: its address is exhausted for ["api"]. *)
Definition exhaustedClient : Manager.t :=
  after
    (Manager.bind (Manager.addCircuit [("host", VStr "proxy-a")]) (fun _ =>
     Manager.bind (Manager.addCircuit [("host", VStr "proxy-b")]) (fun _ =>
     Manager.bind (Manager.createClient 1 (Manager.ByIndex 0)) (fun k =>
     Manager.bind (Manager.Client.reportNewAction k (Some "api")) (fun _ =>
     Manager.Client.reportNewAction k (Some "api"))))))
    (withApi calm).

(** One local tor circuit, nothing else. *)
Definition torOnly : Manager.t :=
  after (Manager.addCircuit [("isLocalTor", VBool true)]) (withApi calm).

(** One cycling proxy whose exit is the blacklisted address. *)
Definition blacklistedExit : Manager.t :=
  after (Manager.addCircuit [("host", VStr "proxy-a")]) (withApi hostile).

(** One cycling proxy, its address tracked for ["api"] only. *)
Definition oneProxy : Manager.t :=
  after (Manager.addCircuit [("host", VStr "proxy-a")]) (withApi calm).

(** [oneProxy] in the middle of a change, with three callers parked on the
    waiter queue in the order they arrived. *)
Definition threeWaiting : Manager.t :=
  after (Manager.changeIPIfNecessary 0%nat (Some "api"))
    (after (Manager.forceIPChangeImmediately (Some 0%nat))
       (after (Manager.changeIPIfNecessary 0%nat (Some "api"))
          (Manager.set_isCurrentlyChanging true oneProxy))).

(** The definition of a rigid circuit named ["login"], and a manager that
    has registered it. *)
Definition loginDetails : JsObj JsVal :=
  [ ("name", VStr "login"); ("host", VStr "proxy-l"); ("port", VNum 7777);
    ("addToCyclingCircuitPool", VBool false) ].

Definition rigidOnly : Manager.t :=
  after (Manager.addCircuit loginDetails) (withApi calm).

(** The same as [calm], but probes see [10.0.0.1] up to the sixth question
    and [10.0.0.2] from then on. *)
Definition moving : Manager.World :=
  Manager.MakeWorld
    (Manager.clock calm) (Manager.random calm)
    (fun k => if (k <? 6)%nat then "10.0.0.1" else "10.0.0.2")
    (Manager.psLookup calm) (Manager.psKill calm) (Manager.writeFile calm)
    (Manager.looseZero calm).

(** The ambiguous window. A proxy is added and found on [10.0.0.0] at time
    2000; three actions are reported on it, at 3000, 4000 and 5000. The
    next probe through it will see [10.0.0.5]. *)
Definition threeAmbiguous : Manager.t :=
  after
    (Manager.bind (Manager.reportNewAction (Some "api") 0%nat) (fun _ =>
     Manager.bind (Manager.reportNewAction (Some "api") 0%nat) (fun _ =>
     Manager.reportNewAction (Some "api") 0%nat)))
    oneProxy.

(** An action before the last poll and two after it. A proxy is found on
    [10.0.0.1] at time 2000; an action is reported at 3000; the poller takes
    a turn at 5000 and sees the same address; two more actions are reported,
    at 6000 and 7000; the next turn of the poller will see [10.0.0.2]. *)
Definition oneSettledTwoAmbiguous : Manager.t :=
  after
    (Manager.bind (Manager.reportNewAction (Some "api") 0%nat) (fun _ =>
     Manager.reportNewAction (Some "api") 0%nat))
    (after (Manager._startPoller 1 0%nat)
       (after (Manager.reportNewAction (Some "api") 0%nat)
          (after (Manager.addCircuit [("host", VStr "proxy-a")])
             (withApi moving)))).

(** Two cycling proxies, the first of which has lost its health to eight
    failed polls. *)
Definition sickFirst : Manager.t :=
  after
    (Manager.bind (Manager.addCircuit [("host", VStr "proxy-a")]) (fun _ =>
     Manager.bind (Manager.addCircuit [("host", VStr "proxy-b")]) (fun _ =>
     Manager.forEach [1; 2; 3; 4; 5; 6; 7; 8] (fun _ =>
       Manager.updateCircuit 0%nat (ProxyCircuit.degradeHealth 10)))))
    (withApi calm).

(** One action, ["burst"], limited to two in any 2500 ms, a proxy found on
    [10.0.0.0], and three actions reported through it, at 3000, 4000 and
    5000. The clock will read 6000 and 7000 next. *)
Definition threeBursts : Manager.t :=
  after
    (Manager.bind (Manager.addRateLimitActionKey "burst" (Some 2) (Some 2500)) (fun _ =>
     Manager.bind (Manager.addCircuit [("host", VStr "proxy-a")]) (fun _ =>
     Manager.bind (Manager.reportNewAction (Some "burst") 0%nat) (fun _ =>
     Manager.bind (Manager.reportNewAction (Some "burst") 0%nat) (fun _ =>
     Manager.reportNewAction (Some "burst") 0%nat)))))
    (fresh calm).

(** [oneProxy] with 501 more addresses in its rate store, each with the
    entry a new address starts with and no action since. *)
Definition crowded : Manager.t :=
  Manager.set_reqStats
    (Manager.reqStats oneProxy
     ++ map (fun k => ("172.16.0." +:+ numToString (Z.of_nat k), [("api", [])]))
          (seq 0 501))
    oneProxy.

(** [sickFirst] once the second proxy has lost its health as well. *)
Definition bothSick : Manager.t :=
  after (Manager.updateCircuit 1%nat (ProxyCircuit.degradeHealth 90)) sickFirst.

(** The same as [calm], but every kill is answered without an error. *)
Definition obedient : Manager.World :=
  Manager.MakeWorld
    (Manager.clock calm) (Manager.random calm) (Manager.probe calm)
    (Manager.psLookup calm) (fun _ => None) (Manager.writeFile calm)
    (Manager.looseZero calm).

(** A cycling proxy and a local tor that clients reach by name only: the
    pool has no tor circuit. *)
Definition torByName (w : Manager.World) : Manager.t :=
  after
    (Manager.bind (Manager.addCircuit [("host", VStr "proxy-a")]) (fun _ =>
     Manager.addCircuit
       [ ("name", VStr "onion"); ("isLocalTor", VBool true);
         ("addToCyclingCircuitPool", VBool false) ]))
    (withApi w).

(** The same as [moving], but the cache file cannot be written. *)
Definition diskFull : Manager.World :=
  Manager.MakeWorld
    (Manager.clock moving) (Manager.random moving) (Manager.probe moving)
    (Manager.psLookup moving) (Manager.psKill moving)
    (fun _ => Some "Error: ENOSPC: no space left on device, write")
    (Manager.looseZero moving).

(** A proxy found on [10.0.0.1], one action reported through it, and a
    caller parked since; the next probe will see [10.0.0.2]. *)
Definition aboutToMove : Manager.t :=
  Manager.set_pendingCallbacks [5%nat]
    (after
       (Manager.bind (Manager.addCircuit [("host", VStr "proxy-a")]) (fun _ =>
        Manager.bind (Manager.reportNewAction (Some "api") 0%nat) (fun _ =>
        Manager.forEach [1; 2; 3] (fun _ =>
          Manager.bind (Manager.ask Manager.clock) (fun _ => Manager.ret tt)))))
       (withApi diskFull)).

(** The same as [calm], but the exit does not move: every probe sees
    [10.0.0.1]. *)
Definition stuck : Manager.World :=
  Manager.MakeWorld
    (Manager.clock calm) (Manager.random calm)
    (fun _ => "10.0.0.1")
    (Manager.psLookup calm) (Manager.psKill calm) (Manager.writeFile calm)
    (Manager.looseZero calm).

(** A local tor in that world, under a global object that has a property
    [actualExitIP], still [null]. *)
Definition stuckTor : Manager.t :=
  Manager.set_globalScope [("actualExitIP", None)]
    (after (Manager.addCircuit [("isLocalTor", VBool true)]) (withApi stuck)).

End Scenario.

(* ================================================================== *)
(** * Vocabulary of the statements                                     *)
(* ================================================================== *)

Import Manager.
Import Scenario.

(** How a run ends when it does not return. *)
Definition exitOf {A} (o : Outcome A) : option (Fault + Halt) :=
  match o with
  | Ret _ => None
  | Raise f => Some (inl f)
  | NoReturn h => Some (inr h)
  end.

(** [respects R E m]: every run of [m] takes a state to an [R]-related one,
    and ends, if not with a value, in a way [E] allows. *)
Definition respects {A} (R : relation Manager.t) (E : Fault + Halt -> Prop)
  (m : M A) : Prop :=
  forall s, R s (snd (m s)) /\ forall e, exitOf (fst (m s)) = Some e -> E e.

(** Equality on one component of the state. *)
Definition keeps {X} (p : Manager.t -> X) : relation Manager.t :=
  fun s s' => p s' = p s.

Definition anyState : relation Manager.t := fun _ _ => True.

Definition anyExit : Fault + Halt -> Prop := fun _ => True.

(** The series the store holds for an address and an action. *)
Definition seriesOf (s : Manager.t) (ip actionName : string) : option (list Z) :=
  match get ip (reqStats s) with
  | Some ipStats => get actionName ipStats
  | None => None
  end.

(** Two states whose stores have a series for the same pairs of address and
    action, and which agree on the action catalogue and the blacklist. *)
Definition sameSeriesDomain (s s' : Manager.t) : Prop :=
  (forall ip a, seriesOf s' ip a = None <-> seriesOf s ip a = None)
  /\ actionResetTimes s' = actionResetTimes s
  /\ actionLimits s' = actionLimits s
  /\ blacklistedIPs s' = blacklistedIPs s.

(** The part of the state compaction of the rate store has no business with:
    the circuit objects, the gate, the waiters and the tick queue. *)
Definition control (s : Manager.t) :=
  (circuitStore s, isCurrentlyChanging s, pendingCallbacks s, nextTicks s).

(** The state in which [_onChangedIP] looks at the size of the store: the
    new address has its entry, the gate is down, and the circuit [c] at
    [circuit] carries the new address and the time just read. *)
Definition stamped (circuit : CircuitRef) (newIp : option string)
  (c : ProxyCircuit.t) (s : Manager.t) : Manager.t :=
  let s1 := after (_initializeIPDataIfNotInitialized (propKey newIp)) s in
  set_circuitStore
    (<[circuit := ProxyCircuit.with_exit newIp (clock (world s) (asked s)) c]>
       (circuitStore s1))
    (set_asked (S (asked s1)) (set_isCurrentlyChanging false s1)).

(** Exits other than the failure for a duplicate circuit. *)
Definition notDuplicate (e : Fault + Halt) : Prop :=
  e <> inl (Die DuplicateCircuit).

(** [addCircuit] past its test for a duplicate: the statements that follow
    it, for the new object [c] at address [circuit]. *)
Definition enrolCircuit (circuit : CircuitRef) (c : ProxyCircuit.t) : M unit :=
  (if ProxyCircuit.isLocalTor c then _startTorIfNotStarted ;;; ret tt else ret tt) ;;;
  extIp <- _getExternalIP circuit ;;
  _onChangedIP circuit (Some extIp) ;;;
  (if ProxyCircuit.addToCyclingCircuitPool c
   then modify (fun s => set_circuits (circuits s ++ [circuit]) s)
   else
     if truthy_str (ProxyCircuit.name c)
     then modify (fun s =>
            set_namedCircuits
              (set (propKey (ProxyCircuit.name c)) circuit (namedCircuits s)) s)
     else raise (Die UnnamedRigidCircuit)) ;;;
  pollingClient <- newClient (MakeClient (StrId "POLLER") (Some circuit) true) ;;
  updateCircuit circuit (ProxyCircuit.setPollingClient (Some pollingClient)).

(** [_removeCircuit] once the circuit is marked and read back: the
    statements that follow, for the object [c] at address [circuit]. *)
Definition dropCircuit (fuel : nat) (circuit : CircuitRef) (c : ProxyCircuit.t)
  : M CircuitRef :=
  (if ProxyCircuit.addToCyclingCircuitPool c
   then modify (fun s =>
          set_namedCircuits (del (propKey (ProxyCircuit.name c)) (namedCircuits s)) s)
   else
     pool <- gets circuits ;;
     match indexOf pool circuit with
     | None => raise (Die CircuitNotInPool)
     | Some index => modify (set_circuits (delete index pool))
     end) ;;;
  tracked <- gets clients ;;
  forEach tracked (fun k =>
    client <- readClient k ;;
    if bool_decide (Manager.circuit client = Some circuit)
    then Client._changeToRandomCircuit fuel k
    else ret tt) ;;;
  (if ProxyCircuit.isLocalTor c
   then
     pool <- gets circuits ;;
     torCircuits <- filterM (fun r =>
                      c' <- readCircuit r ;; ret (ProxyCircuit.isLocalTor c')) pool ;;
     if (length torCircuits =? 0)%nat then _killAllTorProcesses ;;; ret tt
     else ret tt
   else ret tt) ;;;
  ret circuit.

(** What preening at time [now] leaves of the series of an action: the
    series without its expired head if the action has a window, the series
    itself if it has none. *)
Definition preened (s : Manager.t) (now : Z) (actionName : string)
  (series : list Z) : list Z :=
  match get actionName (actionResetTimes s) with
  | Some window => shiftExpired now window series
  | None => series
  end.

(** The entry of an address has a series for every action with a window. *)
Definition hasEverySeries (s : Manager.t) (ip : string) : Prop :=
  forall a, In a (keys (actionResetTimes s)) -> seriesOf s ip a <> None.

(** Every address in the pool names a circuit object. *)
Definition poolIsStored (s : Manager.t) : Prop :=
  forall r, In r (circuits s) -> is_Some (circuitStore s !! r).

(** A caller of one of the two entry points of the manager for a change of
    address, and its call, run as a task of its own. *)
Inductive Caller :=
| ChangeIfNecessary (circuit : CircuitRef) (actionName : option string)
| ForceChange (circuit : CircuitRef).

Definition call (c : Caller) : M unit :=
  match c with
  | ChangeIfNecessary circuit actionName =>
      Manager.changeIPIfNecessary circuit actionName ;;; ret tt
  | ForceChange circuit =>
      Manager.forceIPChangeImmediately (Some circuit) ;;; ret tt
  end.

(** Callers arriving one after the other: how the call of each ended, and
    the state they leave behind. *)
Fixpoint arrive (callers : list Caller) (s : Manager.t)
  : list (option (Fault + Halt)) * Manager.t :=
  match callers with
  | [] => ([], s)
  | c :: rest =>
      let (o, s1) := call c s in
      let (ends, s') := arrive rest s1 in
      (exitOf o :: ends, s')
  end.

(** The polling clients of one state are those of the other, bound as they
    were. *)
Definition pollersStay : relation Manager.t :=
  fun s s' =>
    forall k cl,
      clientStore s !! k = Some cl -> isPollingClient cl = true ->
      clientStore s' !! k = Some cl.

(** Exits other than a thrown error: the faults [DIE] and the runtime
    raise, and the ways of not returning. *)
Definition notThrown (e : Fault + Halt) : Prop :=
  forall err, e <> inl (Thrown err).

(** The texts a regular expression stands for. *)
Inductive Matches : IPCheckRequest.Regex -> string -> Prop :=
| Matches_digit (c : ascii) :
    IPCheckRequest.isDigit c = true ->
    Matches IPCheckRequest.Digit (String c "")
| Matches_char (c : ascii) :
    Matches (IPCheckRequest.Char c) (String c "")
| Matches_seq (r1 r2 : IPCheckRequest.Regex) (m1 m2 : string) :
    Matches r1 m1 -> Matches r2 m2 ->
    Matches (IPCheckRequest.Seq r1 r2) (m1 +:+ m2)
| Matches_stop (r : IPCheckRequest.Regex) (max : nat) :
    Matches (IPCheckRequest.Repeat r 0 max) ""
| Matches_turn (r : IPCheckRequest.Regex) (min max : nat) (m1 m2 : string) :
    Matches r m1 ->
    Matches (IPCheckRequest.Repeat r (pred min) max) m2 ->
    Matches (IPCheckRequest.Repeat r min (S max)) (m1 +:+ m2).

(** One to three decimal digits, and four such groups with dots between
    them. No group is held to the range of an octet. *)
Fixpoint allDigits (t : string) : bool :=
  match t with
  | EmptyString => true
  | String c t' => IPCheckRequest.isDigit c && allDigits t'
  end.

Definition isGroup (t : string) : Prop :=
  allDigits t = true /\ (1 <= String.length t <= 3)%nat.

Definition isDottedQuad (q : string) : Prop :=
  exists a b c d,
    q = a +:+ "." +:+ b +:+ "." +:+ c +:+ "." +:+ d
    /\ isGroup a /\ isGroup b /\ isGroup c /\ isGroup d.

(** [m] occurs in [s] after [before] characters. *)
Definition occursAt (before : nat) (m s : string) : Prop :=
  exists pre post, s = pre +:+ m +:+ post /\ String.length pre = before.

(** The polling client of a circuit, if it has one, is a polling client
    bound to that circuit, as [addCircuit] leaves it. *)
Definition pollerIsBound (s : Manager.t) (circuit : CircuitRef) : Prop :=
  exists c,
    circuitStore s !! circuit = Some c
    /\ forall k,
         ProxyCircuit.pollingClient c = Some k ->
         exists proxyClient,
           clientStore s !! k = Some proxyClient
           /\ isPollingClient proxyClient = true
           /\ Manager.circuit proxyClient = Some circuit.

(** [n] rounds of SIGHUP to the processes [pids]. *)
Definition sighupRounds (n : nat) (pids : list Z) : list Effect :=
  concat (replicate n (map Sighup pids)).

(* ================================================================== *)
(** * Properties                                                       *)
(* ================================================================== *)

(** ** Property lists *)

Lemma get_set_eq {V} (k : string) (v : V) (o : JsObj V) :
  get k (set k v o) = Some v.
Proof.
  induction o as [|[k' v'] o IH]; simpl.
  - now rewrite String.eqb_refl.
  - destruct (String.eqb k k') eqn:E; simpl; rewrite E; auto.
Qed.

Lemma get_set_ne {V} (k k' : string) (v : V) (o : JsObj V) :
  k <> k' -> get k (set k' v o) = get k o.
Proof.
  intros Hne. induction o as [|[k0 v0] o IH]; simpl.
  - destruct (String.eqb_spec k k'); congruence.
  - destruct (String.eqb_spec k' k0) as [->|Hk0]; simpl.
    + destruct (String.eqb_spec k k0); [congruence|reflexivity].
    + destruct (String.eqb k k0); auto.
Qed.

Lemma get_set {V} (k k' : string) (v : V) (o : JsObj V) :
  get k (set k' v o) = if String.eqb k k' then Some v else get k o.
Proof.
  destruct (String.eqb_spec k k') as [->|Hne].
  - apply get_set_eq.
  - now apply get_set_ne.
Qed.

Lemma get_in_keys {V} (k : string) (o : JsObj V) :
  get k o <> None <-> In k (keys o).
Proof.
  induction o as [|[k' v'] o IH]; simpl; [tauto|].
  destruct (String.eqb_spec k k') as [->|Hne].
  - split; [auto|congruence].
  - rewrite IH. split; [auto|]. intros [E|H]; [congruence|exact H].
Qed.

(** [Object.assign] leaves a property alone that its source does not have. *)
Lemma get_assign_absent {V} (k : string) (target src : JsObj V) :
  get k src = None -> get k (assign target src) = get k target.
Proof.
  unfold assign. revert target.
  induction src as [|[k' v'] src IH]; intros target; simpl; [reflexivity|].
  destruct (String.eqb_spec k k') as [->|Hne]; [discriminate|].
  intros H. rewrite IH by exact H. now apply get_set_ne.
Qed.

(** ** Reasoning about manager code *)

#[global] Instance keeps_preorder {X} (p : Manager.t -> X) : PreOrder (keeps p).
Proof.
  split.
  - intros s. reflexivity.
  - intros s1 s2 s3 H12 H23. unfold keeps in *. congruence.
Qed.

#[global] Instance anyState_preorder : PreOrder anyState.
Proof. split; [intros s|intros s1 s2 s3 _ _]; exact I. Qed.

Section Respects.

Context (R : relation Manager.t) `{!PreOrder R} (E : Fault + Halt -> Prop).

Lemma respects_ret {A} (a : A) : respects R E (ret a).
Proof. intros s; split; [reflexivity|discriminate]. Qed.

Lemma respects_gets {A} (f : Manager.t -> A) : respects R E (gets f).
Proof. intros s; split; [reflexivity|discriminate]. Qed.

Lemma respects_raise {A} (f : Fault) : E (inl f) -> respects R E (@raise A f).
Proof. intros Hf s; split; [reflexivity|]. now intros e [= <-]. Qed.

Lemma respects_halt {A} (h : Halt) : E (inr h) -> respects R E (@halt A h).
Proof. intros Hh s; split; [reflexivity|]. now intros e [= <-]. Qed.

Lemma respects_modify (f : Manager.t -> Manager.t) :
  (forall s, R s (f s)) -> respects R E (modify f).
Proof. intros Hf s; split; [apply Hf|discriminate]. Qed.

Lemma respects_bind {A B} (m : M A) (k : A -> M B) :
  respects R E m -> (forall a, respects R E (k a)) -> respects R E (bind m k).
Proof.
  intros Hm Hk s. unfold bind.
  destruct (Hm s) as [HR HE].
  destruct (m s) as [[a|f|h] s1]; simpl in *.
  - destruct (Hk a s1) as [HR' HE']. split; [|exact HE'].
    now transitivity s1.
  - split; [exact HR|exact HE].
  - split; [exact HR|exact HE].
Qed.

Lemma respects_forEach {A} (l : list A) (f : A -> M unit) :
  (forall x, respects R E (f x)) -> respects R E (forEach l f).
Proof.
  intros Hf. induction l as [|x l IH]; simpl.
  - apply respects_ret.
  - apply respects_bind; [apply Hf|intros _; exact IH].
Qed.

Lemma respects_mapM {A B} (f : A -> M B) (l : list A) :
  (forall x, respects R E (f x)) -> respects R E (mapM f l).
Proof.
  intros Hf. induction l as [|x l IH]; simpl.
  - apply respects_ret.
  - apply respects_bind; [apply Hf|intros y].
    apply respects_bind; [exact IH|intros ys; apply respects_ret].
Qed.

Lemma respects_filterM {A} (p : A -> M bool) (l : list A) :
  (forall x, respects R E (p x)) -> respects R E (filterM p l).
Proof.
  intros Hp. induction l as [|x l IH]; simpl.
  - apply respects_ret.
  - apply respects_bind; [apply Hp|intros b].
    apply respects_bind; [exact IH|intros ys; apply respects_ret].
Qed.

End Respects.

Create HintDb respects.
Create HintDb manager.

Ltac solve_preorder :=
  lazymatch goal with
  | |- PreOrder _ => typeclasses eauto
  | |- _ => idtac
  end.

(** The structure of a computation, taken apart one constructor at a time;
    [side] closes what is asked of [R] and [E] at the leaves. *)
Ltac respects_step side :=
  lazymatch goal with
  | |- respects _ _ (bind _ _) =>
      (apply respects_bind; solve_preorder); [|intros ?]
  | |- respects _ _ (ret _) => apply respects_ret; solve_preorder
  | |- respects _ _ (gets _) => apply respects_gets; solve_preorder
  | |- respects _ _ (raise _) => apply respects_raise; solve_preorder; side
  | |- respects _ _ (halt _) => apply respects_halt; solve_preorder; side
  | |- respects _ _ (modify _) =>
      apply respects_modify; solve_preorder; intros ?; side
  | |- respects _ _ (forEach _ _) =>
      apply respects_forEach; solve_preorder; intros ?
  | |- respects _ _ (mapM _ _) => apply respects_mapM; solve_preorder; intros ?
  | |- respects _ _ (filterM _ _) =>
      apply respects_filterM; solve_preorder; intros ?
  | |- respects _ _ (match ?x with _ => _ end) => destruct x
  | |- respects _ _ (let _ := _ in _) => cbv zeta
  end.

(** The primitive operations, by running them. *)
Ltac respects_prim side :=
  let s := fresh "s" in
  intros s;
  unfold updateCircuit;
  unfold ask, log, readCircuit, readClient, writeClient,
    newCircuit, newClient, awaitPendingCallback, readGlobal, writeGlobal,
    bind, modify;
  simpl;
  repeat (case_match; simpl);
  (split; [side | let e := fresh "e" in intros e; try discriminate;
                   intros [= <-]; side]).

Ltac respects_with side :=
  repeat first
    [ respects_step side
    | assumption
    | solve [eauto with respects]
    | progress autounfold with manager
    | solve [respects_prim side] ].

#[global] Hint Unfold
  addRateLimitActionKey _initializeIPDataIfNotInitialized reportNewAction
  preenAction _preenOldRequestsForIP _isIPAvailableForRequests
  _shouldPreenIPData circuit_getCurrentIP freeOldIP freeOldIPData
  _writeOutCache _onChangedIP copyAmbiguous _onUnrequestedIPChange
  poolObjects _hasCircuit areAllCircuitsUnhealthy onAllCircuitsUnhealthy
  _getRandomCircuit _getListOfTorProcesses _checkIfTorIsRunning
  _startTorIfNotStarted _killAllTorProcesses _changeExitNode _getExternalIP
  _definitivelyChangeToAvailableIP Manager.changeIPIfNecessary
  Manager.forceIPChangeImmediately forceRestartTorImmediately
  Client.boundCircuit Client.getCurrentIP Client._changeToRandomCircuit
  Client.forceIPChangeImmediately Client.changeIPIfNecessary
  Client.reportNewAction : manager.

(** Leaves for [keeps p] with any exit allowed. *)
Ltac keeps_side :=
  first [ exact I | reflexivity | (unfold keeps; simpl; reflexivity) ].

(** Running a computation whose first step is known. *)
Lemma run_bind {A B} (m : M A) (k : A -> M B) (s s' : Manager.t) (a : A) :
  m s = (Ret a, s') -> bind m k s = k a s'.
Proof. intros H. unfold bind. now rewrite H. Qed.

(** Reading the pool, when its addresses name the objects [objs]. *)
Lemma mapM_readCircuit_objs
  (l : list CircuitRef) (objs : list ProxyCircuit.t) (s : Manager.t) :
  Forall2 (fun r c => circuitStore s !! r = Some c) l objs ->
  mapM readCircuit l s = (Ret objs, s).
Proof.
  induction 1 as [|r c l objs Hc _ IH]; simpl; [reflexivity|].
  unfold bind. unfold readCircuit at 1. rewrite Hc. now rewrite IH.
Qed.

(** Reading the pool: every address in it names an object. *)
Lemma mapM_readCircuit (l : list CircuitRef) (s : Manager.t) :
  (forall r, In r l -> is_Some (circuitStore s !! r)) ->
  exists objs,
    mapM readCircuit l s = (Ret objs, s)
    /\ Forall2 (fun r c => circuitStore s !! r = Some c) l objs.
Proof.
  induction l as [|r l IH]; intros Hwf; simpl.
  - exists []. split; [reflexivity|constructor].
  - destruct (Hwf r) as [c Hc]; [now left|].
    destruct IH as (objs & Hrun & Hall); [intros r' Hr'; apply Hwf; now right|].
    exists (c :: objs). split; [|now constructor].
    unfold bind. unfold readCircuit at 1. rewrite Hc. now rewrite Hrun.
Qed.

(** ** The circuit constructor *)

(** C9. Built without an explicit [poll_wait_interval], a circuit ends with
    [poll_wait_interval = null], whether or not it is a local tor circuit:
    the interval computed first (on an object that has no [isLocalTor] yet)
    is overwritten by the [null] of [circuitDefaults]. The documented
    defaults, 5000 for tor and 120000 otherwise, are not what results. *)
Theorem poll_wait_interval_default_is_null (args : JsObj JsVal) :
  get "poll_wait_interval" args = None ->
  get "poll_wait_interval" (ProxyCircuit.constructor args) = Some VNull
  /\ ProxyCircuit.poll_wait_interval (ProxyCircuit.new args) = None.
Proof.
  intros Habsent.
  assert (get "poll_wait_interval" (ProxyCircuit.constructor args) = Some VNull)
    as Hnull.
  { unfold ProxyCircuit.constructor.
    rewrite get_set_ne by discriminate. now rewrite get_assign_absent. }
  split; [exact Hnull|].
  unfold ProxyCircuit.new, ProxyCircuit.ofObject, ProxyCircuit.optNumField; simpl.
  now rewrite Hnull.
Qed.

Lemma poll_wait_interval_default_is_null_witness :
  ProxyCircuit.isLocalTor (ProxyCircuit.new [("isLocalTor", VBool true)]) = true
  /\ ProxyCircuit.poll_wait_interval
       (ProxyCircuit.new [("isLocalTor", VBool true)]) = None
  /\ ProxyCircuit.isLocalTor (ProxyCircuit.new []) = false
  /\ ProxyCircuit.poll_wait_interval (ProxyCircuit.new []) = None.
Proof.
  split; [reflexivity|]. split.
  - apply (poll_wait_interval_default_is_null [("isLocalTor", VBool true)]).
    reflexivity.
  - split; [reflexivity|].
    apply (poll_wait_interval_default_is_null []). reflexivity.
Defined.

(** ** Availability of an address *)

(** C2, as the code has it. For a blacklisted address, whatever the action
    and whatever the series recorded: [_isIPAvailableForRequests] answers
    [false] when the address has an entry in the rate store and [true] when it
    has none (the test for a fresh address comes first); the state is left as
    it was. *)
Theorem blacklisted_available_iff_untracked
  (s : Manager.t) (ip : string) (actionName : option string) :
  get ip (blacklistedIPs s) = Some true ->
  _isIPAvailableForRequests ip actionName s
  = (Ret (negb (has ip (reqStats s))), s).
Proof.
  intros Hblack.
  unfold _isIPAvailableForRequests, bind, gets, has; simpl.
  destruct (get ip (reqStats s)) as [entry|]; simpl.
  - now rewrite Hblack.
  - reflexivity.
Qed.

Lemma blacklisted_available_iff_untracked_witness :
  get "163.172.67.180" (reqStats blacklistedExit) = Some [("api", [])]
  /\ _isIPAvailableForRequests "163.172.67.180" (Some "api") blacklistedExit
     = (Ret false, blacklistedExit).
Proof.
  split; [vm_compute; reflexivity|].
  apply (blacklisted_available_iff_untracked blacklistedExit "163.172.67.180"
           (Some "api")).
  vm_compute; reflexivity.
Defined.

(** C2 as stated fails: a blacklisted address that was never tracked is
    reported available for a registered action. *)
Lemma blacklisted_fresh_ip_is_available :
  get "163.172.67.180" (blacklistedIPs (withApi calm)) = Some true
  /\ has "api" (actionLimits (withApi calm)) = true
  /\ get "163.172.67.180" (reqStats (withApi calm)) = None
  /\ outcome (_isIPAvailableForRequests "163.172.67.180" (Some "api"))
       (withApi calm) = Ret true.
Proof. repeat split; vm_compute; reflexivity. Qed.

(** ** Preening and the series it expects *)

#[global] Instance sameSeriesDomain_preorder : PreOrder sameSeriesDomain.
Proof.
  split.
  - intros s. split; [tauto|auto].
  - intros s1 s2 s3 (H1 & H2 & H3 & H4) (H1' & H2' & H3' & H4').
    split; [|split; [|split]; congruence].
    intros ip a. rewrite H1'. apply H1.
Qed.

Lemma preenAction_present (ip : string) (now : Z) (a : string) (s : Manager.t) :
  seriesOf s ip a <> None ->
  exists s', preenAction ip now a s = (Ret tt, s') /\ sameSeriesDomain s s'.
Proof.
  unfold seriesOf, preenAction, bind, gets, modify; simpl.
  destruct (get ip (reqStats s)) as [ipStats|] eqn:Hip; [|congruence].
  destruct (get a ipStats) as [series|] eqn:Ha; [intros _|congruence].
  eexists; split; [reflexivity|].
  split; [|simpl; auto].
  intros ip0 a0. unfold seriesOf; simpl. rewrite get_set.
  destruct (String.eqb_spec ip0 ip) as [->|Hne]; [|reflexivity].
  rewrite Hip, get_set.
  destruct (String.eqb_spec a0 a) as [->|Hne']; [|reflexivity].
  rewrite Ha. split; discriminate.
Qed.

Lemma preenAction_absent (ip : string) (now : Z) (a : string) (s : Manager.t) :
  seriesOf s ip a = None ->
  exists msg, preenAction ip now a s = (Raise (TypeError msg), s).
Proof.
  unfold seriesOf, preenAction, bind, gets, modify; simpl.
  destruct (get ip (reqStats s)) as [ipStats|] eqn:Hip.
  - intros ->. eexists; reflexivity.
  - intros _. eexists; reflexivity.
Qed.

Lemma preenLoop_present (ip : string) (now : Z) (l : list string) (s : Manager.t) :
  Forall (fun a => seriesOf s ip a <> None) l ->
  exists s', forEach l (preenAction ip now) s = (Ret tt, s')
             /\ sameSeriesDomain s s'.
Proof.
  revert s. induction l as [|a l IH]; intros s Hall; simpl.
  - exists s. split; [reflexivity|reflexivity].
  - inversion Hall as [|? ? Ha Hl]; subst.
    destruct (preenAction_present ip now a s Ha) as (s1 & Hrun & Hdom).
    destruct (IH s1) as (s2 & Hrun2 & Hdom2).
    { eapply Forall_impl; [exact Hl|]. intros a' Ha'; simpl in *.
      intros Hn. apply Ha'. now apply Hdom. }
    exists s2. split.
    + unfold bind. now rewrite Hrun.
    + now transitivity s1.
Qed.

Lemma preenLoop_absent (ip : string) (now : Z) (l : list string) (s : Manager.t) :
  Exists (fun a => seriesOf s ip a = None) l ->
  exists msg s', forEach l (preenAction ip now) s = (Raise (TypeError msg), s').
Proof.
  revert s. induction l as [|a l IH]; intros s Hex; simpl.
  - inversion Hex.
  - destruct (seriesOf s ip a) as [series|] eqn:Ha.
    + destruct (preenAction_present ip now a s) as (s1 & Hrun & Hdom);
        [congruence|].
      destruct (IH s1) as (msg & s2 & Hrun2).
      { inversion Hex as [? ? Hhd|? ? Htl]; subst; [congruence|].
        eapply Exists_impl; [exact Htl|]. intros a' Ha'; simpl in *.
        now apply Hdom. }
      exists msg, s2. unfold bind. now rewrite Hrun.
    + destruct (preenAction_absent ip now a s Ha) as (msg & Hrun).
      exists msg, s. unfold bind. now rewrite Hrun.
Qed.

Lemma present_or_absent (s : Manager.t) (ip : string) (l : list string) :
  Forall (fun a => seriesOf s ip a <> None) l
  \/ Exists (fun a => seriesOf s ip a = None) l.
Proof.
  induction l as [|a l IH]; [left; constructor|].
  destruct (seriesOf s ip a) as [series|] eqn:Ha.
  - destruct IH as [Hall|Hex].
    + left. constructor; [congruence|exact Hall].
    + right. now apply Exists_cons_tl.
  - right. now apply Exists_cons_hd.
Qed.

(** The precondition of [_preenOldRequestsForIP]: it returns exactly when the
    store has a series for [ip] and every action with a registered window;
    otherwise it ends with a TypeError. *)
Lemma preen_returns_iff (ip : string) (s : Manager.t) :
  ((exists s', _preenOldRequestsForIP ip s = (Ret tt, s'))
   <-> forall a, In a (keys (actionResetTimes s)) -> seriesOf s ip a <> None)
  /\ ((exists s', _preenOldRequestsForIP ip s = (Ret tt, s'))
      \/ exists msg s', _preenOldRequestsForIP ip s = (Raise (TypeError msg), s')).
Proof.
  unfold _preenOldRequestsForIP, bind, ask, gets; simpl.
  set (s1 := set_asked (S (asked s)) s).
  set (now := clock (world s) (asked s)).
  change (actionResetTimes s) with (actionResetTimes s1).
  assert (forall a, seriesOf s ip a = seriesOf s1 ip a) as Hs1 by reflexivity.
  destruct (present_or_absent s1 ip (keys (actionResetTimes s1))) as [Hall|Hex].
  - destruct (preenLoop_present ip now _ s1 Hall) as (s' & Hrun & _).
    split; [|left; eauto].
    split; [intros _|intros _; eauto].
    rewrite List.Forall_forall in Hall. intros a Hin. rewrite Hs1. now apply Hall.
  - destruct (preenLoop_absent ip now _ s1 Hex) as (msg & s' & Hrun).
    split; [|right; eauto].
    split.
    + intros (s'' & Hret). rewrite Hrun in Hret. discriminate.
    + intros Hall. exfalso. rewrite List.Exists_exists in Hex.
      destruct Hex as (a & Hin & Hnot). apply (Hall a Hin). now rewrite Hs1.
Qed.

Lemma emptySeries_fold (a : string) (ks : list string) (o : JsObj (list Z)) :
  get a (fold_left (fun actionArrays actionName => set actionName [] actionArrays)
           ks o)
  = if existsb (String.eqb a) ks then Some [] else get a o.
Proof.
  revert o. induction ks as [|k ks IH]; intros o; simpl; [reflexivity|].
  rewrite IH, get_set.
  destruct (String.eqb a k); simpl; [|reflexivity].
  now destruct (existsb (String.eqb a) ks).
Qed.

Lemma existsb_keys {V} (a : string) (o : JsObj V) :
  existsb (String.eqb a) (keys o) = has a o.
Proof.
  unfold has. induction o as [|[k v] o IH]; simpl; [reflexivity|].
  destruct (String.eqb a k); simpl; [reflexivity|exact IH].
Qed.

(** [_initializeIPDataIfNotInitialized] gives a new address a series for the
    actions registered at that moment, and for no other. *)
Lemma initialize_creates_registered_series (ip : string) (s : Manager.t) :
  get ip (reqStats s) = None ->
  forall a,
    seriesOf (after (_initializeIPDataIfNotInitialized ip) s) ip a
    = if has a (actionLimits s) then Some [] else None.
Proof.
  intros Hnew a.
  unfold after, _initializeIPDataIfNotInitialized, modify, seriesOf; simpl.
  rewrite Hnew; simpl. rewrite get_set_eq.
  unfold emptySeries. now rewrite emptySeries_fold, existsb_keys.
Qed.

(** Past the tests for a fresh and for a blacklisted address,
    [_isIPAvailableForRequests] starts by preening. *)
Lemma available_when_preen_faults
  (s s'' : Manager.t) (ip a : string) (f : Fault) :
  get ip (reqStats s) <> None ->
  default false (get ip (blacklistedIPs s)) = false ->
  _preenOldRequestsForIP ip s = (Raise f, s'') ->
  _isIPAvailableForRequests ip (Some a) s = (Raise f, s'').
Proof.
  intros Htracked Hblack Hrun.
  cbv beta iota delta [_isIPAvailableForRequests bind gets].
  destruct (get ip (reqStats s)); [|congruence].
  rewrite Hblack. now rewrite Hrun.
Qed.

(** C10, as the code has it. Once an address has an entry, registering an
    action for which the entry has no series leaves the entry without one,
    and from then on: [_preenOldRequestsForIP] on that address ends with a
    TypeError; [_isIPAvailableForRequests] on it, for any action, ends with a
    TypeError too unless the address is blacklisted, in which case it answers
    [false] without looking at the series. This is for an address and an
    action that are not named like a property of [Object.prototype]: under
    such a name the entry, and the blacklist, would show the inherited
    property where they own none. ([preen_returns_iff] is the precondition
    in general, [initialize_creates_registered_series] what a new entry
    holds.) *)
Theorem new_action_breaks_tracked_ip
  (s : Manager.t) (ip key : string) (limit window : option Z) :
  inherited ip = false ->
  inherited key = false ->
  get ip (reqStats s) <> None ->
  seriesOf s ip key = None ->
  let s' := after (addRateLimitActionKey key limit window) s in
  seriesOf s' ip key = None
  /\ (exists msg s'',
        _preenOldRequestsForIP ip s' = (Raise (TypeError msg), s''))
  /\ (forall a,
        default false (get ip (blacklistedIPs s')) = false ->
        exists msg s'',
          _isIPAvailableForRequests ip (Some a) s' = (Raise (TypeError msg), s''))
  /\ (forall a,
        default false (get ip (blacklistedIPs s')) = true ->
        _isIPAvailableForRequests ip (Some a) s' = (Ret false, s')).
Proof.
  intros _ _ Htracked Hmissing s'.
  assert (seriesOf s' ip key = None) as Hmissing' by exact Hmissing.
  assert (exists msg s'',
             _preenOldRequestsForIP ip s' = (Raise (TypeError msg), s''))
    as Hpreen.
  { destruct (preen_returns_iff ip s') as [Hiff [Hret|Hraise]]; [|exact Hraise].
    exfalso. destruct Hiff as [Hall _].
    apply (Hall Hret key); [|exact Hmissing'].
    apply get_in_keys. subst s'.
    unfold after, addRateLimitActionKey, modify; simpl.
    rewrite get_set_eq. discriminate. }
  split; [exact Hmissing'|]. split; [exact Hpreen|].
  split; intros a Hblack.
  - destruct Hpreen as (msg & s'' & Hrun). exists msg, s''.
    now apply available_when_preen_faults.
  - cbv beta iota delta [_isIPAvailableForRequests bind gets].
    change (reqStats s') with (reqStats s).
    destruct (get ip (reqStats s)); [|congruence].
    now rewrite Hblack.
Qed.

Lemma new_action_breaks_tracked_ip_witness :
  let s' := after (addRateLimitActionKey "login" None None) oneProxy in
  seriesOf oneProxy "10.0.0.0" "api" = Some []
  /\ seriesOf s' "10.0.0.0" "login" = None
  /\ (exists msg s'',
        _preenOldRequestsForIP "10.0.0.0" s' = (Raise (TypeError msg), s''))
  /\ (exists msg s'',
        _isIPAvailableForRequests "10.0.0.0" (Some "api") s'
        = (Raise (TypeError msg), s'')).
Proof.
  intros s'.
  destruct (new_action_breaks_tracked_ip oneProxy "10.0.0.0" "login" None None)
    as (Hmissing & Hpreen & Havail & _).
  - reflexivity.
  - reflexivity.
  - vm_compute. discriminate.
  - vm_compute. reflexivity.
  - split; [vm_compute; reflexivity|].
    split; [exact Hmissing|]. split; [exact Hpreen|].
    apply Havail. vm_compute. reflexivity.
Defined.

(** C10 as stated fails for a blacklisted address: its entry lacks the series
    of the action registered later, yet [_isIPAvailableForRequests] answers
    [false] instead of faulting. *)
Lemma blacklisted_ip_does_not_fault :
  let s' := after (addRateLimitActionKey "login" None None) blacklistedExit in
  seriesOf blacklistedExit "163.172.67.180" "api" = Some []
  /\ seriesOf s' "163.172.67.180" "login" = None
  /\ _isIPAvailableForRequests "163.172.67.180" (Some "login") s'
     = (Ret false, s').
Proof.
  intros s'.
  split; [vm_compute; reflexivity|]. split; [vm_compute; reflexivity|].
  vm_compute. reflexivity.
Qed.

(** ** The ambiguous window *)

(** The fuel given to the scan is enough: one more than the length of the
    series, or any larger amount, gives the same count. *)
Lemma countNewer_fuel (actionStats : list Z) (lastIPPollTime : Z) (extra : nat) :
  countNewer (S (length actionStats) + extra) actionStats lastIPPollTime 0
  = countNewer (S (length actionStats)) actionStats lastIPPollTime 0.
Proof.
  assert (forall fuel fuel' k,
             (length actionStats - k < fuel)%nat ->
             (length actionStats - k < fuel')%nat ->
             countNewer fuel actionStats lastIPPollTime k
             = countNewer fuel' actionStats lastIPPollTime k) as Hsame.
  { induction fuel as [|fuel IH]; intros fuel' k Hfuel Hfuel'; [lia|].
    destruct fuel' as [|fuel']; [lia|].
    simpl. unfold index.
    destruct (Z.of_nat (length actionStats) - 1 - Z.of_nat k <? 0) eqn:Hneg;
      [reflexivity|].
    apply Z.ltb_ge in Hneg.
    destruct (actionStats !! Z.to_nat (Z.of_nat (length actionStats) - 1
                                       - Z.of_nat k)); [|reflexivity].
    destruct (truthy_num z && (z >? lastIPPollTime)); [|reflexivity].
    apply IH; lia. }
  apply Hsame; lia.
Qed.

(** The scan counts the entries at the end of the series that are newer than
    the last poll: with [newer] such entries after a part [older] that ends
    with an entry that is not, it stops at [length newer]. *)
Lemma countNewer_trailing (older newer : list Z) (lastIPPollTime : Z) :
  Forall (fun p => p <> 0 /\ lastIPPollTime < p) newer ->
  (older = []
   \/ exists init p, older = init ++ [p] /\ (p = 0 \/ p <= lastIPPollTime)) ->
  countNewer (S (length (older ++ newer))) (older ++ newer) lastIPPollTime 0
  = length newer.
Proof.
  intros Hnewer Holder.
  set (l := older ++ newer).
  assert (forall fuel k,
             (k <= length newer)%nat -> (length newer - k < fuel)%nat ->
             countNewer fuel l lastIPPollTime k = length newer) as Hscan.
  { induction fuel as [|fuel IH]; intros k Hk Hfuel; [lia|].
    simpl. unfold index.
    destruct (Nat.eq_dec k (length newer)) as [->|Hlt].
    - (* the entry before the newer ones, if any *)
      destruct Holder as [->|(init & p & -> & Hp)].
      + subst l; simpl.
        replace (Z.of_nat (length newer) - 1 - Z.of_nat (length newer) <? 0)
          with true by (symmetry; apply Z.ltb_lt; lia).
        reflexivity.
      + subst l. rewrite !length_app; simpl.
        replace (Z.of_nat (length init + 1 + length newer) - 1
                 - Z.of_nat (length newer) <? 0)
          with false by (symmetry; apply Z.ltb_ge; lia).
        replace (Z.to_nat (Z.of_nat (length init + 1 + length newer) - 1
                           - Z.of_nat (length newer)))
          with (length init) by lia.
        rewrite <- app_assoc. change ([p] ++ newer) with (p :: newer).
        rewrite list_lookup_middle by reflexivity.
        unfold truthy_num.
        destruct Hp as [->|Hp]; [reflexivity|].
        replace (p >? lastIPPollTime) with false
          by (rewrite Z.gtb_ltb; symmetry; apply Z.ltb_ge; lia).
        now rewrite andb_false_r.
    - (* one of the newer entries *)
      assert (k < length newer)%nat as Hk' by lia.
      subst l. rewrite length_app.
      replace (Z.of_nat (length older + length newer) - 1 - Z.of_nat k <? 0)
        with false by (symmetry; apply Z.ltb_ge; lia).
      replace (Z.to_nat (Z.of_nat (length older + length newer) - 1
                         - Z.of_nat k))
        with (length older + (length newer - 1 - k))%nat by lia.
      rewrite lookup_app_r by lia.
      replace (length older + (length newer - 1 - k) - length older)%nat
        with (length newer - 1 - k)%nat by lia.
      destruct (lookup_lt_is_Some_2 newer (length newer - 1 - k)) as [p Hp];
        [lia|].
      rewrite Hp.
      rewrite Forall_lookup in Hnewer. destruct (Hnewer _ _ Hp) as [Hnz Hgt].
      unfold truthy_num.
      replace (p =? 0) with false by (symmetry; apply Z.eqb_neq; exact Hnz).
      replace (p >? lastIPPollTime) with true
        by (rewrite Z.gtb_ltb; symmetry; apply Z.ltb_lt; lia).
      simpl. apply IH; lia. }
  apply Hscan; [lia|]. subst l. rewrite length_app. lia.
Qed.

(** [actionStats.slice(0, -i)] with [i] entries at the end: everything but
    those entries; and nothing at all when [i] is zero. *)
Lemma slice_before_trailing (older newer : list Z) :
  slice (older ++ newer) 0 (- Z.of_nat (length newer))
  = match newer with [] => [] | _ => older end.
Proof.
  unfold slice. rewrite length_app.
  destruct newer as [|p newer]; simpl length.
  - change (- Z.of_nat 0) with 0. change (0 <? 0) with false. cbv iota.
    replace (Z.to_nat (Z.min 0 (Z.of_nat (length older + 0))
                       - Z.min 0 (Z.of_nat (length older + 0))))
      with 0%nat by lia.
    reflexivity.
  - replace (- Z.of_nat (S (length newer)) <? 0) with true
      by (symmetry; apply Z.ltb_lt; lia).
    replace (0 <? 0) with false by reflexivity.
    replace (Z.to_nat (Z.max (Z.of_nat (length older + S (length newer))
                              + - Z.of_nat (S (length newer))) 0
                       - Z.min 0 (Z.of_nat (length older + S (length newer)))))
      with (length older) by lia.
    replace (Z.to_nat (Z.min 0 (Z.of_nat (length older + S (length newer)))))
      with 0%nat by lia.
    rewrite drop_0. now rewrite take_app_length.
Qed.

(** X1. What one turn of the copy loop does: the entries newer than the
    last poll stay where they are, and the entries before them are appended
    to the series of the new address; when no entry is newer than the last
    poll, nothing is appended. *)
Lemma copyAmbiguous_copies_settled_entries
  (s : Manager.t) (oldIp newIp actionName : string) (lastIPPollTime : Z)
  (ipStats newStats : JsObj (list Z)) (older newer series : list Z) :
  get oldIp (reqStats s) = Some ipStats ->
  get actionName ipStats = Some (older ++ newer) ->
  get newIp (reqStats s) = Some newStats ->
  get actionName newStats = Some series ->
  Forall (fun p => p <> 0 /\ lastIPPollTime < p) newer ->
  (older = []
   \/ exists init p, older = init ++ [p] /\ (p = 0 \/ p <= lastIPPollTime)) ->
  copyAmbiguous oldIp newIp lastIPPollTime actionName s
  = (Ret tt,
     set_reqStats
       (set newIp
          (set actionName
             (series ++ match newer with [] => [] | _ => older end) newStats)
          (reqStats s)) s).
Proof.
  intros Hold Hseries Hnew Hcur Hnewer Holder.
  unfold copyAmbiguous, bind, gets, modify.
  rewrite Hold, Hseries, Hnew, Hcur.
  rewrite countNewer_trailing by assumption.
  now rewrite slice_before_trailing.
Qed.

(** C1. The run of the documented scenario. Three actions are reported on
    [10.0.0.0] after the last poll; the poller then sees [10.0.0.5]. When
    [_onUnrequestedIPChange] has returned, the old address still has its
    three entries and the new address has none of them. In the second run
    one action precedes the last poll and two follow it: the new address
    receives the one that precedes. *)
Theorem unrequested_change_copies_settled_not_ambiguous :
  (ProxyCircuit.lastIPPollTime <$> circuitStore threeAmbiguous !! 0%nat)
  = Some 2000
  /\ seriesOf threeAmbiguous "10.0.0.0" "api" = Some [3000; 4000; 5000]
  /\ (let s' := after (_onUnrequestedIPChange 0%nat (Some "10.0.0.5"))
                  threeAmbiguous in
      outcome (_onUnrequestedIPChange 0%nat (Some "10.0.0.5")) threeAmbiguous
      = Ret tt
      /\ seriesOf s' "10.0.0.0" "api" = Some [3000; 4000; 5000]
      /\ seriesOf s' "10.0.0.5" "api" = Some [])
  /\ (ProxyCircuit.lastIPPollTime <$> circuitStore oneSettledTwoAmbiguous !! 0%nat)
     = Some 5000
  /\ seriesOf oneSettledTwoAmbiguous "10.0.0.1" "api" = Some [3000; 6000; 7000]
  /\ (let s' := after (_onUnrequestedIPChange 0%nat (Some "10.0.0.2"))
                  oneSettledTwoAmbiguous in
      outcome (_onUnrequestedIPChange 0%nat (Some "10.0.0.2"))
        oneSettledTwoAmbiguous = Ret tt
      /\ seriesOf s' "10.0.0.1" "api" = Some [3000; 6000; 7000]
      /\ seriesOf s' "10.0.0.2" "api" = Some [3000]).
Proof.
  split; [vm_compute; reflexivity|]. split; [vm_compute; reflexivity|].
  split; [cbv zeta; split; [vm_compute; reflexivity|];
          split; vm_compute; reflexivity|].
  split; [vm_compute; reflexivity|]. split; [vm_compute; reflexivity|].
  cbv zeta. split; [vm_compute; reflexivity|]. split; vm_compute; reflexivity.
Qed.

(** The poller itself ends in that state. *)
Example poller_turn_on_ambiguous_window :
  seriesOf (after (_startPoller 1 0%nat) threeAmbiguous) "10.0.0.0" "api"
  = Some [3000; 4000; 5000]
  /\ seriesOf (after (_startPoller 1 0%nat) threeAmbiguous) "10.0.0.5" "api"
     = Some []
  /\ (ProxyCircuit.activeExitNodeIP <$>
        circuitStore (after (_startPoller 1 0%nat) threeAmbiguous) !! 0%nat)
     = Some (Some "10.0.0.5").
Proof. repeat (split; [vm_compute; reflexivity|]). vm_compute; reflexivity. Qed.

(** ** The end of a change *)

Lemma freeOldIPData_control : respects (keeps control) anyExit freeOldIPData.
Proof. respects_with keeps_side. Qed.

Lemma firePending_spec (queue : list Resolver) (s : Manager.t) :
  exists s',
    firePending queue s = (Ret tt, s')
    /\ nextTicks s' = nextTicks s ++ map (fun fn => (fn, true)) queue
    /\ pendingCallbacks s'
       = match queue with [] => pendingCallbacks s | _ => [] end
    /\ circuitStore s' = circuitStore s
    /\ isCurrentlyChanging s' = isCurrentlyChanging s.
Proof.
  revert s. induction queue as [|fn rest IH]; intros s; simpl.
  - exists s. rewrite app_nil_r. auto.
  - unfold bind, modify; simpl.
    destruct (IH (set_nextTicks (nextTicks s ++ [(fn, true)])
                    (set_pendingCallbacks rest s)))
      as (s' & Hrun & Hticks & Hqueue & Hstore & Hgate).
    exists s'. rewrite Hrun. split; [reflexivity|].
    simpl in *. rewrite Hticks, <- app_assoc. split; [reflexivity|].
    split; [|auto]. rewrite Hqueue. now destruct rest.
Qed.

Lemma length_set_le {V} (k : string) (v : V) (o : JsObj V) :
  (length (keys (set k v o)) <= S (length (keys o)))%nat.
Proof.
  unfold keys. rewrite !length_map.
  induction o as [|[k' v'] o IH]; simpl; [lia|].
  destruct (String.eqb k k'); simpl; lia.
Qed.

(** What [_initializeIPDataIfNotInitialized] leaves alone. *)
Lemma initialize_frame (ip : string) (s : Manager.t) :
  let s1 := after (_initializeIPDataIfNotInitialized ip) s in
  control s1 = control s /\ world s1 = world s /\ asked s1 = asked s
  /\ (length (keys (reqStats s1)) <= S (length (keys (reqStats s))))%nat.
Proof.
  unfold after, _initializeIPDataIfNotInitialized, modify; simpl.
  destruct (get ip (reqStats s)); simpl.
  - repeat split; lia.
  - repeat split. apply length_set_le.
Qed.

Lemma onChangedIP_unfold
  (s : Manager.t) (circuit : CircuitRef) (c : ProxyCircuit.t)
  (newIp : option string) :
  circuitStore s !! circuit = Some c ->
  truthy_str newIp = true ->
  _onChangedIP circuit newIp s
  = (full <- _shouldPreenIPData ;;
     (if full then freeOldIPData else ret tt) ;;;
     queue <- gets pendingCallbacks ;;
     firePending queue) (stamped circuit newIp c s).
Proof.
  intros Hc Hip.
  unfold _onChangedIP, stamped, after. rewrite Hip.
  unfold _initializeIPDataIfNotInitialized.
  cbv beta iota delta [bind ret modify ask updateCircuit readCircuit fst snd].
  destruct (get (propKey newIp) (reqStats s)); simpl; rewrite Hc; reflexivity.
Qed.

Lemma stamped_facts
  (s : Manager.t) (circuit : CircuitRef) (c : ProxyCircuit.t)
  (newIp : option string) :
  circuitStore s !! circuit = Some c ->
  let s4 := stamped circuit newIp c s in
  circuitStore s4 !! circuit
  = Some (ProxyCircuit.with_exit newIp (clock (world s) (asked s)) c)
  /\ isCurrentlyChanging s4 = false
  /\ pendingCallbacks s4 = pendingCallbacks s
  /\ nextTicks s4 = nextTicks s
  /\ (length (keys (reqStats s4)) <= S (length (keys (reqStats s))))%nat.
Proof.
  intros Hc s4.
  destruct (initialize_frame (propKey newIp) s) as (Hctl & _ & _ & Hlen).
  unfold control in Hctl. injection Hctl as Hstore _ Hqueue Hticks.
  subst s4. unfold stamped. simpl.
  rewrite Hstore, Hqueue, Hticks.
  split; [|auto].
  apply list_lookup_insert_eq. now apply lookup_lt_Some in Hc.
Qed.

(** [_onChangedIP] with [newIp] unset and set; with [newIp] set, what the
    state holds once the call has returned, and when it does return. *)
Lemma onChangedIP_returns_stamped
  (s : Manager.t) (circuit : CircuitRef) (c : ProxyCircuit.t)
  (newIp : option string) :
  circuitStore s !! circuit = Some c ->
  (truthy_str newIp = false ->
   _onChangedIP circuit newIp s = (Raise (Die MissingIP), s))
  /\ (truthy_str newIp = true ->
      (forall s',
          _onChangedIP circuit newIp s = (Ret tt, s') ->
          circuitStore s' !! circuit
          = Some (ProxyCircuit.with_exit newIp (clock (world s) (asked s)) c)
          /\ isCurrentlyChanging s' = false
          /\ pendingCallbacks s' = []
          /\ nextTicks s'
             = nextTicks s ++ map (fun fn => (fn, true)) (pendingCallbacks s))
      /\ ((length (keys (reqStats s)) < 500)%nat ->
          exists s', _onChangedIP circuit newIp s = (Ret tt, s'))).
Proof.
  intros Hc. split; intros Hip.
  - unfold _onChangedIP, bind, raise. now rewrite Hip.
  - rewrite (onChangedIP_unfold s circuit c newIp Hc Hip).
    destruct (stamped_facts s circuit c newIp Hc)
      as (Hstore & Hgate & Hqueue & Hticks & Hlen).
    remember (stamped circuit newIp c s) as s4 eqn:Hs4. clear Hs4.
    cbv beta iota delta [bind _shouldPreenIPData gets ret].
    split.
    + intros s'.
      assert (forall s5, control s5 = control s4 ->
                firePending (pendingCallbacks s5) s5 = (Ret tt, s') ->
                circuitStore s' !! circuit
                = Some (ProxyCircuit.with_exit newIp
                          (clock (world s) (asked s)) c)
                /\ isCurrentlyChanging s' = false
                /\ pendingCallbacks s' = []
                /\ nextTicks s'
                   = nextTicks s
                     ++ map (fun fn => (fn, true)) (pendingCallbacks s))
        as Hfire.
      { intros s5 Hctl. unfold control in Hctl.
        injection Hctl as Hstore5 Hgate5 Hqueue5 Hticks5.
        destruct (firePending_spec (pendingCallbacks s5) s5)
          as (s6 & Hrun & Hticks6 & Hqueue6 & Hstore6 & Hgate6).
        rewrite Hrun. intros [= <-].
        split; [now rewrite Hstore6, Hstore5|].
        split; [now rewrite Hgate6, Hgate5|].
        split.
        - rewrite Hqueue6. now destruct (pendingCallbacks s5).
        - now rewrite Hticks6, Hticks5, Hqueue5, Hticks, Hqueue. }
      destruct (500 <? length (keys (reqStats s4)))%nat.
      * destruct (freeOldIPData_control s4) as [Hkeep _].
        destruct (freeOldIPData s4) as [[[]|f|h] s5]; simpl in Hkeep;
          [|discriminate|discriminate].
        apply Hfire. exact Hkeep.
      * apply Hfire. reflexivity.
    + intros Hsmall.
      replace (500 <? length (keys (reqStats s4)))%nat with false
        by (symmetry; apply Nat.ltb_ge; lia).
      destruct (firePending_spec (pendingCallbacks s4) s4) as (s6 & Hrun & _).
      exists s6. exact Hrun.
Qed.

(** C5. [_onChangedIP(circuit, newIp)] on a circuit object [c]:
    - with [newIp] unset it fails with MissingIP and the state is as before,
      so no waiter has been resolved;
    - with [newIp] set, once it has returned, [activeExitNodeIP] of the
      circuit is [newIp] and its [lastIPPollTime] is the time read from the
      clock, the other fields of the circuit being as before;
      [isCurrentlyChanging] is [false], [pendingCallbacks] is empty, and the
      calls queued for the next tick are those that were queued before
      followed by one call with [true] for each waiter, in the order of the
      waiter queue;
    - with [newIp] set it does return whenever the store tracks fewer than
      500 addresses, compaction then being out of the question. *)
Theorem onChangedIP_releases_waiters
  (s : Manager.t) (circuit : CircuitRef) (c : ProxyCircuit.t)
  (newIp : option string) :
  circuitStore s !! circuit = Some c ->
  (truthy_str newIp = false ->
   _onChangedIP circuit newIp s = (Raise (Die MissingIP), s))
  /\ (truthy_str newIp = true ->
      (forall s',
          _onChangedIP circuit newIp s = (Ret tt, s') ->
          (exists c',
              circuitStore s' !! circuit = Some c'
              /\ ProxyCircuit.activeExitNodeIP c' = newIp
              /\ ProxyCircuit.lastIPPollTime c' = clock (world s) (asked s)
              /\ c' = ProxyCircuit.with_exit newIp (clock (world s) (asked s)) c)
          /\ isCurrentlyChanging s' = false
          /\ pendingCallbacks s' = []
          /\ nextTicks s'
             = nextTicks s ++ map (fun fn => (fn, true)) (pendingCallbacks s))
      /\ ((length (keys (reqStats s)) < 500)%nat ->
          exists s', _onChangedIP circuit newIp s = (Ret tt, s'))).
Proof.
  intros Hc.
  destruct (onChangedIP_returns_stamped s circuit c newIp Hc) as [Hunset Hset].
  split; [exact Hunset|].
  intros Hip. destruct (Hset Hip) as [Hpost Hreturns].
  split; [|exact Hreturns].
  intros s' Hrun.
  destruct (Hpost s' Hrun) as (Hstore & Hgate & Hqueue & Hticks).
  split; [|now repeat split].
  exists (ProxyCircuit.with_exit newIp (clock (world s) (asked s)) c).
  split; [exact Hstore|]. split; [reflexivity|]. split; reflexivity.
Qed.


Lemma onChangedIP_releases_waiters_witness :
  pendingCallbacks threeWaiting = [0; 1; 2]%nat
  /\ isCurrentlyChanging threeWaiting = true
  /\ (ProxyCircuit.activeExitNodeIP <$> circuitStore threeWaiting !! 0%nat)
     = Some (Some "10.0.0.0")
  /\ (ProxyCircuit.lastIPPollTime <$> circuitStore threeWaiting !! 0%nat)
     = Some 2000
  /\ exists s',
      _onChangedIP 0%nat (Some "10.9.9.9") threeWaiting = (Ret tt, s')
      /\ (ProxyCircuit.activeExitNodeIP <$> circuitStore s' !! 0%nat)
         = Some (Some "10.9.9.9")
      /\ (ProxyCircuit.lastIPPollTime <$> circuitStore s' !! 0%nat)
         = Some 3000
      /\ isCurrentlyChanging s' = false
      /\ pendingCallbacks s' = []
      /\ nextTicks s' = [(0, true); (1, true); (2, true)]%nat.
Proof.
  split; [vm_compute; reflexivity|]. split; [vm_compute; reflexivity|].
  split; [vm_compute; reflexivity|]. split; [vm_compute; reflexivity|].
  destruct (circuitStore threeWaiting !! 0%nat) as [c|] eqn:Hc;
    [|vm_compute in Hc; discriminate].
  destruct (onChangedIP_releases_waiters threeWaiting 0%nat c (Some "10.9.9.9") Hc)
    as [_ Hset].
  destruct (Hset eq_refl) as [Hpost Hreturns].
  destruct Hreturns as [s' Hrun]; [vm_compute; lia|].
  destruct (Hpost s' Hrun)
    as ((c' & Hstore & Hexit & Hstamp & _) & Hgate & Hqueue & Hticks).
  exists s'. split; [exact Hrun|].
  split; [rewrite Hstore; simpl; now rewrite Hexit|].
  split; [rewrite Hstore; simpl; rewrite Hstamp; vm_compute; reflexivity|].
  split; [exact Hgate|]. split; [exact Hqueue|].
  rewrite Hticks. vm_compute. reflexivity.
Defined.

(** ** Changing the exit of a tor circuit *)

(** C6. [_definitivelyChangeToAvailableIP] raises the gate and then reads
    [actualExitIP], which no scope declares: unless the global object happens
    to have such a property, the call ends there with a ReferenceError. No
    signal has been sent, no probe made, and [isCurrentlyChanging] stays
    [true]. *)
Theorem definitivelyChange_stops_at_actualExitIP
  (s : Manager.t) (circuit : CircuitRef) (c : ProxyCircuit.t) :
  circuitStore s !! circuit = Some c ->
  get "actualExitIP" (globalScope s) = None ->
  _definitivelyChangeToAvailableIP circuit s
  = (Raise (ReferenceError "actualExitIP"), set_isCurrentlyChanging true s).
Proof.
  intros Hc Hglobal.
  unfold _definitivelyChangeToAvailableIP, bind, modify, readCircuit, readGlobal.
  simpl. rewrite Hc. simpl. now rewrite Hglobal.
Qed.

Lemma definitivelyChange_stops_at_actualExitIP_witness :
  (ProxyCircuit.isLocalTor <$> circuitStore torOnly !! 0%nat) = Some true
  /\ _definitivelyChangeToAvailableIP 0%nat torOnly
     = (Raise (ReferenceError "actualExitIP"), set_isCurrentlyChanging true torOnly)
  /\ effects (set_isCurrentlyChanging true torOnly) = effects torOnly.
Proof.
  split; [vm_compute; reflexivity|]. split.
  - apply (definitivelyChange_stops_at_actualExitIP torOnly 0%nat
             (ProxyCircuit.with_exit (Some "10.0.0.1") 3000
                (ProxyCircuit.setPollingClient (Some 0%nat)
                   (ProxyCircuit.new [("isLocalTor", VBool true)]))));
      vm_compute; reflexivity.
  - simpl. reflexivity.
Defined.

(** ** Random selection *)

(** C3. On a pool of two circuits or more that are not all unhealthy, a call
    of [_getRandomCircuit] that leaves no circuit out and asks for unhealthy
    circuits to be skipped returns the circuit of the first draw, whatever
    its health: the [continue] that follows the refusal of an unhealthy
    circuit leads to the test of the loop, which fails when there is no
    circuit to leave out. *)
Theorem random_circuit_ignores_health
  (s : Manager.t) (fuel : nat) (objs : list ProxyCircuit.t) (r : CircuitRef) :
  (1 < length (circuits s))%nat ->
  Forall2 (fun r c => circuitStore s !! r = Some c) (circuits s) objs ->
  (exists c, In c objs /\ ProxyCircuit.isHealthy c = true) ->
  circuits s !! (random (world s) (asked s) mod length (circuits s))%nat = Some r ->
  _getRandomCircuit (S fuel) None true s
  = (Ret (Some r), set_asked (S (asked s)) s).
Proof.
  intros Hlen Hobjs Hhealthy Hdraw.
  destruct (Forall2_lookup_l _ _ _ _ _ Hobjs Hdraw) as (c & _ & Hc).
  set (s1 := set_asked (S (asked s)) s).
  assert (areAllCircuitsUnhealthy s1 = (Ret false, s1)) as Hbad.
  { unfold areAllCircuitsUnhealthy, poolObjects.
    rewrite (run_bind _ _ s1 s1 objs).
    2:{ rewrite (run_bind _ _ s1 s1 (circuits s)) by reflexivity.
        now apply mapM_readCircuit_objs. }
    unfold ret. f_equal. f_equal.
    destruct Hhealthy as (c' & Hin & Hc').
    assert (In c' (List.filter ProxyCircuit.isHealthy objs)) as Hf
      by (apply List.filter_In; auto).
    destruct (List.filter ProxyCircuit.isHealthy objs); [destruct Hf|reflexivity]. }
  unfold _getRandomCircuit.
  rewrite (run_bind _ _ s s (circuits s)) by reflexivity.
  replace (length (circuits s) <=? 1)%nat with false
    by (symmetry; apply Nat.leb_gt; lia).
  simpl randomCircuitLoop.
  rewrite (run_bind _ _ s s (circuits s)) by reflexivity.
  rewrite (run_bind _ _ s s1 (random (world s) (asked s))) by reflexivity.
  rewrite Hdraw.
  rewrite (run_bind _ _ s1 s1 c) by (unfold readCircuit; simpl; now rewrite Hc).
  destruct (ProxyCircuit.isHealthy c); simpl.
  - reflexivity.
  - rewrite (run_bind _ _ s1 s1 None).
    2:{ now rewrite (run_bind _ _ s1 s1 false) by exact Hbad. }
    reflexivity.
Qed.

Lemma random_circuit_ignores_health_witness :
  (ProxyCircuit.isHealthy <$> circuitStore sickFirst !! 0%nat) = Some false
  /\ (ProxyCircuit.isHealthy <$> circuitStore sickFirst !! 1%nat) = Some true
  /\ outcome (_getRandomCircuit 1 None true) sickFirst = Ret (Some 0%nat).
Proof.
  split; [vm_compute; reflexivity|]. split; [vm_compute; reflexivity|].
  destruct (circuitStore sickFirst !! 0%nat) as [c0|] eqn:H0;
    [|vm_compute in H0; discriminate].
  destruct (circuitStore sickFirst !! 1%nat) as [c1|] eqn:H1;
    [|vm_compute in H1; discriminate].
  unfold outcome.
  rewrite (random_circuit_ignores_health sickFirst 0 [c0; c1] 0%nat).
  - reflexivity.
  - vm_compute. lia.
  - change (circuits sickFirst) with [0%nat; 1%nat].
    constructor; [exact H0|]. constructor; [exact H1|constructor].
  - exists c1. split; [right; now left|].
    vm_compute in H1. injection H1 as <-. vm_compute. reflexivity.
  - vm_compute. reflexivity.
Defined.

(** With a circuit to leave out that is itself unhealthy, an unhealthy
    circuit other than it is returned as well. *)
Example random_circuit_with_omit :
  let s := after (updateCircuit 1%nat (ProxyCircuit.degradeHealth 90)) sickFirst in
  let s := after (addCircuit [("host", VStr "proxy-c")]) s in
  (ProxyCircuit.isHealthy <$> circuitStore s !! 0%nat) = Some false
  /\ (ProxyCircuit.isHealthy <$> circuitStore s !! 1%nat) = Some false
  /\ (ProxyCircuit.isHealthy <$> circuitStore s !! 2%nat) = Some true
  /\ asked s = 6%nat
  /\ outcome (_getRandomCircuit 1 (Some 1%nat) true) s = Ret (Some 0%nat).
Proof. repeat (split; [vm_compute; reflexivity|]). vm_compute; reflexivity. Qed.

(** ** Adding a circuit *)

Ltac notDuplicate_side :=
  first [ exact I | (unfold notDuplicate; discriminate) ].

Lemma firePending_notDuplicate (queue : list Resolver) :
  respects anyState notDuplicate (firePending queue).
Proof.
  induction queue as [|fn rest IH]; simpl; respects_with notDuplicate_side.
Qed.
#[local] Hint Resolve firePending_notDuplicate : respects.


Lemma filter_nonempty_exists {A} (p : A -> bool) (l : list A) :
  (0 <? length (List.filter p l))%nat = true <-> exists x, In x l /\ p x = true.
Proof.
  rewrite Nat.ltb_lt. split.
  - intros Hlen. destruct (List.filter p l) as [|x rest] eqn:Hf; [simpl in Hlen; lia|].
    exists x. apply List.filter_In. rewrite Hf. now left.
  - intros (x & Hin & Hp).
    assert (In x (List.filter p l)) as Hx by (apply List.filter_In; auto).
    destruct (List.filter p l); [destruct Hx|simpl; lia].
Qed.


Lemma addCircuit_unfold (circuitDetails : JsObj JsVal) :
  addCircuit circuitDetails
  = (circuit <- newCircuit circuitDetails ;;
     c <- readCircuit circuit ;;
     exists_ <- _hasCircuit c ;;
     (if exists_ then raise (Die DuplicateCircuit) else ret tt) ;;;
     enrolCircuit circuit c).
Proof. reflexivity. Qed.

Lemma enrolCircuit_notDuplicate (circuit : CircuitRef) (c : ProxyCircuit.t) :
  respects anyState notDuplicate (enrolCircuit circuit c).
Proof. unfold enrolCircuit. respects_with notDuplicate_side. Qed.

(** C8, as the code has it. On a pool whose addresses all name objects,
    [addCircuit] fails as a duplicate exactly when a circuit of the cycling
    pool has the identifier of the circuit being added. The named registry is
    not looked at. *)
Theorem addCircuit_duplicate_iff
  (s : Manager.t) (circuitDetails : JsObj JsVal) :
  (forall r, In r (circuits s) -> is_Some (circuitStore s !! r)) ->
  outcome (addCircuit circuitDetails) s = Raise (Die DuplicateCircuit)
  <-> exists r c,
        In r (circuits s) /\ circuitStore s !! r = Some c
        /\ ProxyCircuit.getIdentifier c
           = ProxyCircuit.getIdentifier (ProxyCircuit.new circuitDetails).
Proof.
  intros Hwf.
  set (new := ProxyCircuit.new circuitDetails).
  set (s1 := set_circuitStore (circuitStore s ++ [new]) s).
  set (r0 := length (circuitStore s)).
  assert (forall r c, circuitStore s !! r = Some c -> circuitStore s1 !! r = Some c)
    as Hold.
  { intros r c Hc. subst s1; simpl. rewrite lookup_app_l; [exact Hc|].
    now apply lookup_lt_Some in Hc. }
  destruct (mapM_readCircuit (circuits s) s1) as (objs & Hpool & Hobjs).
  { intros r Hr. destruct (Hwf r Hr) as [c Hc]. exists c. now apply Hold. }
  set (dup := (0 <? length
                 (List.filter
                    (fun c => String.eqb (ProxyCircuit.getIdentifier c)
                                (ProxyCircuit.getIdentifier new)) objs))%nat).
  assert (addCircuit circuitDetails s
          = if dup then (Raise (Die DuplicateCircuit), s1)
            else enrolCircuit r0 new s1) as Hrun.
  { rewrite addCircuit_unfold.
    rewrite (run_bind _ _ s s1 r0) by reflexivity.
    rewrite (run_bind _ _ s1 s1 new).
    2:{ unfold readCircuit. subst s1 r0; simpl.
        now rewrite list_lookup_middle. }
    rewrite (run_bind _ _ s1 s1 dup).
    2:{ unfold _hasCircuit, poolObjects. cbv zeta.
        rewrite (run_bind _ _ s1 s1 objs); [reflexivity|].
        rewrite (run_bind _ _ s1 s1 (circuits s)) by reflexivity.
        exact Hpool. }
    destruct dup; reflexivity. }
  unfold outcome. rewrite Hrun.
  destruct dup eqn:Hdup; subst dup.
  - split; [intros _|reflexivity].
    apply filter_nonempty_exists in Hdup as (c & Hin & Hid).
    apply String.eqb_eq in Hid.
    apply list_elem_of_In, list_elem_of_lookup in Hin as [i Hi].
    destruct (Forall2_lookup_r _ _ _ _ _ Hobjs Hi) as (r & Hr & Hc).
    assert (In r (circuits s)) as Hin
      by (apply list_elem_of_In, list_elem_of_lookup; eauto).
    exists r, c. split; [exact Hin|]. split; [|exact Hid].
    destruct (Hwf r Hin) as [c' Hc'].
    rewrite (Hold r c' Hc') in Hc. congruence.
  - split.
    + intros Hfail. exfalso.
      destruct (enrolCircuit_notDuplicate r0 new s1) as [_ HE].
      apply (HE (inl (Die DuplicateCircuit))); [|reflexivity].
      now rewrite Hfail.
    + intros (r & c & Hr & Hc & Hid). exfalso.
      apply list_elem_of_In, list_elem_of_lookup in Hr as [i Hi].
      destruct (Forall2_lookup_l _ _ _ _ _ Hobjs Hi) as (c' & Hc' & Hrc).
      rewrite (Hold r c Hc) in Hrc. injection Hrc as <-.
      apply not_true_iff_false in Hdup. apply Hdup.
      apply filter_nonempty_exists. exists c. split.
      * apply list_elem_of_In, list_elem_of_lookup. eauto.
      * now apply String.eqb_eq.
Qed.

Lemma addCircuit_duplicate_iff_witness :
  outcome (addCircuit [("host", VStr "proxy-a")]) oneProxy
  = Raise (Die DuplicateCircuit).
Proof.
  apply (addCircuit_duplicate_iff oneProxy [("host", VStr "proxy-a")]).
  - intros r Hr. vm_compute in Hr. destruct Hr as [<-|[]].
    vm_compute. eauto.
  - destruct (circuitStore oneProxy !! 0%nat) as [c|] eqn:Hc;
      [|vm_compute in Hc; discriminate].
    exists 0%nat, c. split; [vm_compute; auto|]. split; [exact Hc|].
    vm_compute in Hc. injection Hc as <-. vm_compute. reflexivity.
Defined.

(** C8 as stated fails for the named registry: a rigid circuit is registered
    under ["login"], and adding a circuit with the same definition, hence
    the same identifier, goes through; the registry then holds the second
    object in place of the first. *)
Lemma second_rigid_circuit_is_accepted :
  get "login" (namedCircuits rigidOnly) = Some 0%nat
  /\ (ProxyCircuit.getIdentifier <$> circuitStore rigidOnly !! 0%nat)
     = Some (ProxyCircuit.getIdentifier (ProxyCircuit.new loginDetails))
  /\ outcome (addCircuit loginDetails) rigidOnly = Ret tt
  /\ get "login" (namedCircuits (after (addCircuit loginDetails) rigidOnly))
     = Some 1%nat.
Proof. repeat (split; [vm_compute; reflexivity|]). vm_compute; reflexivity. Qed.

(** ** Removing a circuit *)

Lemma removeCircuit_unfold (fuel : nat) (circuit : CircuitRef) :
  _removeCircuit fuel circuit
  = (updateCircuit circuit ProxyCircuit.markInvalid ;;;
     c <- readCircuit circuit ;;
     dropCircuit fuel circuit c).
Proof. reflexivity. Qed.

Lemma randomCircuitLoop_keeps_circuits fuel omit skip :
  respects (keeps circuits) anyExit (randomCircuitLoop fuel omit skip).
Proof.
  revert omit skip. induction fuel as [|fuel IH]; intros omit skip; simpl;
    respects_with keeps_side.
Qed.
#[local] Hint Resolve randomCircuitLoop_keeps_circuits : respects.

Lemma dropCircuit_keeps_circuits fuel circuit c :
  ProxyCircuit.addToCyclingCircuitPool c = true ->
  respects (keeps circuits) anyExit (dropCircuit fuel circuit c).
Proof.
  intros Hcyc. unfold dropCircuit. rewrite Hcyc.
  respects_with keeps_side.
Qed.

Lemma indexOf_absent (pool : list nat) (x : nat) :
  ~ In x pool -> indexOf pool x = None.
Proof.
  intros Hout. unfold indexOf.
  destruct (list_find (fun y => y = x) pool) as [[i y]|] eqn:Hfind; [|reflexivity].
  apply list_find_Some in Hfind as (Hi & -> & _).
  exfalso. apply Hout, list_elem_of_In, list_elem_of_lookup. eauto.
Qed.

(** C4. [_removeCircuit] on the circuit object [c] at [circuit] marks it
    invalid and then turns to the collection the circuit is not in:
    - for a circuit of the cycling pool it deletes a key of the named
      registry, and the pool is the same after the call as before, however
      the call ends;
    - for a rigid circuit, which is not in the pool, it fails with
      CircuitNotInPool; the state differs from the one before in the validity
      mark only, so the named registry still holds the circuit. *)
Theorem removeCircuit_takes_the_wrong_collection
  (s : Manager.t) (fuel : nat) (circuit : CircuitRef) (c : ProxyCircuit.t) :
  circuitStore s !! circuit = Some c ->
  (ProxyCircuit.addToCyclingCircuitPool c = true ->
   circuits (after (_removeCircuit fuel circuit) s) = circuits s)
  /\ (ProxyCircuit.addToCyclingCircuitPool c = false ->
      ~ In circuit (circuits s) ->
      _removeCircuit fuel circuit s
      = (Raise (Die CircuitNotInPool),
         set_circuitStore
           (<[circuit := ProxyCircuit.markInvalid c]> (circuitStore s)) s)).
Proof.
  intros Hc.
  set (s1 := set_circuitStore
               (<[circuit := ProxyCircuit.markInvalid c]> (circuitStore s)) s).
  assert (_removeCircuit fuel circuit s
          = dropCircuit fuel circuit (ProxyCircuit.markInvalid c) s1) as Hrun.
  { rewrite removeCircuit_unfold.
    rewrite (run_bind _ _ s s1 tt).
    2:{ unfold updateCircuit.
        rewrite (run_bind _ _ s s c) by (unfold readCircuit; now rewrite Hc).
        reflexivity. }
    rewrite (run_bind _ _ s1 s1 (ProxyCircuit.markInvalid c)); [reflexivity|].
    unfold readCircuit. subst s1; simpl.
    rewrite list_lookup_insert_eq; [reflexivity|].
    now apply lookup_lt_Some in Hc. }
  split.
  - intros Hcyc. unfold after. rewrite Hrun.
    destruct (dropCircuit_keeps_circuits fuel circuit
                (ProxyCircuit.markInvalid c) Hcyc s1) as [Hkeep _].
    exact Hkeep.
  - intros Hrigid Hout. rewrite Hrun. unfold dropCircuit.
    change (ProxyCircuit.addToCyclingCircuitPool (ProxyCircuit.markInvalid c))
      with (ProxyCircuit.addToCyclingCircuitPool c).
    rewrite Hrigid.
    unfold bind, gets. change (circuits s1) with (circuits s).
    now rewrite indexOf_absent.
Qed.

Lemma removeCircuit_takes_the_wrong_collection_witness :
  (* a circuit of the cycling pool *)
  circuits exhaustedClient = [0; 1]%nat
  /\ outcome (_removeCircuit 2 0%nat) exhaustedClient = Ret 0%nat
  /\ circuits (after (_removeCircuit 2 0%nat) exhaustedClient) = [0; 1]%nat
  /\ (ProxyCircuit.valid <$>
        circuitStore (after (_removeCircuit 2 0%nat) exhaustedClient) !! 0%nat)
     = Some false
  (* a circuit of the named registry *)
  /\ get "login" (namedCircuits rigidOnly) = Some 0%nat
  /\ outcome (_removeCircuit 2 0%nat) rigidOnly = Raise (Die CircuitNotInPool)
  /\ get "login" (namedCircuits (after (_removeCircuit 2 0%nat) rigidOnly))
     = Some 0%nat.
Proof.
  destruct (circuitStore exhaustedClient !! 0%nat) as [c|] eqn:Hc;
    [|vm_compute in Hc; discriminate].
  destruct (circuitStore rigidOnly !! 0%nat) as [c'|] eqn:Hc';
    [|vm_compute in Hc'; discriminate].
  destruct (removeCircuit_takes_the_wrong_collection exhaustedClient 2 0%nat c Hc)
    as [Hpool _].
  destruct (removeCircuit_takes_the_wrong_collection rigidOnly 2 0%nat c' Hc')
    as [_ Hnamed].
  split; [vm_compute; reflexivity|]. split; [vm_compute; reflexivity|].
  split.
  { rewrite Hpool; [vm_compute; reflexivity|].
    vm_compute in Hc. injection Hc as <-. reflexivity. }
  split; [vm_compute; reflexivity|]. split; [vm_compute; reflexivity|].
  unfold outcome, after. rewrite Hnamed.
  - split; reflexivity.
  - vm_compute in Hc'. injection Hc' as <-. reflexivity.
  - vm_compute. tauto.
Defined.

(** ** The client's probe-or-change *)

(** Whatever [forceIPChangeImmediately] of a client returns, it is not a
    boolean: on a tor circuit the manager's method is called without a
    circuit and throws, on a rigid circuit the method falls off its end, and
    on a pool circuit it returns the result of [_changeToRandomCircuit],
    which has none. *)
Lemma client_forceIPChange_returns_undefined
  (fuel : nat) (this : ClientRef) (s : Manager.t) (b : bool) :
  outcome (Client.forceIPChangeImmediately fuel this) s <> Ret (Some b).
Proof.
  unfold outcome, Client.forceIPChangeImmediately, bind.
  destruct (Client.boundCircuit this s) as [[c|f|h] s1]; simpl; try congruence.
  destruct (ProxyCircuit.isLocalTor c); simpl; [congruence|].
  destruct (ProxyCircuit.addToCyclingCircuitPool c); simpl; [|congruence].
  destruct (Client._changeToRandomCircuit fuel this s1) as [[[]|f|h] s2];
    simpl; congruence.
Qed.

(** C7. [changeIPIfNecessary] of a client never returns [true]: it returns
    [false] when the address is available, and otherwise passes on what
    [forceIPChangeImmediately] returns, which is [undefined] when the change
    went through. *)
Theorem client_changeIPIfNecessary_never_true
  (fuel : nat) (this : ClientRef) (actionName : option string) (s : Manager.t) :
  outcome (Client.changeIPIfNecessary fuel this actionName) s <> Ret (Some true).
Proof.
  unfold outcome, Client.changeIPIfNecessary, bind.
  destruct (Client.boundCircuit this s) as [[c|f|h] s1]; simpl; try congruence.
  destruct (ProxyCircuit.addToCyclingCircuitPool c); simpl; [|congruence].
  destruct (_isIPAvailableForRequests _ actionName s1) as [[free|f|h] s2];
    simpl; try congruence.
  destruct free; simpl; [congruence|].
  apply client_forceIPChange_returns_undefined.
Qed.

(** The failing run: the client of [exhaustedClient] sits on a pool circuit
    whose address has used up its two actions; the call moves the client to
    the other circuit and returns [undefined]. *)
Example client_changeIPIfNecessary_on_exhausted_ip :
  outcome (_isIPAvailableForRequests "10.0.0.0" (Some "api")) exhaustedClient
  = Ret false
  /\ (circuit <$> clientStore exhaustedClient !! 2%nat) = Some (Some 0%nat)
  /\ outcome (Client.changeIPIfNecessary 2 2%nat (Some "api")) exhaustedClient
     = Ret None
  /\ (circuit <$>
        clientStore (after (Client.changeIPIfNecessary 2 2%nat (Some "api"))
                       exhaustedClient) !! 2%nat) = Some (Some 1%nat).
Proof. repeat (split; [vm_compute; reflexivity|]). vm_compute; reflexivity. Qed.

(** A client on a tor circuit fares worse: the manager's
    [forceIPChangeImmediately] is called without its circuit. *)
Example client_changeIPIfNecessary_on_tor :
  let s := after
             (k <- createClient 1 (ByIndex 0) ;;
              Client.reportNewAction k (Some "api") ;;;
              Client.reportNewAction k (Some "api")) torOnly in
  (ProxyCircuit.isLocalTor <$> circuitStore s !! 0%nat) = Some true
  /\ (circuit <$> clientStore s !! 1%nat) = Some (Some 0%nat)
  /\ outcome (Client.changeIPIfNecessary 2 1%nat (Some "api")) s
     = Raise (TypeError "circuit is undefined").
Proof. repeat (split; [vm_compute; reflexivity|]). vm_compute; reflexivity. Qed.

(** ** More on property lists *)

Lemma get_head {V} (k : string) (v : V) (o : JsObj V) :
  get k ((k, v) :: o) = Some v.
Proof. simpl. now rewrite String.eqb_refl. Qed.

Lemma keys_set {V} (k : string) (v : V) (o : JsObj V) :
  keys (set k v o) = if has k o then keys o else keys o ++ [k].
Proof.
  unfold has, keys. induction o as [|[k' v'] o IH]; simpl; [reflexivity|].
  destruct (String.eqb k k') eqn:E; simpl; [reflexivity|].
  rewrite IH. now destruct (get k o).
Qed.

(** [Object.assign] from a source without repeated keys: the source wins. *)
Lemma get_assign {V} (k : string) (target src : JsObj V) :
  NoDup (keys src) ->
  get k (assign target src)
  = match get k src with Some v => Some v | None => get k target end.
Proof.
  unfold assign. revert target.
  induction src as [|[k' v'] src IH]; intros target Hnd; simpl; [reflexivity|].
  inversion Hnd as [|? ? Hout Hnd']; subst.
  rewrite IH by exact Hnd'.
  destruct (String.eqb_spec k k') as [->|Hne].
  - destruct (get k' src) eqn:Hin.
    + exfalso. apply Hout. apply list_elem_of_In, get_in_keys. congruence.
    + apply get_set_eq.
  - destruct (get k src); [reflexivity|]. now apply get_set_ne.
Qed.

(** A computation whose first step faults. *)
Lemma run_raise {A B} (m : M A) (k : A -> M B) (s s' : Manager.t) (f : Fault) :
  m s = (Raise f, s') -> bind m k s = (Raise f, s').
Proof. intros H. unfold bind. now rewrite H. Qed.

(** A computation whose first step does not come back. *)
Lemma run_halt {A B} (m : M A) (k : A -> M B) (s s' : Manager.t) (h : Halt) :
  m s = (NoReturn h, s') -> bind m k s = (NoReturn h, s').
Proof. intros H. unfold bind. now rewrite H. Qed.

(** ** What a circuit is built with *)

Lemma circuitDefaults_NoDup : NoDup (keys ProxyCircuit.circuitDefaults).
Proof. compute_done. Qed.



(** ** Health *)

(** X3. Health moves in steps and is clamped at both ends: from a health between
    0 and 100, [n] calls of [degradeHealth(d)] leave [max(0, health - n * d)]
    and [n] calls of [promoteHealth(d)] leave [min(100, health + n * d)], for
    a step [d] that is not negative. Nothing else of the circuit changes. *)
Theorem health_moves_within_bounds (c : ProxyCircuit.t) (d : Z) (n : nat) :
  0 <= ProxyCircuit.health c <= 100 ->
  0 <= d ->
  Nat.iter n (ProxyCircuit.degradeHealth d) c
  = ProxyCircuit.with_health (Z.max 0 (ProxyCircuit.health c - Z.of_nat n * d)) c
  /\ Nat.iter n (ProxyCircuit.promoteHealth d) c
     = ProxyCircuit.with_health
         (Z.min 100 (ProxyCircuit.health c + Z.of_nat n * d)) c.
Proof.
  intros Hc Hd. induction n as [|n [IHd IHp]].
  - simpl. destruct c; unfold ProxyCircuit.with_health; simpl in *.
    split; f_equal; lia.
  - simpl Nat.iter. rewrite IHd, IHp.
    unfold ProxyCircuit.degradeHealth, ProxyCircuit.promoteHealth,
      ProxyCircuit.with_health; simpl.
    split; f_equal; nia.
Qed.

Lemma health_moves_within_bounds_witness :
  let c := ProxyCircuit.new [] in
  ProxyCircuit.health c = 100
  /\ ProxyCircuit.isHealthy (Nat.iter 7 (ProxyCircuit.degradeHealth 10) c) = true
  /\ ProxyCircuit.isHealthy (Nat.iter 8 (ProxyCircuit.degradeHealth 10) c) = false
  /\ ProxyCircuit.health (Nat.iter 12 (ProxyCircuit.degradeHealth 10) c) = 0
  /\ ProxyCircuit.health (Nat.iter 3 (ProxyCircuit.promoteHealth 10) c) = 100.
Proof.
  intros c.
  assert (0 <= ProxyCircuit.health c <= 100) as Hc by (vm_compute; split; discriminate).
  split; [reflexivity|].
  destruct (health_moves_within_bounds c 10 7 Hc ltac:(lia)) as [H7 _].
  destruct (health_moves_within_bounds c 10 8 Hc ltac:(lia)) as [H8 _].
  destruct (health_moves_within_bounds c 10 12 Hc ltac:(lia)) as [H12 _].
  destruct (health_moves_within_bounds c 10 3 Hc ltac:(lia)) as [_ H3].
  rewrite H7, H8, H12, H3. repeat split; reflexivity.
Defined.

(** ** Reporting an action *)

(** X5. [reportNewAction] for a registered action always goes through, whatever
    the gate says: the time read from the clock is appended to the series of
    the action under the address the circuit has stored (the key ["null"]
    while it has none). An address that was not tracked gets its entry
    first, a missing series is created, every other series is as before, and
    outside the rate store only the clock has been consulted. The action and
    the address are not named like a property of [Object.prototype]: under
    such a name an entry shows the inherited property where it owns no
    series, and none is created. *)
Theorem reportNewAction_appends_one_timestamp
  (s : Manager.t) (circuit : CircuitRef) (c : ProxyCircuit.t) (a : string) :
  circuitStore s !! circuit = Some c ->
  has a (actionLimits s) = true ->
  inherited a = false ->
  inherited (propKey (ProxyCircuit.activeExitNodeIP c)) = false ->
  let ip := propKey (ProxyCircuit.activeExitNodeIP c) in
  exists s',
    reportNewAction (Some a) circuit s = (Ret tt, s')
    /\ seriesOf s' ip a
       = Some (default [] (seriesOf s ip a) ++ [clock (world s) (asked s)])
    /\ (forall ip' a', ip' <> ip -> seriesOf s' ip' a' = seriesOf s ip' a')
    /\ (forall a', a' <> a ->
          seriesOf s' ip a'
          = match get ip (reqStats s) with
            | Some _ => seriesOf s ip a'
            | None => if has a' (actionLimits s) then Some [] else None
            end)
    /\ s' = set_reqStats (reqStats s') (set_asked (S (asked s)) s).
Proof.
  intros Hc Ha _ _ ip.
  unfold reportNewAction.
  rewrite (run_bind _ _ s s c) by (unfold readCircuit; now rewrite Hc).
  fold ip.
  rewrite (run_bind _ _ s s (actionLimits s)) by reflexivity.
  rewrite Ha.
  rewrite (run_bind _ _ s s tt) by reflexivity.
  set (s1 := after (_initializeIPDataIfNotInitialized ip) s).
  rewrite (run_bind _ _ s s1 tt) by reflexivity.
  assert (world s1 = world s /\ asked s1 = asked s) as [Hw Hk].
  { destruct (initialize_frame ip s) as (_ & Hw & Hk & _). now split. }
  rewrite (run_bind _ _ s1 (set_asked (S (asked s1)) s1) (clock (world s) (asked s)))
    by (unfold ask; now rewrite Hw, Hk).
  unfold bind, gets, modify.
  change (reqStats (set_asked (S (asked s1)) s1)) with (reqStats s1).
  assert (forall a', seriesOf s1 ip a'
                     = match get ip (reqStats s) with
                       | Some _ => seriesOf s ip a'
                       | None => if has a' (actionLimits s) then Some [] else None
                       end) as Hentry.
  { intros a'. destruct (get ip (reqStats s)) as [e|] eqn:He.
    - subst s1. unfold after, _initializeIPDataIfNotInitialized, modify; simpl.
      now rewrite He.
    - now apply initialize_creates_registered_series. }
  assert (forall ip' a', ip' <> ip -> seriesOf s1 ip' a' = seriesOf s ip' a')
    as Hother.
  { intros ip' a' Hne. subst s1.
    unfold after, _initializeIPDataIfNotInitialized, modify, seriesOf; simpl.
    destruct (get ip (reqStats s)); [reflexivity|]. simpl.
    now rewrite get_set_ne. }
  assert (get ip (reqStats s1) <> None) as Htracked.
  { subst s1. unfold after, _initializeIPDataIfNotInitialized, modify; simpl.
    destruct (get ip (reqStats s)) eqn:He; simpl; [congruence|].
    rewrite get_set_eq. discriminate. }
  destruct (get ip (reqStats s1)) as [ipStats|] eqn:Hip; [clear Htracked|congruence].
  eexists. split; [reflexivity|].
  assert (get a ipStats = seriesOf s1 ip a) as Hseries
    by (unfold seriesOf; now rewrite Hip).
  split; [|split; [|split]].
  - unfold seriesOf at 1; simpl. rewrite get_set_eq, get_set_eq.
    rewrite Hseries, Hentry.
    destruct (get ip (reqStats s)) eqn:He; [reflexivity|].
    rewrite Ha. unfold seriesOf. now rewrite He.
  - intros ip' a' Hne. rewrite <- Hother by exact Hne.
    unfold seriesOf; simpl. now rewrite get_set_ne.
  - intros a' Hne. rewrite <- Hentry.
    unfold seriesOf; simpl. rewrite get_set_eq, Hip. now apply get_set_ne.
  - simpl. subst s1.
    unfold after, _initializeIPDataIfNotInitialized, modify; simpl.
    destruct (get ip (reqStats s)); reflexivity.
Qed.

Lemma reportNewAction_appends_one_timestamp_witness :
  seriesOf oneProxy "10.0.0.0" "api" = Some []
  /\ exists s',
      reportNewAction (Some "api") 0%nat
        (set_isCurrentlyChanging true oneProxy) = (Ret tt, s')
      /\ seriesOf s' "10.0.0.0" "api" = Some [3000]
      /\ isCurrentlyChanging s' = true.
Proof.
  split; [vm_compute; reflexivity|].
  destruct (circuitStore (set_isCurrentlyChanging true oneProxy) !! 0%nat)
    as [c|] eqn:Hc; [|vm_compute in Hc; discriminate].
  destruct (reportNewAction_appends_one_timestamp
              (set_isCurrentlyChanging true oneProxy) 0%nat c "api" Hc)
    as (s' & Hrun & Hseries & _ & _ & Hrest);
    [vm_compute; reflexivity|reflexivity
    |vm_compute in Hc; injection Hc as <-; vm_compute; reflexivity|].
  exists s'. split; [exact Hrun|].
  vm_compute in Hc. injection Hc as <-.
  split.
  - etransitivity; [exact Hseries|]. vm_compute. reflexivity.
  - rewrite Hrest. reflexivity.
Defined.

(** X6. What [reportNewAction] refuses. Without an action name it fails with
    MissingActionName. For an action that is not registered, and is not
    named like a property of [Object.prototype] (which the test
    [actionName in this.actionLimits] would find), it is meant to fail with
    UnknownAction, but the call that reports it mentions the free identifier
    [actionLimits]: unless the global object has such a property the failure
    is a ReferenceError. Either way nothing has been recorded. *)
Theorem reportNewAction_refuses
  (s : Manager.t) (circuit : CircuitRef) (c : ProxyCircuit.t)
  (actionName : option string) :
  circuitStore s !! circuit = Some c ->
  match actionName with
  | None => True
  | Some a => has a (actionLimits s) = false /\ inherited a = false
  end ->
  reportNewAction actionName circuit s
  = (Raise match actionName with
           | None => Die MissingActionName
           | Some _ =>
               if has "actionLimits" (globalScope s) then Die UnknownAction
               else ReferenceError "actionLimits"
           end, s).
Proof.
  intros Hc Hname. unfold reportNewAction.
  rewrite (run_bind _ _ s s c) by (unfold readCircuit; now rewrite Hc).
  destruct actionName as [a|]; [|reflexivity].
  destruct Hname as [Hname _].
  unfold bind, gets, readGlobal, raise, has in *; simpl.
  destruct (get a (actionLimits s)); [discriminate|].
  now destruct (get "actionLimits" (globalScope s)).
Qed.

Lemma reportNewAction_refuses_witness :
  reportNewAction (Some "login") 0%nat oneProxy
  = (Raise (ReferenceError "actionLimits"), oneProxy)
  /\ reportNewAction None 0%nat oneProxy
     = (Raise (Die MissingActionName), oneProxy).
Proof.
  destruct (circuitStore oneProxy !! 0%nat) as [c|] eqn:Hc;
    [|vm_compute in Hc; discriminate].
  split.
  - apply (reportNewAction_refuses oneProxy 0%nat c (Some "login") Hc).
    split; vm_compute; reflexivity.
  - apply (reportNewAction_refuses oneProxy 0%nat c None Hc). exact I.
Defined.

(** ** What preening removes *)

Lemma shiftExpired_absorbs (now now' window : Z) (series : list Z) :
  now <= now' ->
  shiftExpired now' window (shiftExpired now window series)
  = shiftExpired now' window series.
Proof.
  intros Hle. induction series as [|t rest IH]; simpl; [reflexivity|].
  destruct (now - t >? window) eqn:Hold.
  - rewrite IH.
    replace (now' - t >? window) with true; [reflexivity|].
    symmetry. rewrite Z.gtb_ltb in *. apply Z.ltb_lt. apply Z.ltb_lt in Hold. lia.
  - reflexivity.
Qed.

(** X7. The loop of [_preenOldRequestsForIP] looks at the oldest entry only. It
    removes the longest run of expired entries the series starts with, an
    entry being expired when it is more than the window behind [now] (an
    entry exactly one window old stays), and stops at the first entry that
    is not, whatever comes after it. On a series in chronological order
    that is all the expired entries: what stays is the entries within the
    window. *)
Theorem shiftExpired_drops_expired_head (now window : Z) (series : list Z) :
  (exists dropped,
      series = dropped ++ shiftExpired now window series
      /\ Forall (fun t => window < now - t) dropped
      /\ forall t rest,
           shiftExpired now window series = t :: rest -> now - t <= window)
  /\ (StronglySorted Z.le series ->
      shiftExpired now window series
      = List.filter (fun t => now - t <=? window) series).
Proof.
  split.
  - induction series as [|t rest (dropped & Hsplit & Hold & Hhead)]; simpl.
    + exists []. repeat split; [constructor|discriminate].
    + destruct (now - t >? window) eqn:Ht.
      * exists (t :: dropped). simpl. rewrite <- Hsplit.
        split; [reflexivity|]. split; [|exact Hhead].
        constructor; [|exact Hold].
        rewrite Z.gtb_ltb in Ht. now apply Z.ltb_lt in Ht.
      * exists []. split; [reflexivity|]. split; [constructor|].
        intros t' rest' [= <- <-].
        rewrite Z.gtb_ltb in Ht. now apply Z.ltb_ge in Ht.
  - induction 1 as [|t rest Hsorted IH Hleast]; simpl; [reflexivity|].
    destruct (now - t >? window) eqn:Ht; rewrite Z.gtb_ltb in Ht.
    + apply Z.ltb_lt in Ht.
      replace (now - t <=? window) with false
        by (symmetry; apply Z.leb_gt; lia).
      exact IH.
    + apply Z.ltb_ge in Ht.
      replace (now - t <=? window) with true
        by (symmetry; apply Z.leb_le; lia).
      f_equal. symmetry. apply forallb_filter_id.
      apply forallb_forall. intros t' Hin.
      rewrite List.Forall_forall in Hleast. specialize (Hleast t' Hin).
      apply Z.leb_le. lia.
Qed.

(** An entry that is out of order shields the expired entries behind it. *)
Example shiftExpired_stops_at_a_fresh_head :
  shiftExpired 1000 100 [950; 10; 20] = [950; 10; 20]
  /\ shiftExpired 1000 100 [10; 20; 950] = [950]
  /\ shiftExpired 1000 100 [900; 950] = [900; 950].
Proof. repeat split. Qed.

Lemma preenAction_run (ip : string) (now : Z) (a : string) (s : Manager.t)
  (series : list Z) :
  seriesOf s ip a = Some series ->
  exists s',
    preenAction ip now a s = (Ret tt, s')
    /\ seriesOf s' ip a = Some (preened s now a series)
    /\ (forall ip' a', ip' <> ip \/ a' <> a ->
          seriesOf s' ip' a' = seriesOf s ip' a')
    /\ keys (reqStats s') = keys (reqStats s)
    /\ s' = set_reqStats (reqStats s') s.
Proof.
  unfold seriesOf, preenAction, preened, bind, gets, modify; simpl.
  destruct (get ip (reqStats s)) as [ipStats|] eqn:Hip; [|discriminate].
  intros Ha. rewrite Ha.
  eexists. split; [reflexivity|]. simpl.
  rewrite !get_set_eq. split; [reflexivity|].
  split; [|split; [|reflexivity]].
  - intros ip' a' Hne. rewrite get_set.
    destruct (String.eqb_spec ip' ip) as [->|Hip']; [|reflexivity].
    rewrite Hip. destruct Hne as [Hne|Hne]; [congruence|].
    now apply get_set_ne.
  - rewrite keys_set. unfold has. now rewrite Hip.
Qed.

Lemma preenLoop_run (ip : string) (now : Z) (l : list string) (s : Manager.t) :
  (forall a, In a l -> seriesOf s ip a <> None) ->
  exists s',
    forEach l (preenAction ip now) s = (Ret tt, s')
    /\ (forall a series,
          seriesOf s ip a = Some series ->
          seriesOf s' ip a
          = Some (if existsb (String.eqb a) l then preened s now a series
                  else series))
    /\ (forall a, seriesOf s ip a = None -> seriesOf s' ip a = None)
    /\ (forall ip' a, ip' <> ip -> seriesOf s' ip' a = seriesOf s ip' a)
    /\ keys (reqStats s') = keys (reqStats s)
    /\ s' = set_reqStats (reqStats s') s.
Proof.
  revert s. induction l as [|a l IH]; intros s Hall; simpl.
  - exists s. split; [reflexivity|]. split; [auto|]. split; [auto|].
    split; [auto|]. split; [reflexivity|]. now destruct s.
  - destruct (seriesOf s ip a) as [series|] eqn:Ha;
      [|exfalso; apply (Hall a); [now left|exact Ha]].
    destruct (preenAction_run ip now a s series Ha)
      as (s1 & Hrun & Hmine & Hothers & Hkeys & Hrest).
    assert (forall b series', preened s1 now b series' = preened s now b series')
      as Hpreened by (intros; rewrite Hrest; reflexivity).
    destruct (IH s1) as (s2 & Hrun2 & Hseries2 & Hnone2 & Hother2 & Hkeys2 & Hrest2).
    { intros b Hb. destruct (String.eqb_spec b a) as [->|Hne].
      - rewrite Hmine. discriminate.
      - rewrite Hothers by (now right). apply Hall. now right. }
    exists s2. split; [unfold bind; now rewrite Hrun|].
    split; [|split; [|split; [|split]]].
    + intros b series' Hb.
      destruct (String.eqb_spec b a) as [->|Hne]; simpl.
      * rewrite Ha in Hb. injection Hb as <-.
        rewrite (Hseries2 a _ Hmine), Hpreened.
        destruct (existsb (String.eqb a) l); [|reflexivity].
        f_equal. unfold preened.
        destruct (get a (actionResetTimes s)); [|reflexivity].
        apply shiftExpired_absorbs. lia.
      * rewrite (Hseries2 b series'), Hpreened; [reflexivity|].
        rewrite Hothers by (now right). exact Hb.
    + intros b Hb. apply Hnone2.
      destruct (String.eqb_spec b a) as [->|Hne]; [congruence|].
      now rewrite Hothers by (now right).
    + intros ip' b Hne. rewrite Hother2 by exact Hne. apply Hothers. now left.
    + congruence.
    + rewrite Hrest2 at 1. rewrite Hrest. reflexivity.
Qed.

Lemma preened_without_window (s : Manager.t) (now : Z) (a : string)
  (series : list Z) :
  existsb (String.eqb a) (keys (actionResetTimes s)) = false ->
  preened s now a series = series.
Proof.
  rewrite existsb_keys. unfold has, preened.
  now destruct (get a (actionResetTimes s)).
Qed.

(** The whole of [_preenOldRequestsForIP] on an address that has every
    series it expects. *)
Lemma preen_run (ip : string) (s : Manager.t) :
  hasEverySeries s ip ->
  exists s',
    _preenOldRequestsForIP ip s = (Ret tt, s')
    /\ (forall a series,
          seriesOf s ip a = Some series ->
          seriesOf s' ip a = Some (preened s (clock (world s) (asked s)) a series))
    /\ (forall a, seriesOf s ip a = None -> seriesOf s' ip a = None)
    /\ (forall ip' a, ip' <> ip -> seriesOf s' ip' a = seriesOf s ip' a)
    /\ keys (reqStats s') = keys (reqStats s)
    /\ s' = set_reqStats (reqStats s') (set_asked (S (asked s)) s).
Proof.
  intros Hall.
  set (s0 := set_asked (S (asked s)) s).
  set (now := clock (world s) (asked s)).
  destruct (preenLoop_run ip now (keys (actionResetTimes s)) s0)
    as (s' & Hrun & Hseries & Hnone & Hother & Hkeys & Hrest).
  { intros a Ha. apply (Hall a Ha). }
  exists s'. split; [exact Hrun|].
  split; [|auto].
  intros a series Ha.
  rewrite (Hseries a series Ha).
  change (preened s0 now a series) with (preened s now a series).
  destruct (existsb (String.eqb a) (keys (actionResetTimes s))) eqn:Hin;
    [reflexivity|].
  now rewrite preened_without_window.
Qed.

(** X8. One preen, and another after it. On an address that has a series for
    every action with a window, [_preenOldRequestsForIP] returns, and each
    series of the address is left without its expired head, as of the time
    the call read. A second call, if the clock has not gone backwards, leaves
    what a single call at the later time would have left; at the same time it
    changes nothing. The other addresses are not touched, no address is
    added or removed, and outside the rate store only the clock has been
    consulted. *)
Theorem preening_again_absorbs_the_first (s : Manager.t) (ip : string) :
  hasEverySeries s ip ->
  let now := clock (world s) (asked s) in
  let later := clock (world s) (S (asked s)) in
  now <= later ->
  exists s1 s2,
    _preenOldRequestsForIP ip s = (Ret tt, s1)
    /\ _preenOldRequestsForIP ip s1 = (Ret tt, s2)
    /\ (forall a series,
          seriesOf s ip a = Some series ->
          seriesOf s1 ip a = Some (preened s now a series)
          /\ seriesOf s2 ip a = Some (preened s later a series))
    /\ (forall ip' a,
          ip' <> ip ->
          seriesOf s1 ip' a = seriesOf s ip' a
          /\ seriesOf s2 ip' a = seriesOf s ip' a)
    /\ keys (reqStats s2) = keys (reqStats s)
    /\ s1 = set_reqStats (reqStats s1) (set_asked (S (asked s)) s)
    /\ s2 = set_reqStats (reqStats s2) (set_asked (S (S (asked s))) s).
Proof.
  intros Hall now later Hclock.
  destruct (preen_run ip s Hall)
    as (s1 & Hrun1 & Hseries1 & Hnone1 & Hother1 & Hkeys1 & Hrest1).
  assert (hasEverySeries s1 ip) as Hall1.
  { intros a Ha. rewrite Hrest1 in Ha. simpl in Ha.
    destruct (seriesOf s ip a) as [series|] eqn:Hs; [|now apply Hall in Hs].
    rewrite (Hseries1 a series Hs). discriminate. }
  destruct (preen_run ip s1 Hall1)
    as (s2 & Hrun2 & Hseries2 & Hnone2 & Hother2 & Hkeys2 & Hrest2).
  assert (clock (world s1) (asked s1) = later) as Hlater
    by (rewrite Hrest1; reflexivity).
  assert (forall t a series, preened s1 t a series = preened s t a series)
    as Hsame by (intros; rewrite Hrest1; reflexivity).
  exists s1, s2. split; [exact Hrun1|]. split; [exact Hrun2|].
  split; [|split; [|split; [|split]]].
  - intros a series Ha. split; [now apply Hseries1|].
    rewrite (Hseries2 a _ (Hseries1 a series Ha)), Hlater, Hsame.
    f_equal. unfold preened.
    destruct (get a (actionResetTimes s)); [|reflexivity].
    now apply shiftExpired_absorbs.
  - intros ip' a Hne. split; [now apply Hother1|].
    rewrite Hother2 by exact Hne. now apply Hother1.
  - congruence.
  - exact Hrest1.
  - rewrite Hrest2 at 1. rewrite Hrest1. reflexivity.
Qed.

Lemma preening_again_absorbs_the_first_witness :
  seriesOf threeBursts "10.0.0.0" "burst" = Some [3000; 4000; 5000]
  /\ exists s1 s2,
      _preenOldRequestsForIP "10.0.0.0" threeBursts = (Ret tt, s1)
      /\ _preenOldRequestsForIP "10.0.0.0" s1 = (Ret tt, s2)
      /\ seriesOf s1 "10.0.0.0" "burst" = Some [4000; 5000]
      /\ seriesOf s2 "10.0.0.0" "burst" = Some [5000].
Proof.
  split; [vm_compute; reflexivity|].
  destruct (preening_again_absorbs_the_first threeBursts "10.0.0.0")
    as (s1 & s2 & Hrun1 & Hrun2 & Hseries & _).
  - intros a Ha. vm_compute in Ha. destruct Ha as [<-|[]].
    vm_compute. discriminate.
  - vm_compute. discriminate.
  - exists s1, s2. split; [exact Hrun1|]. split; [exact Hrun2|].
    destruct (Hseries "burst" [3000; 4000; 5000]) as [H1 H2];
      [vm_compute; reflexivity|].
    split.
    + etransitivity; [exact H1|]. vm_compute. reflexivity.
    + etransitivity; [exact H2|]. vm_compute. reflexivity.
Defined.

(** ** Availability is a count *)

(** X9. Past the tests for a fresh and for a blacklisted address,
    [_isIPAvailableForRequests] preens the address and compares the length
    of what is left of the action's series with the limit of the action: the
    address is available exactly when fewer entries than the limit remain.
    An action with no limit is never available. The preened series stay in
    the store. *)
Theorem isIPAvailable_counts_the_window
  (s : Manager.t) (ip a : string) (series : list Z) :
  default false (get ip (blacklistedIPs s)) = false ->
  hasEverySeries s ip ->
  seriesOf s ip a = Some series ->
  let kept := preened s (clock (world s) (asked s)) a series in
  exists s',
    _isIPAvailableForRequests ip (Some a) s
    = (Ret match get a (actionLimits s) with
           | Some limit => Z.of_nat (length kept) <? limit
           | None => false
           end, s')
    /\ seriesOf s' ip a = Some kept
    /\ s' = set_reqStats (reqStats s') (set_asked (S (asked s)) s).
Proof.
  intros Hblack Hall Ha kept.
  destruct (preen_run ip s Hall) as (s' & Hrun & Hseries & _ & _ & _ & Hrest).
  specialize (Hseries a series Ha). fold kept in Hseries.
  exists s'. split; [|split; [exact Hseries|exact Hrest]].
  unfold _isIPAvailableForRequests.
  rewrite (run_bind _ _ s s (reqStats s)) by reflexivity.
  rewrite (run_bind _ _ s s (blacklistedIPs s)) by reflexivity.
  unfold seriesOf in Ha.
  destruct (get ip (reqStats s)) as [entry|]; [|discriminate].
  rewrite Hblack.
  rewrite (run_bind _ _ s s' tt) by exact Hrun.
  unfold bind, gets, ret.
  unfold seriesOf in Hseries.
  destruct (get ip (reqStats s')) as [entry'|]; [|discriminate].
  rewrite Hseries. rewrite Hrest at 1. reflexivity.
Qed.

Lemma isIPAvailable_counts_the_window_witness :
  get "burst" (actionLimits threeBursts) = Some 2
  /\ seriesOf threeBursts "10.0.0.0" "burst" = Some [3000; 4000; 5000]
  /\ (exists s',
        _isIPAvailableForRequests "10.0.0.0" (Some "burst") threeBursts
        = (Ret false, s')
        /\ seriesOf s' "10.0.0.0" "burst" = Some [4000; 5000]
        /\ exists s'',
            _isIPAvailableForRequests "10.0.0.0" (Some "burst") s'
            = (Ret true, s'')
            /\ seriesOf s'' "10.0.0.0" "burst" = Some [5000]).
Proof.
  split; [vm_compute; reflexivity|]. split; [vm_compute; reflexivity|].
  destruct (isIPAvailable_counts_the_window threeBursts "10.0.0.0" "burst"
              [3000; 4000; 5000])
    as (s' & Hrun & Hseries & Hrest).
  - vm_compute. reflexivity.
  - intros a Ha. vm_compute in Ha. destruct Ha as [<-|[]].
    vm_compute. discriminate.
  - vm_compute. reflexivity.
  - exists s'. split; [exact Hrun|].
    assert (seriesOf s' "10.0.0.0" "burst" = Some [4000; 5000]) as Hseries'
      by (etransitivity; [exact Hseries|vm_compute; reflexivity]).
    split; [exact Hseries'|].
    destruct (isIPAvailable_counts_the_window s' "10.0.0.0" "burst" [4000; 5000])
      as (s'' & Hrun' & Hseries'' & _).
    + rewrite Hrest. vm_compute. reflexivity.
    + intros a Ha. rewrite Hrest in Ha. vm_compute in Ha. destruct Ha as [<-|[]].
      rewrite Hseries'. discriminate.
    + exact Hseries'.
    + exists s''. split.
      * etransitivity; [exact Hrun'|]. rewrite Hrest. vm_compute. reflexivity.
      * etransitivity; [exact Hseries''|]. rewrite Hrest. vm_compute. reflexivity.
Defined.

(** ** Compaction of the rate store *)

Lemma preenAction_keeps_addresses (ip : string) (now : Z) (a : string) :
  respects (keeps (fun s => keys (reqStats s))) anyExit (preenAction ip now a).
Proof.
  intros s. split; [|intros; exact I].
  unfold keeps, preenAction, bind, gets, modify, raise; simpl.
  destruct (get ip (reqStats s)) as [ipStats|] eqn:Hip; [|reflexivity].
  destruct (get a ipStats); [|reflexivity]. simpl.
  rewrite keys_set. unfold has. now rewrite Hip.
Qed.

Lemma preen_keeps_addresses (ip : string) :
  respects (keeps (fun s => keys (reqStats s))) anyExit (_preenOldRequestsForIP ip).
Proof.
  unfold _preenOldRequestsForIP.
  apply respects_bind; [typeclasses eauto|respects_prim keeps_side|intros now].
  apply respects_bind; [typeclasses eauto|apply respects_gets; typeclasses eauto|].
  intros windows. apply respects_forEach; [typeclasses eauto|].
  intros a. apply preenAction_keeps_addresses.
Qed.

Lemma preen_control (ip : string) :
  respects (keeps (fun s => (control s, circuits s))) anyExit
    (_preenOldRequestsForIP ip).
Proof. respects_with keeps_side. Qed.

(** The filter of [freeOldIPData] over a pool that is not empty. *)
Lemma holders_of_a_pool (ip : string) (objs : list ProxyCircuit.t) (s : Manager.t) :
  objs <> [] ->
  filterM (fun c =>
             cur <- circuit_getCurrentIP c ;;
             ret (String.eqb ip (propKey cur))) objs s
  = (Raise (TypeError "c.getCurrentIP is not a function"), s).
Proof. destruct objs as [|c objs]; [congruence|reflexivity]. Qed.

(** One turn of the loop of [freeOldIPData], on a tracked address and a pool
    that is not empty. *)
Lemma freeOldIP_stops_at_the_pool (ip : string) (s : Manager.t) :
  get ip (reqStats s) <> None ->
  circuits s <> [] ->
  poolIsStored s ->
  exists msg s',
    freeOldIP ip s = (Raise (TypeError msg), s')
    /\ keys (reqStats s') = keys (reqStats s)
    /\ control s' = control s.
Proof.
  intros Htracked Hpool Hstored.
  unfold freeOldIP.
  rewrite (run_bind _ _ s s (reqStats s)) by reflexivity.
  destruct (get ip (reqStats s)) as [entry|]; [clear Htracked|congruence].
  destruct (preen_keeps_addresses ip s) as [Hkeys _].
  destruct (preen_control ip s) as [Hctl _].
  destruct (preen_returns_iff ip s) as [_ [(s1 & Hrun)|(msg & s1 & Hrun)]].
  - rewrite Hrun in Hkeys, Hctl. simpl in Hkeys, Hctl.
    unfold keeps in Hkeys, Hctl.
    assert (circuits s1 = circuits s) as Hcircuits by congruence.
    assert (control s1 = control s) as Hctl' by congruence.
    clear Hctl. rename Hctl' into Hctl.
    destruct (mapM_readCircuit (circuits s1) s1) as (objs & Hobjs & Hall).
    { intros r Hr. rewrite Hcircuits in Hr.
      assert (circuitStore s1 = circuitStore s) as ->
        by (unfold control in Hctl; congruence).
      now apply Hstored. }
    assert (objs <> []) as Hne.
    { intros ->. inversion Hall as [Hnil|]. rewrite Hcircuits in Hnil.
      now symmetry in Hnil. }
    exists "c.getCurrentIP is not a function", s1.
    split; [|now split].
    rewrite (run_bind _ _ s s1 tt) by exact Hrun.
    rewrite (run_bind _ _ s1 s1 (circuits s1)) by reflexivity.
    rewrite (run_bind _ _ s1 s1 objs) by exact Hobjs.
    apply run_raise. now apply holders_of_a_pool.
  - rewrite Hrun in Hkeys, Hctl. simpl in Hkeys, Hctl.
    unfold keeps in Hkeys, Hctl.
    assert (control s1 = control s) as Hctl' by congruence.
    exists msg, s1. split; [|now split].
    now apply run_raise.
Qed.

(** With a tracked address and a circuit in the pool, [freeOldIPData] ends in
    a TypeError at the first address. *)
Lemma freeOldIPData_stops_at_the_pool (s : Manager.t) :
  reqStats s <> [] ->
  circuits s <> [] ->
  poolIsStored s ->
  exists msg s',
    freeOldIPData s = (Raise (TypeError msg), s')
    /\ keys (reqStats s') = keys (reqStats s)
    /\ control s' = control s.
Proof.
  intros Hstats Hpool Hstored.
  destruct (freeOldIP_stops_at_the_pool
              (match keys (reqStats s) with ip :: _ => ip | [] => "" end) s)
    as (msg & s' & Hrun & Hrest); [|exact Hpool|exact Hstored|].
  { destruct (reqStats s) as [|[ip entry] stats]; [congruence|].
    cbn [keys map fst]. rewrite get_head. discriminate. }
  exists msg, s'. split; [|exact Hrest].
  unfold freeOldIPData.
  rewrite (run_bind _ _ s s (keys (reqStats s))) by reflexivity.
  destruct (reqStats s) as [|[ip entry] stats]; [congruence|].
  cbn [keys map fst forEach] in *. unfold bind. now rewrite Hrun.
Qed.

(** X10. [freeOldIPData] cannot finish while the pool has a circuit. Its filter
    over the pool calls [getCurrentIP] on a circuit, which is a method of
    clients and not of circuits. With no tracked address the call returns at
    once. With at least one tracked address and at least one circuit in the
    pool it ends in a TypeError at the first address: no address has been
    removed, and the circuits, the gate, the waiters and the tick queue are
    as before. *)
Theorem freeOldIPData_faults_on_a_pool (s : Manager.t) :
  (reqStats s = [] -> freeOldIPData s = (Ret tt, s))
  /\ (reqStats s <> [] ->
      circuits s <> [] ->
      poolIsStored s ->
      exists msg s',
        freeOldIPData s = (Raise (TypeError msg), s')
        /\ keys (reqStats s') = keys (reqStats s)
        /\ control s' = control s).
Proof.
  split.
  - intros Hempty. unfold freeOldIPData, bind, gets. now rewrite Hempty.
  - apply freeOldIPData_stops_at_the_pool.
Qed.

Lemma freeOldIPData_faults_on_a_pool_witness :
  keys (reqStats oneProxy) = ["10.0.0.0"]
  /\ exists msg s', freeOldIPData oneProxy = (Raise (TypeError msg), s').
Proof.
  split; [vm_compute; reflexivity|].
  destruct (freeOldIPData_faults_on_a_pool oneProxy) as [_ Hfaults].
  destruct Hfaults as (msg & s' & Hrun & _).
  - vm_compute. discriminate.
  - vm_compute. discriminate.
  - intros r Hr. vm_compute in Hr. destruct Hr as [<-|[]]. vm_compute. eauto.
  - exists msg, s'. exact Hrun.
Defined.

Lemma length_set_ge {V} (k : string) (v : V) (o : JsObj V) :
  (length (keys o) <= length (keys (set k v o)))%nat.
Proof.
  rewrite keys_set. destruct (has k o); [lia|]. rewrite length_app. lia.
Qed.

(** [_onChangedIP] when compaction is due and the pool has a circuit. *)
Lemma onChangedIP_on_a_full_store
  (s : Manager.t) (circuit : CircuitRef) (c : ProxyCircuit.t)
  (newIp : option string) :
  circuitStore s !! circuit = Some c ->
  truthy_str newIp = true ->
  (500 < length (keys (reqStats s)))%nat ->
  circuits s <> [] ->
  poolIsStored s ->
  exists msg s',
    _onChangedIP circuit newIp s = (Raise (TypeError msg), s')
    /\ circuitStore s' !! circuit
       = Some (ProxyCircuit.with_exit newIp (clock (world s) (asked s)) c)
    /\ isCurrentlyChanging s' = false
    /\ pendingCallbacks s' = pendingCallbacks s
    /\ nextTicks s' = nextTicks s
    /\ get (propKey newIp) (reqStats s') <> None.
Proof.
  intros Hc Hip Hfull Hpool Hstored.
  rewrite (onChangedIP_unfold s circuit c newIp Hc Hip).
  destruct (stamped_facts s circuit c newIp Hc)
    as (Hstore & Hgate & Hqueue & Hticks & _).
  assert (length (keys (reqStats s))
          <= length (keys (reqStats (stamped circuit newIp c s))))%nat as Hlen.
  { unfold stamped, after, _initializeIPDataIfNotInitialized, modify; simpl.
    destruct (get (propKey newIp) (reqStats s)); simpl; [lia|].
    apply length_set_ge. }
  assert (get (propKey newIp) (reqStats (stamped circuit newIp c s)) <> None)
    as Htracked.
  { unfold stamped, after, _initializeIPDataIfNotInitialized, modify; simpl.
    destruct (get (propKey newIp) (reqStats s)) eqn:He; simpl; [congruence|].
    rewrite get_set_eq. discriminate. }
  assert (circuits (stamped circuit newIp c s) = circuits s) as Hcircuits.
  { unfold stamped, after, _initializeIPDataIfNotInitialized, modify; simpl.
    now destruct (get (propKey newIp) (reqStats s)). }
  assert (poolIsStored (stamped circuit newIp c s)) as Hstored4.
  { intros r Hr. rewrite Hcircuits in Hr.
    assert (length (circuitStore (stamped circuit newIp c s))
            = length (circuitStore s)) as Hsize.
    { unfold stamped, after, _initializeIPDataIfNotInitialized, modify; simpl.
      destruct (get (propKey newIp) (reqStats s)); simpl;
        now rewrite length_insert. }
    apply lookup_lt_is_Some. rewrite Hsize.
    apply lookup_lt_is_Some. now apply Hstored. }
  remember (stamped circuit newIp c s) as s4 eqn:Hs4. clear Hs4.
  destruct (freeOldIPData_stops_at_the_pool s4) as (msg & s5 & Hrun & Hkeys & Hctl).
  - intros Hempty. rewrite Hempty in Hlen. simpl in Hlen. lia.
  - now rewrite Hcircuits.
  - exact Hstored4.
  - exists msg, s5.
    unfold control in Hctl. injection Hctl as Hstore5 Hgate5 Hqueue5 Hticks5.
    split; [|split; [congruence|split; [congruence|split; [congruence|split;
      [congruence|]]]]].
    + cbv beta iota delta [bind _shouldPreenIPData gets].
      replace (500 <? length (keys (reqStats s4)))%nat with true
        by (symmetry; apply Nat.ltb_lt; lia).
      now rewrite Hrun.
    + apply get_in_keys. rewrite Hkeys. now apply get_in_keys.
Qed.

(** X11. Once the rate store tracks more than 500 addresses and the pool has a
    circuit, no change of address can be completed. [_onChangedIP] gives the
    new address its entry, lowers the gate, writes the new address and the
    time read from the clock into [activeExitNodeIP] and [lastIPPollTime] of
    the circuit, and then turns to compaction, which ends in a TypeError;
    the loop that releases the waiters is never reached, so the callers
    parked on the queue stay there. *)
Theorem onChangedIP_strands_waiters_on_a_full_store
  (s : Manager.t) (circuit : CircuitRef) (c : ProxyCircuit.t)
  (newIp : option string) :
  circuitStore s !! circuit = Some c ->
  truthy_str newIp = true ->
  (500 < length (keys (reqStats s)))%nat ->
  circuits s <> [] ->
  poolIsStored s ->
  exists msg s' c',
    _onChangedIP circuit newIp s = (Raise (TypeError msg), s')
    /\ circuitStore s' !! circuit = Some c'
    /\ ProxyCircuit.activeExitNodeIP c' = newIp
    /\ ProxyCircuit.lastIPPollTime c' = clock (world s) (asked s)
    /\ c' = ProxyCircuit.with_exit newIp (clock (world s) (asked s)) c
    /\ isCurrentlyChanging s' = false
    /\ pendingCallbacks s' = pendingCallbacks s
    /\ nextTicks s' = nextTicks s
    /\ get (propKey newIp) (reqStats s') <> None.
Proof.
  intros Hc Hip Hfull Hpool Hstored.
  destruct (onChangedIP_on_a_full_store s circuit c newIp Hc Hip Hfull Hpool Hstored)
    as (msg & s' & Hrun & Hstore & Hrest).
  exists msg, s', (ProxyCircuit.with_exit newIp (clock (world s) (asked s)) c).
  split; [exact Hrun|]. split; [exact Hstore|].
  split; [reflexivity|]. split; [reflexivity|]. split; [reflexivity|].
  exact Hrest.
Qed.


Lemma onChangedIP_strands_waiters_on_a_full_store_witness :
  length (keys (reqStats crowded)) = 502%nat
  /\ pendingCallbacks (set_pendingCallbacks [7; 8]%nat crowded) = [7; 8]%nat
  /\ (ProxyCircuit.lastIPPollTime
       <$> circuitStore (set_pendingCallbacks [7; 8]%nat crowded) !! 0%nat)
     = Some 2000
  /\ exists msg s',
      _onChangedIP 0%nat (Some "10.9.9.9") (set_pendingCallbacks [7; 8]%nat crowded)
      = (Raise (TypeError msg), s')
      /\ (ProxyCircuit.activeExitNodeIP <$> circuitStore s' !! 0%nat)
         = Some (Some "10.9.9.9")
      /\ (ProxyCircuit.lastIPPollTime <$> circuitStore s' !! 0%nat)
         = Some 3000
      /\ isCurrentlyChanging s' = false
      /\ pendingCallbacks s' = [7; 8]%nat
      /\ nextTicks s' = [].
Proof.
  split; [vm_compute; reflexivity|]. split; [reflexivity|].
  split; [vm_compute; reflexivity|].
  set (s := set_pendingCallbacks [7; 8]%nat crowded).
  set (c := ProxyCircuit.setPollingClient (Some 0%nat)
              (ProxyCircuit.with_exit (Some "10.0.0.0") 2000
                 (ProxyCircuit.new [("host", VStr "proxy-a")]))).
  assert (circuitStore s !! 0%nat = Some c) as Hc by (vm_compute; reflexivity).
  assert (circuits s = [0%nat]) as Hpool by (vm_compute; reflexivity).
  assert (nextTicks s = []) as Hnone by (vm_compute; reflexivity).
  assert (clock (world s) (asked s) = 3000) as Hnow by (vm_compute; reflexivity).
  destruct (onChangedIP_strands_waiters_on_a_full_store s 0%nat c (Some "10.9.9.9") Hc)
    as (msg & s' & c' & Hrun & Hstore & Hexit & Hstamp & _ & Hgate & Hqueue
        & Hticks & _).
  - reflexivity.
  - apply Nat.ltb_lt. vm_compute. reflexivity.
  - rewrite Hpool. discriminate.
  - intros r Hr. rewrite Hpool in Hr. destruct Hr as [<-|[]].
    rewrite Hc. eauto.
  - exists msg, s'. split; [exact Hrun|].
    split; [rewrite Hstore; simpl; now rewrite Hexit|].
    split; [rewrite Hstore; simpl; now rewrite Hstamp, Hnow|].
    split; [exact Hgate|].
    split; [exact Hqueue|]. now rewrite Hticks.
Defined.

(** ** Drawing from the pool *)

Lemma areAllCircuitsUnhealthy_run (s : Manager.t) (objs : list ProxyCircuit.t) :
  Forall2 (fun r c => circuitStore s !! r = Some c) (circuits s) objs ->
  areAllCircuitsUnhealthy s
  = (Ret (length (List.filter ProxyCircuit.isHealthy objs) =? 0)%nat, s).
Proof.
  intros Hobjs. unfold areAllCircuitsUnhealthy, poolObjects.
  rewrite (run_bind _ _ s s objs); [reflexivity|].
  rewrite (run_bind _ _ s s (circuits s)) by reflexivity.
  now apply mapM_readCircuit_objs.
Qed.

Lemma draw_is_in_the_pool (s : Manager.t) (objs : list ProxyCircuit.t) (u : nat) :
  (1 < length (circuits s))%nat ->
  Forall2 (fun r c => circuitStore s !! r = Some c) (circuits s) objs ->
  exists r c,
    circuits s !! (u mod length (circuits s))%nat = Some r
    /\ circuitStore s !! r = Some c
    /\ In r (circuits s) /\ In c objs.
Proof.
  intros Hlen Hobjs.
  destruct (lookup_lt_is_Some_2 (circuits s) (u mod length (circuits s))%nat)
    as [r Hr]; [apply Nat.mod_upper_bound; lia|].
  destruct (Forall2_lookup_l _ _ _ _ _ Hobjs Hr) as (c & Hc & Hrc).
  exists r, c. split; [exact Hr|]. split; [exact Hrc|].
  split; apply list_elem_of_In, list_elem_of_lookup; eauto.
Qed.

(** One turn of the loop of [_getRandomCircuit] with a circuit to leave out,
    for the draw [r] and the objects the addresses name. *)
Lemma randomCircuitLoop_turn
  (s : Manager.t) (fuel : nat) (omit r : CircuitRef) (co c : ProxyCircuit.t)
  (skip : bool) (objs : list ProxyCircuit.t) :
  Forall2 (fun r c => circuitStore s !! r = Some c) (circuits s) objs ->
  circuitStore s !! omit = Some co ->
  circuits s !! (random (world s) (asked s) mod length (circuits s))%nat = Some r ->
  circuitStore s !! r = Some c ->
  let s1 := set_asked (S (asked s)) s in
  let retry :=
    if String.eqb (ProxyCircuit.getIdentifier co) (ProxyCircuit.getIdentifier c)
    then randomCircuitLoop fuel (Some omit) skip s1
    else (Ret (Some r), s1) in
  randomCircuitLoop (S fuel) (Some omit) skip s
  = if skip && negb (ProxyCircuit.isHealthy c)
    then
      if (length (List.filter ProxyCircuit.isHealthy objs) =? 0)%nat
      then (Raise (Die AllCircuitsUnhealthy), s1)
      else if ProxyCircuit.isHealthy co then (Ret (Some omit), s1) else retry
    else retry.
Proof.
  intros Hobjs Ho Hr Hc s1 retry.
  assert ((again <- (omit' <- readCircuit omit ;;
                     ret (String.eqb (ProxyCircuit.getIdentifier omit')
                            (ProxyCircuit.getIdentifier c))) ;;
           if again then randomCircuitLoop fuel (Some omit) skip
           else ret (Some r)) s1 = retry) as Hretry.
  { subst retry.
    rewrite (run_bind _ _ s1 s1
               (String.eqb (ProxyCircuit.getIdentifier co)
                  (ProxyCircuit.getIdentifier c))).
    - now destruct (String.eqb _ _).
    - rewrite (run_bind _ _ s1 s1 co); [reflexivity|].
      unfold readCircuit. simpl. now rewrite Ho. }
  simpl randomCircuitLoop.
  rewrite (run_bind _ _ s s (circuits s)) by reflexivity.
  rewrite (run_bind _ _ s s1 (random (world s) (asked s))) by reflexivity.
  rewrite Hr.
  rewrite (run_bind _ _ s1 s1 c) by (unfold readCircuit; simpl; now rewrite Hc).
  destruct (skip && negb (ProxyCircuit.isHealthy c)).
  - destruct (length (List.filter ProxyCircuit.isHealthy objs) =? 0)%nat eqn:Hbad.
    + apply run_raise. rewrite (run_bind _ _ s1 s1 true).
      * reflexivity.
      * rewrite (areAllCircuitsUnhealthy_run s1 objs Hobjs). now rewrite Hbad.
    + destruct (ProxyCircuit.isHealthy co) eqn:Hco.
      * rewrite (run_bind _ _ s1 s1 (Some omit)); [reflexivity|].
        rewrite (run_bind _ _ s1 s1 false)
          by (rewrite (areAllCircuitsUnhealthy_run s1 objs Hobjs); now rewrite Hbad).
        rewrite (run_bind _ _ s1 s1 co) by (unfold readCircuit; simpl; now rewrite Ho).
        now rewrite Hco.
      * rewrite (run_bind _ _ s1 s1 None); [exact Hretry|].
        rewrite (run_bind _ _ s1 s1 false)
          by (rewrite (areAllCircuitsUnhealthy_run s1 objs Hobjs); now rewrite Hbad).
        rewrite (run_bind _ _ s1 s1 co) by (unfold readCircuit; simpl; now rewrite Ho).
        now rewrite Hco.
  - rewrite (run_bind _ _ s1 s1 None) by reflexivity. exact Hretry.
Qed.

Lemma getRandomCircuit_large_pool
  (s : Manager.t) (fuel : nat) (omit : option CircuitRef) (skip : bool) :
  (1 < length (circuits s))%nat ->
  _getRandomCircuit fuel omit skip s = randomCircuitLoop fuel omit skip s.
Proof.
  intros Hlen. unfold _getRandomCircuit.
  rewrite (run_bind _ _ s s (circuits s)) by reflexivity.
  now replace (length (circuits s) <=? 1)%nat with false
    by (symmetry; apply Nat.leb_gt; lia).
Qed.

Lemma randomCircuitLoop_result
  (fuel : nat) (omit : CircuitRef) (co : ProxyCircuit.t) (skip : bool)
  (objs : list ProxyCircuit.t) :
  forall s found s',
    (1 < length (circuits s))%nat ->
    Forall2 (fun r c => circuitStore s !! r = Some c) (circuits s) objs ->
    circuitStore s !! omit = Some co ->
    randomCircuitLoop fuel (Some omit) skip s = (Ret found, s') ->
    exists r cr,
      found = Some r
      /\ circuitStore s !! r = Some cr
      /\ ((r = omit /\ skip = true /\ ProxyCircuit.isHealthy co = true)
          \/ (In r (circuits s)
              /\ ProxyCircuit.getIdentifier cr <> ProxyCircuit.getIdentifier co))
      /\ (skip = true -> ProxyCircuit.isHealthy co = true ->
          ProxyCircuit.isHealthy cr = true)
      /\ s' = set_asked (asked s') s
      /\ (asked s < asked s')%nat.
Proof.
  induction fuel as [|fuel IH]; intros s found s' Hlen Hobjs Ho Hrun;
    [discriminate|].
  destruct (draw_is_in_the_pool s objs (random (world s) (asked s)) Hlen Hobjs)
    as (r & c & Hr & Hc & Hin & _).
  rewrite (randomCircuitLoop_turn s fuel omit r co c skip objs Hobjs Ho Hr Hc)
    in Hrun.
  set (s1 := set_asked (S (asked s)) s) in *.
  assert ((if String.eqb (ProxyCircuit.getIdentifier co) (ProxyCircuit.getIdentifier c)
           then randomCircuitLoop fuel (Some omit) skip s1
           else (Ret (Some r), s1)) = (Ret found, s') ->
          (skip = true -> ProxyCircuit.isHealthy co = true ->
           ProxyCircuit.isHealthy c = true) ->
          exists r cr,
            found = Some r
            /\ circuitStore s !! r = Some cr
            /\ ((r = omit /\ skip = true /\ ProxyCircuit.isHealthy co = true)
                \/ (In r (circuits s)
                    /\ ProxyCircuit.getIdentifier cr
                       <> ProxyCircuit.getIdentifier co))
            /\ (skip = true -> ProxyCircuit.isHealthy co = true ->
                ProxyCircuit.isHealthy cr = true)
            /\ s' = set_asked (asked s') s
            /\ (asked s < asked s')%nat) as Hretry.
  { destruct (String.eqb_spec (ProxyCircuit.getIdentifier co)
                (ProxyCircuit.getIdentifier c)) as [Hid|Hid]; intros Hrun' Hhealthy.
    - destruct (IH s1 found s' Hlen Hobjs Ho Hrun')
        as (r' & cr' & -> & Hcr' & Hcase & Hh & Hs' & Hk).
      exists r', cr'. split; [reflexivity|]. split; [exact Hcr'|].
      split; [exact Hcase|]. split; [exact Hh|].
      split; [rewrite Hs' at 1; reflexivity|]. simpl in Hk. lia.
    - injection Hrun' as <- <-.
      exists r, c. split; [reflexivity|]. split; [exact Hc|].
      split; [right; split; [exact Hin|congruence]|].
      split; [exact Hhealthy|]. split; [reflexivity|]. simpl. lia. }
  destruct skip; simpl in Hrun.
  - destruct (ProxyCircuit.isHealthy c) eqn:Hhc; simpl in Hrun.
    + apply Hretry; [exact Hrun|auto].
    + destruct (length (List.filter ProxyCircuit.isHealthy objs) =? 0)%nat;
        [discriminate|].
      destruct (ProxyCircuit.isHealthy co) eqn:Hco.
      * injection Hrun as <- <-.
        exists omit, co. split; [reflexivity|]. split; [exact Ho|].
        split; [left; auto|]. split; [auto|]. split; [reflexivity|]. simpl. lia.
      * apply Hretry; [exact Hrun|]. intros _ Hco'. congruence.
  - apply Hretry; [exact Hrun|]. discriminate.
Qed.

(** X12. A pool on which every circuit is unhealthy: a call that asks for
    unhealthy circuits to be skipped ends at its first draw in
    AllCircuitsUnhealthy, whatever circuit it was to leave out. It never
    spins. *)
Theorem getRandomCircuit_dies_when_all_unhealthy
  (s : Manager.t) (fuel : nat) (omit : option CircuitRef)
  (objs : list ProxyCircuit.t) :
  (1 < length (circuits s))%nat ->
  Forall2 (fun r c => circuitStore s !! r = Some c) (circuits s) objs ->
  Forall (fun c => ProxyCircuit.isHealthy c = false) objs ->
  _getRandomCircuit (S fuel) omit true s
  = (Raise (Die AllCircuitsUnhealthy), set_asked (S (asked s)) s).
Proof.
  intros Hlen Hobjs Hsick.
  destruct (draw_is_in_the_pool s objs (random (world s) (asked s)) Hlen Hobjs)
    as (r & c & Hr & Hc & _ & Hin).
  rewrite List.Forall_forall in Hsick.
  assert ((length (List.filter ProxyCircuit.isHealthy objs) =? 0)%nat = true) as Hbad.
  { destruct (List.filter ProxyCircuit.isHealthy objs) as [|c' rest] eqn:Hf;
      [reflexivity|].
    assert (In c' (List.filter ProxyCircuit.isHealthy objs)) as Hc'
      by (rewrite Hf; now left).
    apply List.filter_In in Hc' as [Hin' Hh]. rewrite (Hsick c' Hin') in Hh.
    discriminate. }
  rewrite getRandomCircuit_large_pool by exact Hlen.
  set (s1 := set_asked (S (asked s)) s).
  simpl randomCircuitLoop.
  rewrite (run_bind _ _ s s (circuits s)) by reflexivity.
  rewrite (run_bind _ _ s s1 (random (world s) (asked s))) by reflexivity.
  rewrite Hr.
  rewrite (run_bind _ _ s1 s1 c) by (unfold readCircuit; simpl; now rewrite Hc).
  rewrite (Hsick c Hin). simpl.
  apply run_raise. rewrite (run_bind _ _ s1 s1 true); [reflexivity|].
  rewrite (areAllCircuitsUnhealthy_run s1 objs Hobjs). now rewrite Hbad.
Qed.

Lemma getRandomCircuit_dies_when_all_unhealthy_witness :
  (ProxyCircuit.isHealthy <$> circuitStore bothSick !! 0%nat) = Some false
  /\ (ProxyCircuit.isHealthy <$> circuitStore bothSick !! 1%nat) = Some false
  /\ outcome (_getRandomCircuit 1 (Some 0%nat) true) bothSick
     = Raise (Die AllCircuitsUnhealthy).
Proof.
  split; [vm_compute; reflexivity|]. split; [vm_compute; reflexivity|].
  destruct (circuitStore bothSick !! 0%nat) as [c0|] eqn:H0;
    [|vm_compute in H0; discriminate].
  destruct (circuitStore bothSick !! 1%nat) as [c1|] eqn:H1;
    [|vm_compute in H1; discriminate].
  unfold outcome.
  rewrite (getRandomCircuit_dies_when_all_unhealthy bothSick 0 (Some 0%nat) [c0; c1]).
  - reflexivity.
  - vm_compute. lia.
  - change (circuits bothSick) with [0%nat; 1%nat].
    constructor; [exact H0|]. constructor; [exact H1|constructor].
  - vm_compute in H0. injection H0 as <-. vm_compute in H1. injection H1 as <-.
    repeat constructor.
Defined.

(** X13. [_getRandomCircuit] with a circuit to leave out, on a pool of two
    circuits or more. Whatever it returns is a circuit, and either
    - the circuit left out itself, which happens only when unhealthy
      circuits are skipped, the draw was unhealthy and the circuit left out
      is healthy, or
    - a circuit of the pool whose identifier differs from that of the
      circuit left out.
    When unhealthy circuits are skipped and the circuit left out is healthy,
    the circuit returned is healthy. Nothing of the state changes but the
    number of draws made. A first draw that is healthy and has another
    identifier is returned at once. *)
Theorem getRandomCircuit_leaves_out_or_stays_put
  (s : Manager.t) (omit : CircuitRef) (co : ProxyCircuit.t) (skip : bool)
  (objs : list ProxyCircuit.t) :
  (1 < length (circuits s))%nat ->
  Forall2 (fun r c => circuitStore s !! r = Some c) (circuits s) objs ->
  circuitStore s !! omit = Some co ->
  (forall fuel found s',
      _getRandomCircuit fuel (Some omit) skip s = (Ret found, s') ->
      exists r cr,
        found = Some r
        /\ circuitStore s !! r = Some cr
        /\ ((r = omit /\ skip = true /\ ProxyCircuit.isHealthy co = true)
            \/ (In r (circuits s)
                /\ ProxyCircuit.getIdentifier cr <> ProxyCircuit.getIdentifier co))
        /\ (skip = true -> ProxyCircuit.isHealthy co = true ->
            ProxyCircuit.isHealthy cr = true)
        /\ s' = set_asked (asked s') s
        /\ (asked s < asked s')%nat)
  /\ (forall fuel r cr,
        circuits s !! (random (world s) (asked s) mod length (circuits s))%nat
        = Some r ->
        circuitStore s !! r = Some cr ->
        ProxyCircuit.isHealthy cr = true ->
        ProxyCircuit.getIdentifier cr <> ProxyCircuit.getIdentifier co ->
        _getRandomCircuit (S fuel) (Some omit) skip s
        = (Ret (Some r), set_asked (S (asked s)) s)).
Proof.
  intros Hlen Hobjs Ho. split.
  - intros fuel found s' Hrun.
    rewrite getRandomCircuit_large_pool in Hrun by exact Hlen.
    exact (randomCircuitLoop_result fuel omit co skip objs s found s'
             Hlen Hobjs Ho Hrun).
  - intros fuel r cr Hr Hcr Hhealthy Hid.
    rewrite getRandomCircuit_large_pool by exact Hlen.
    rewrite (randomCircuitLoop_turn s fuel omit r co cr skip objs Hobjs Ho Hr Hcr).
    rewrite Hhealthy, andb_false_r.
    destruct (String.eqb_spec (ProxyCircuit.getIdentifier co)
                (ProxyCircuit.getIdentifier cr)); [congruence|reflexivity].
Qed.

Lemma getRandomCircuit_leaves_out_or_stays_put_witness :
  (ProxyCircuit.isHealthy <$> circuitStore sickFirst !! 0%nat) = Some false
  /\ (ProxyCircuit.isHealthy <$> circuitStore sickFirst !! 1%nat) = Some true
  (* on the healthy circuit, with the unhealthy one drawn: stay *)
  /\ outcome (_getRandomCircuit 1 (Some 1%nat) true) sickFirst = Ret (Some 1%nat)
  (* whatever is returned is healthy *)
  /\ forall fuel found s',
       _getRandomCircuit fuel (Some 1%nat) true sickFirst = (Ret found, s') ->
       exists r cr,
         found = Some r /\ circuitStore sickFirst !! r = Some cr
         /\ ProxyCircuit.isHealthy cr = true.
Proof.
  split; [vm_compute; reflexivity|]. split; [vm_compute; reflexivity|].
  split; [vm_compute; reflexivity|].
  assert (exists c0, circuitStore sickFirst !! 0%nat = Some c0) as [c0 H0]
    by (vm_compute; eauto).
  assert (exists c1, circuitStore sickFirst !! 1%nat = Some c1
                     /\ ProxyCircuit.isHealthy c1 = true) as (c1 & H1 & Hh1)
    by (vm_compute; eauto).
  destruct (getRandomCircuit_leaves_out_or_stays_put sickFirst 1%nat c1 true [c0; c1])
    as [Hresult _].
  - vm_compute. lia.
  - change (circuits sickFirst) with [0%nat; 1%nat].
    constructor; [exact H0|]. constructor; [exact H1|constructor].
  - exact H1.
  - intros fuel found s' Hrun.
    destruct (Hresult fuel found s' Hrun) as (r & cr & -> & Hcr & _ & Hh & _).
    exists r, cr. split; [reflexivity|]. split; [exact Hcr|]. now apply Hh.
Defined.

(** ** What adding a circuit leaves *)

(** The loop that releases the waiters, as a function of the state. *)
Lemma firePending_run (queue : list Resolver) (s : Manager.t) :
  firePending queue s
  = (Ret tt,
     set_nextTicks (nextTicks s ++ map (fun fn => (fn, true)) queue)
       (set_pendingCallbacks
          (match queue with [] => pendingCallbacks s | _ => [] end) s)).
Proof.
  revert s. induction queue as [|fn rest IH]; intros s; simpl.
  - rewrite app_nil_r. now destruct s.
  - unfold bind, modify. rewrite IH. simpl. rewrite <- app_assoc.
    now destruct rest.
Qed.

Lemma addCircuit_past_the_duplicate_test
  (s : Manager.t) (circuitDetails : JsObj JsVal) :
  poolIsStored s ->
  (forall r c,
      In r (circuits s) -> circuitStore s !! r = Some c ->
      ProxyCircuit.getIdentifier c
      <> ProxyCircuit.getIdentifier (ProxyCircuit.new circuitDetails)) ->
  addCircuit circuitDetails s
  = enrolCircuit (length (circuitStore s)) (ProxyCircuit.new circuitDetails)
      (set_circuitStore (circuitStore s ++ [ProxyCircuit.new circuitDetails]) s).
Proof.
  intros Hstored Hnew.
  set (new := ProxyCircuit.new circuitDetails) in *.
  set (s1 := set_circuitStore (circuitStore s ++ [new]) s).
  assert (forall r c, circuitStore s !! r = Some c -> circuitStore s1 !! r = Some c)
    as Hold.
  { intros r c Hc. subst s1; simpl. rewrite lookup_app_l; [exact Hc|].
    now apply lookup_lt_Some in Hc. }
  destruct (mapM_readCircuit (circuits s) s1) as (objs & Hpool & Hobjs).
  { intros r Hr. destruct (Hstored r Hr) as [c Hc]. exists c. now apply Hold. }
  rewrite addCircuit_unfold.
  rewrite (run_bind _ _ s s1 (length (circuitStore s))) by reflexivity.
  rewrite (run_bind _ _ s1 s1 new).
  2:{ unfold readCircuit. subst s1; simpl. now rewrite list_lookup_middle. }
  rewrite (run_bind _ _ s1 s1 false); [reflexivity|].
  unfold _hasCircuit, poolObjects. cbv zeta.
  rewrite (run_bind _ _ s1 s1 objs).
  2:{ rewrite (run_bind _ _ s1 s1 (circuits s)) by reflexivity. exact Hpool. }
  unfold ret. f_equal. f_equal.
  apply not_true_iff_false. intros Hdup.
  apply filter_nonempty_exists in Hdup as (c & Hin & Hid).
  apply String.eqb_eq in Hid.
  apply list_elem_of_In, list_elem_of_lookup in Hin as [i Hi].
  destruct (Forall2_lookup_r _ _ _ _ _ Hobjs Hi) as (r & Hr & Hc).
  assert (In r (circuits s)) as Hin
    by (apply list_elem_of_In, list_elem_of_lookup; eauto).
  destruct (Hstored r Hin) as [c' Hc'].
  rewrite (Hold r c' Hc') in Hc. injection Hc as ->.
  exact (Hnew r c Hin Hc' Hid).
Qed.

Lemma insert_last {A} (l : list A) (x y : A) :
  <[length l := y]> (l ++ [x]) = l ++ [y].
Proof.
  rewrite insert_app_r_alt by lia. now rewrite Nat.sub_diag.
Qed.

(** [addCircuit] for a proxy that the pool does not have yet. *)
Lemma addCircuit_of_a_proxy (s : Manager.t) (circuitDetails : JsObj JsVal) :
  let new := ProxyCircuit.new circuitDetails in
  let circuit := length (circuitStore s) in
  let poller := length (clientStore s) in
  let ip := probe (world s) (asked s) in
  let found := ProxyCircuit.with_exit (Some ip) (clock (world s) (S (asked s))) new in
  let accepted :=
    ProxyCircuit.addToCyclingCircuitPool new || truthy_str (ProxyCircuit.name new) in
  poolIsStored s ->
  (forall r c,
      In r (circuits s) -> circuitStore s !! r = Some c ->
      ProxyCircuit.getIdentifier c <> ProxyCircuit.getIdentifier new) ->
  ProxyCircuit.isLocalTor new = false ->
  ip <> "" ->
  (length (keys (reqStats s)) < 500)%nat ->
  exists s',
    addCircuit circuitDetails s
    = (if accepted then Ret tt else Raise (Die UnnamedRigidCircuit), s')
    /\ circuitStore s'
       = circuitStore s
         ++ [if accepted then ProxyCircuit.setPollingClient (Some poller) found
             else found]
    /\ clientStore s'
       = clientStore s
         ++ (if accepted then [MakeClient (StrId "POLLER") (Some circuit) true]
             else [])
    /\ clients s' = clients s
    /\ circuits s'
       = circuits s
         ++ (if ProxyCircuit.addToCyclingCircuitPool new then [circuit] else [])
    /\ namedCircuits s'
       = (if negb (ProxyCircuit.addToCyclingCircuitPool new)
             && truthy_str (ProxyCircuit.name new)
          then set (propKey (ProxyCircuit.name new)) circuit (namedCircuits s)
          else namedCircuits s)
    /\ get ip (reqStats s') <> None
    /\ isCurrentlyChanging s' = false
    /\ pendingCallbacks s' = []
    /\ nextTicks s'
       = nextTicks s ++ map (fun fn => (fn, true)) (pendingCallbacks s).
Proof.
  intros new circuit poller ip found accepted Hstored Hfresh Hproxy Hip Hsmall.
  rewrite (addCircuit_past_the_duplicate_test s circuitDetails Hstored Hfresh).
  fold new circuit.
  set (s1 := set_circuitStore (circuitStore s ++ [new]) s).
  assert (circuitStore s1 !! circuit = Some new) as Hnew
    by (subst s1 circuit; simpl; now rewrite list_lookup_middle).
  unfold enrolCircuit. rewrite Hproxy.
  rewrite (run_bind _ _ s1 s1 tt) by reflexivity.
  set (s2 := set_asked (S (asked s)) s1).
  rewrite (run_bind _ _ s1 s2 ip).
  2:{ unfold _getExternalIP.
      rewrite (run_bind _ _ s1 s1 new) by (unfold readCircuit; now rewrite Hnew).
      rewrite (run_bind _ _ s1 s2 ip) by reflexivity.
      reflexivity. }
  assert (truthy_str (Some ip) = true) as Htruthy.
  { simpl. destruct (String.eqb_spec ip ""); [congruence|reflexivity]. }
  set (s4 := stamped circuit (Some ip) new s2).
  set (s5 := set_nextTicks
               (nextTicks s4 ++ map (fun fn => (fn, true)) (pendingCallbacks s4))
               (set_pendingCallbacks [] s4)).
  assert (_onChangedIP circuit (Some ip) s2 = (Ret tt, s5)) as Hchanged.
  { rewrite (onChangedIP_unfold s2 circuit new (Some ip) Hnew Htruthy). fold s4.
    destruct (stamped_facts s2 circuit new (Some ip) Hnew) as (_ & _ & _ & _ & Hlen).
    fold s4 in Hlen. change (reqStats s2) with (reqStats s) in Hlen.
    cbv beta iota delta [bind _shouldPreenIPData gets].
    replace (500 <? length (keys (reqStats s4)))%nat with false
      by (symmetry; apply Nat.ltb_ge; lia).
    unfold ret. rewrite firePending_run. subst s5.
    destruct (pendingCallbacks s4) eqn:Hq; [|reflexivity].
    rewrite <- Hq. now destruct s4. }
  rewrite (run_bind _ _ s2 s5 tt) by exact Hchanged.
  (* what the state holds when the circuit is to be registered *)
  assert (circuitStore s5 = circuitStore s ++ [found]
          /\ clientStore s5 = clientStore s
          /\ clients s5 = clients s
          /\ circuits s5 = circuits s
          /\ namedCircuits s5 = namedCircuits s
          /\ get ip (reqStats s5) <> None
          /\ isCurrentlyChanging s5 = false
          /\ pendingCallbacks s5 = []
          /\ nextTicks s5
             = nextTicks s ++ map (fun fn => (fn, true)) (pendingCallbacks s))
    as (Hstore & Hclients & Hlist & Hpool & Hnamed & Htracked & Hgate & Hqueue
        & Hticks).
  { subst s5 s4. unfold stamped, after, _initializeIPDataIfNotInitialized, modify.
    simpl.
    destruct (get ip (reqStats s)) eqn:He; simpl;
      (split; [apply insert_last|]); repeat (split; [reflexivity|]);
      (split; [|repeat split]).
    - rewrite He. discriminate.
    - rewrite get_set_eq. discriminate. }
  remember s5 as s5' eqn:Hs5. clear Hs5 Hchanged s5 s4.
  assert (forall s6,
             circuitStore s6 = circuitStore s5' ->
             clientStore s6 = clientStore s5' ->
             (poller' <- newClient (MakeClient (StrId "POLLER") (Some circuit) true) ;;
              updateCircuit circuit
                (ProxyCircuit.setPollingClient (Some poller'))) s6
             = (Ret tt,
                set_circuitStore
                  (circuitStore s
                   ++ [ProxyCircuit.setPollingClient (Some poller) found])
                  (set_clientStore
                     (clientStore s
                      ++ [MakeClient (StrId "POLLER") (Some circuit) true]) s6)))
    as Hpoller.
  { intros s6 Hst6 Hcl6.
    unfold bind at 1. unfold newClient at 1. rewrite Hcl6, Hclients. fold poller.
    unfold updateCircuit, bind, readCircuit, modify. simpl.
    rewrite Hst6, Hstore. subst circuit.
    rewrite list_lookup_middle by reflexivity.
    change (circuitStore (set_clientStore ?x s6)) with (circuitStore s6).
    now rewrite Hst6, Hstore, insert_last. }
  subst accepted.
  destruct (ProxyCircuit.addToCyclingCircuitPool new) eqn:Hcyc; cbn [orb negb andb].
  - eexists. split.
    + rewrite (run_bind _ _ s5' _ tt) by reflexivity.
      rewrite Hpoller by reflexivity. reflexivity.
    + cbn [circuitStore clientStore clients circuits namedCircuits reqStats
             isCurrentlyChanging pendingCallbacks nextTicks
             set_circuitStore set_clientStore set_circuits].
      rewrite Hpool.
      repeat (split; [first [reflexivity|assumption]|]). assumption.
  - destruct (truthy_str (ProxyCircuit.name new)) eqn:Hname.
    + eexists. split.
      * rewrite (run_bind _ _ s5' _ tt) by reflexivity.
        rewrite Hpoller by reflexivity. reflexivity.
      * cbn [circuitStore clientStore clients circuits namedCircuits reqStats
               isCurrentlyChanging pendingCallbacks nextTicks
               set_circuitStore set_clientStore set_namedCircuits].
        rewrite Hnamed, Hpool, app_nil_r.
        repeat (split; [first [reflexivity|assumption]|]). assumption.
    + exists s5'. split; [reflexivity|].
      rewrite !app_nil_r.
      repeat (split; [first [reflexivity|assumption]|]). assumption.
Qed.

(** X15. [addCircuit] for a proxy, that is a circuit that is not a local tor, on a
    pool that has no circuit with its identifier, when the probe answers and
    the store tracks fewer than 500 addresses.
    - A circuit for the cycling pool, or a rigid circuit with a name, is
      enrolled: the call returns, the circuit is the last of the pool or is
      registered under its name (in place of a circuit registered under
      that name before), and it has a polling client of its own, which is
      not among [clients].
    - A rigid circuit without a name is refused with UnnamedRigidCircuit,
      but only at that point: it is in no collection and has no polling
      client, yet it has been probed like the others.
    In both cases [activeExitNodeIP] of the circuit is the probed address and
    its [lastIPPollTime] the time read after the probe, the address is
    tracked, the gate is down, and every caller that was waiting for a
    change has been released, whoever it was waiting for. *)
Theorem addCircuit_enrols_a_proxy (s : Manager.t) (circuitDetails : JsObj JsVal) :
  let new := ProxyCircuit.new circuitDetails in
  let circuit := length (circuitStore s) in
  let poller := length (clientStore s) in
  let ip := probe (world s) (asked s) in
  let found := ProxyCircuit.with_exit (Some ip) (clock (world s) (S (asked s))) new in
  let accepted :=
    ProxyCircuit.addToCyclingCircuitPool new || truthy_str (ProxyCircuit.name new) in
  poolIsStored s ->
  (forall r c,
      In r (circuits s) -> circuitStore s !! r = Some c ->
      ProxyCircuit.getIdentifier c <> ProxyCircuit.getIdentifier new) ->
  ProxyCircuit.isLocalTor new = false ->
  ip <> "" ->
  (length (keys (reqStats s)) < 500)%nat ->
  exists s',
    addCircuit circuitDetails s
    = (if accepted then Ret tt else Raise (Die UnnamedRigidCircuit), s')
    /\ circuitStore s'
       = circuitStore s
         ++ [if accepted then ProxyCircuit.setPollingClient (Some poller) found
             else found]
    /\ (exists c',
          circuitStore s' !! circuit = Some c'
          /\ ProxyCircuit.activeExitNodeIP c' = Some ip
          /\ ProxyCircuit.lastIPPollTime c' = clock (world s) (S (asked s)))
    /\ clientStore s'
       = clientStore s
         ++ (if accepted then [MakeClient (StrId "POLLER") (Some circuit) true]
             else [])
    /\ clients s' = clients s
    /\ circuits s'
       = circuits s
         ++ (if ProxyCircuit.addToCyclingCircuitPool new then [circuit] else [])
    /\ namedCircuits s'
       = (if negb (ProxyCircuit.addToCyclingCircuitPool new)
             && truthy_str (ProxyCircuit.name new)
          then set (propKey (ProxyCircuit.name new)) circuit (namedCircuits s)
          else namedCircuits s)
    /\ get ip (reqStats s') <> None
    /\ isCurrentlyChanging s' = false
    /\ pendingCallbacks s' = []
    /\ nextTicks s'
       = nextTicks s ++ map (fun fn => (fn, true)) (pendingCallbacks s).
Proof.
  intros new circuit poller ip found accepted Hstored Hfresh Htor Hip Hsmall.
  destruct (addCircuit_of_a_proxy s circuitDetails Hstored Hfresh Htor Hip Hsmall)
    as (s' & Hrun & Hstore & Hrest).
  exists s'. split; [exact Hrun|]. split; [exact Hstore|].
  split; [|exact Hrest].
  exists (if accepted then ProxyCircuit.setPollingClient (Some poller) found
          else found).
  split.
  - rewrite Hstore. now apply list_lookup_middle.
  - now destruct accepted.
Qed.

Lemma addCircuit_enrols_a_proxy_witness :
  pendingCallbacks threeWaiting = [0; 1; 2]%nat
  /\ isCurrentlyChanging threeWaiting = true
  /\ (exists s',
        addCircuit [("host", VStr "proxy-b")] threeWaiting = (Ret tt, s')
        /\ (ProxyCircuit.activeExitNodeIP <$> circuitStore s' !! 1%nat)
           = Some (Some "10.0.0.2")
        /\ (ProxyCircuit.lastIPPollTime <$> circuitStore s' !! 1%nat)
           = Some 4000
        /\ circuits s' = [0; 1]%nat
        /\ isCurrentlyChanging s' = false
        /\ pendingCallbacks s' = []
        /\ nextTicks s' = [(0, true); (1, true); (2, true)]%nat)
  /\ (exists s',
        addCircuit [("addToCyclingCircuitPool", VBool false)] oneProxy
        = (Raise (Die UnnamedRigidCircuit), s')
        /\ circuits s' = [0]%nat
        /\ namedCircuits s' = []
        /\ length (circuitStore s') = 2%nat
        /\ length (clientStore s') = 1%nat
        /\ get "10.0.0.2" (reqStats s') <> None).
Proof.
  split; [vm_compute; reflexivity|]. split; [vm_compute; reflexivity|].
  split.
  - pose proof (addCircuit_enrols_a_proxy threeWaiting [("host", VStr "proxy-b")])
      as H.
    cbv zeta in H.
    destruct H as (s' & Hrun & _ & (c' & Hc' & Hexit & Hstamp) & _ & _ & Hpool
                   & _ & _ & Hgate & Hqueue & Hticks).
    + intros r Hr. vm_compute in Hr. destruct Hr as [<-|[]]. vm_compute. eauto.
    + intros r c Hr Hc. vm_compute in Hr. destruct Hr as [<-|[]].
      vm_compute in Hc. injection Hc as <-. vm_compute. discriminate.
    + reflexivity.
    + vm_compute. discriminate.
    + vm_compute. lia.
    + exists s'. split; [exact Hrun|].
      change (length (circuitStore threeWaiting)) with 1%nat in Hc'.
      split; [rewrite Hc'; simpl; rewrite Hexit; vm_compute; reflexivity|].
      split; [rewrite Hc'; simpl; rewrite Hstamp; vm_compute; reflexivity|].
      split; [rewrite Hpool; vm_compute; reflexivity|].
      split; [exact Hgate|]. split; [exact Hqueue|].
      rewrite Hticks. vm_compute. reflexivity.
  - pose proof (addCircuit_enrols_a_proxy oneProxy
                  [("addToCyclingCircuitPool", VBool false)]) as H.
    cbv zeta in H.
    destruct H as (s' & Hrun & Hstore & _ & Hclients & _ & Hpool & Hnamed
                   & Htracked & _).
    + intros r Hr. vm_compute in Hr. destruct Hr as [<-|[]]. vm_compute. eauto.
    + intros r c Hr Hc. vm_compute in Hr. destruct Hr as [<-|[]].
      vm_compute in Hc. injection Hc as <-. vm_compute. discriminate.
    + reflexivity.
    + vm_compute. discriminate.
    + vm_compute. lia.
    + exists s'. split; [exact Hrun|].
      split; [rewrite Hpool; vm_compute; reflexivity|].
      split; [rewrite Hnamed; vm_compute; reflexivity|].
      split; [rewrite Hstore; vm_compute; reflexivity|].
      split; [rewrite Hclients; vm_compute; reflexivity|].
      exact Htracked.
Defined.

(** ** The gate *)

(** X16. The poller under the gate. On a circuit that has been marked invalid the
    poller returns at once. On a valid circuit, for as long as a change or a
    restart is under way, it takes turn after turn without a probe and
    without touching the state: however many turns are followed, the state
    is the one it started from. *)
Theorem poller_is_idle_under_the_gate
  (s : Manager.t) (circuit : CircuitRef) (c : ProxyCircuit.t) :
  circuitStore s !! circuit = Some c ->
  (ProxyCircuit.isValid c = false ->
   forall fuel, _startPoller (S fuel) circuit s = (Ret tt, s))
  /\ (ProxyCircuit.isValid c = true ->
      isCurrentlyChanging s || isCurrentlyRestarting s = true ->
      forall fuel, _startPoller fuel circuit s = (NoReturn OutOfFuel, s)).
Proof.
  intros Hc. split.
  - intros Hdead fuel. simpl.
    rewrite (run_bind _ _ s s c) by (unfold readCircuit; now rewrite Hc).
    now rewrite Hdead.
  - intros Hvalid Hgate fuel. induction fuel as [|fuel IH]; [reflexivity|].
    simpl.
    rewrite (run_bind _ _ s s c) by (unfold readCircuit; now rewrite Hc).
    rewrite Hvalid.
    rewrite (run_bind _ _ s s (isCurrentlyChanging s)) by reflexivity.
    rewrite (run_bind _ _ s s (isCurrentlyRestarting s)) by reflexivity.
    rewrite Hgate. exact IH.
Qed.

Lemma poller_is_idle_under_the_gate_witness :
  isCurrentlyChanging threeWaiting = true
  /\ _startPoller 100 0%nat threeWaiting = (NoReturn OutOfFuel, threeWaiting).
Proof.
  split; [vm_compute; reflexivity|].
  assert (exists c, circuitStore threeWaiting !! 0%nat = Some c
                    /\ ProxyCircuit.isValid c = true) as (c & Hc & Hvalid)
    by (vm_compute; eauto).
  destruct (poller_is_idle_under_the_gate threeWaiting 0%nat c Hc) as [_ Hidle].
  apply Hidle; [exact Hvalid|]. vm_compute. reflexivity.
Defined.

Lemma call_parks (c : Caller) (s : Manager.t) :
  isCurrentlyChanging s = true ->
  match c with
  | ChangeIfNecessary _ _ => True
  | ForceChange circuit => is_Some (circuitStore s !! circuit)
  end ->
  call c s
  = (NoReturn (Awaiting (nextResolver s)),
     set_nextResolver (S (nextResolver s))
       (set_pendingCallbacks (pendingCallbacks s ++ [nextResolver s]) s)).
Proof.
  intros Hgate Hstored. destruct c as [circuit a|circuit]; simpl.
  - apply run_halt. unfold Manager.changeIPIfNecessary.
    rewrite (run_bind _ _ s s true) by (unfold gets; now rewrite Hgate).
    reflexivity.
  - destruct Hstored as [c Hc].
    apply run_halt. unfold Manager.forceIPChangeImmediately.
    rewrite (run_bind _ _ s s c) by (unfold readCircuit; now rewrite Hc).
    rewrite (run_bind _ _ s s true) by (unfold gets; now rewrite Hgate).
    reflexivity.
Qed.

(** X17. Single flight. While a change is under way, a call of
    [changeIPIfNecessary] or of [forceIPChangeImmediately] does nothing but
    park its caller: no action name is looked at, no address is tested, no
    signal is sent. Callers arriving one after the other are queued behind
    the waiters already there, in the order of their arrival, each under a
    promise of its own, and nothing else of the state changes. *)
Theorem callers_park_in_arrival_order (callers : list Caller) (s : Manager.t) :
  isCurrentlyChanging s = true ->
  Forall (fun c => match c with
                   | ChangeIfNecessary _ _ => True
                   | ForceChange circuit => is_Some (circuitStore s !! circuit)
                   end) callers ->
  arrive callers s
  = (map (fun r => Some (inr (Awaiting r)))
       (seq (nextResolver s) (length callers)),
     set_nextResolver (nextResolver s + length callers)
       (set_pendingCallbacks
          (pendingCallbacks s ++ seq (nextResolver s) (length callers)) s)).
Proof.
  revert s. induction callers as [|c rest IH]; intros s Hgate Hstored.
  - simpl. rewrite Nat.add_0_r, app_nil_r. now destruct s.
  - inversion Hstored as [|? ? Hc Hrest]; subst.
    cbn [arrive]. rewrite (call_parks c s Hgate Hc).
    rewrite IH; [|exact Hgate|exact Hrest].
    cbn [exitOf length seq map nextResolver pendingCallbacks
           set_nextResolver set_pendingCallbacks].
    rewrite <- app_assoc. cbn [app].
    replace (S (nextResolver s) + length rest)%nat
      with (nextResolver s + S (length rest))%nat by lia.
    reflexivity.
Qed.

Lemma callers_park_in_arrival_order_witness :
  let s := set_isCurrentlyChanging true oneProxy in
  let callers :=
    [ChangeIfNecessary 0%nat (Some "api"); ForceChange 0%nat;
     ChangeIfNecessary 0%nat None] in
  pendingCallbacks s = []
  /\ fst (arrive callers s)
     = [Some (inr (Awaiting 0%nat)); Some (inr (Awaiting 1%nat));
        Some (inr (Awaiting 2%nat))]
  /\ pendingCallbacks (snd (arrive callers s)) = [0; 1; 2]%nat
  /\ effects (snd (arrive callers s)) = effects s
  /\ asked (snd (arrive callers s)) = asked s.
Proof.
  intros s callers.
  split; [vm_compute; reflexivity|].
  rewrite (callers_park_in_arrival_order callers s).
  - split; [vm_compute; reflexivity|]. split; [vm_compute; reflexivity|].
    split; vm_compute; reflexivity.
  - reflexivity.
  - repeat constructor. vm_compute. eauto.
Defined.

(** ** A change that was asked for *)

Lemma isIPAvailable_keeps_circuits_and_globals ip a :
  respects (keeps (fun s => (circuitStore s, globalScope s))) anyExit
    (_isIPAvailableForRequests ip a).
Proof. respects_with keeps_side. Qed.

Lemma definitivelyChange_without_the_global
  (s : Manager.t) (circuit : CircuitRef) (c : ProxyCircuit.t) :
  circuitStore s !! circuit = Some c ->
  get "actualExitIP" (globalScope s) = None ->
  _definitivelyChangeToAvailableIP circuit s
  = (Raise (ReferenceError "actualExitIP"), set_isCurrentlyChanging true s).
Proof.
  intros Hc Hglobal.
  unfold _definitivelyChangeToAvailableIP, bind, modify, readCircuit, readGlobal.
  simpl. rewrite Hc. simpl. now rewrite Hglobal.
Qed.

(** X18. The entry points of the manager, with the gate down and no
    [actualExitIP] on the global object. [forceIPChangeImmediately] ends in
    a ReferenceError and leaves the gate up, and so does
    [changeIPIfNecessary] once it has found the address of the circuit
    exhausted: no signal has been sent to tor, and nothing is left running
    that would lower the gate. [changeIPIfNecessary] therefore never returns
    [true]; what it can return is [false], for an address that is
    available. *)
Theorem manager_change_leaves_the_gate_up
  (s : Manager.t) (circuit : CircuitRef) (c : ProxyCircuit.t) :
  circuitStore s !! circuit = Some c ->
  isCurrentlyChanging s = false ->
  get "actualExitIP" (globalScope s) = None ->
  Manager.forceIPChangeImmediately (Some circuit) s
  = (Raise (ReferenceError "actualExitIP"), set_isCurrentlyChanging true s)
  /\ (forall a s1,
        _isIPAvailableForRequests
          (propKey (ProxyCircuit.activeExitNodeIP c)) (Some a) s = (Ret false, s1) ->
        Manager.changeIPIfNecessary circuit (Some a) s
        = (Raise (ReferenceError "actualExitIP"), set_isCurrentlyChanging true s1))
  /\ (forall a s1,
        _isIPAvailableForRequests
          (propKey (ProxyCircuit.activeExitNodeIP c)) (Some a) s = (Ret true, s1) ->
        Manager.changeIPIfNecessary circuit (Some a) s = (Ret false, s1))
  /\ (forall a, outcome (Manager.changeIPIfNecessary circuit a) s <> Ret true).
Proof.
  intros Hc Hgate Hglobal.
  assert (forall a free s1,
             _isIPAvailableForRequests
               (propKey (ProxyCircuit.activeExitNodeIP c)) (Some a) s
             = (Ret free, s1) ->
             Manager.changeIPIfNecessary circuit (Some a) s
             = if free then (Ret false, s1)
               else (Raise (ReferenceError "actualExitIP"),
                     set_isCurrentlyChanging true s1)) as Hrun.
  { intros a free s1 Hfree.
    unfold Manager.changeIPIfNecessary.
    rewrite (run_bind _ _ s s false) by (unfold gets; now rewrite Hgate).
    rewrite (run_bind _ _ s s c) by (unfold readCircuit; now rewrite Hc).
    rewrite (run_bind _ _ s s1 free) by exact Hfree.
    destruct free; [reflexivity|].
    destruct (isIPAvailable_keeps_circuits_and_globals
                (propKey (ProxyCircuit.activeExitNodeIP c)) (Some a) s) as [Hkeep _].
    rewrite Hfree in Hkeep. unfold keeps in Hkeep. simpl in Hkeep.
    apply run_raise. apply (definitivelyChange_without_the_global s1 circuit c);
      congruence. }
  split; [|split; [|split]].
  - unfold Manager.forceIPChangeImmediately.
    rewrite (run_bind _ _ s s c) by (unfold readCircuit; now rewrite Hc).
    rewrite (run_bind _ _ s s false) by (unfold gets; now rewrite Hgate).
    apply run_raise. now apply (definitivelyChange_without_the_global s circuit c).
  - intros a s1 Hfree. exact (Hrun a false s1 Hfree).
  - intros a s1 Hfree. exact (Hrun a true s1 Hfree).
  - intros [a|]; unfold outcome.
    + destruct (_isIPAvailableForRequests
                  (propKey (ProxyCircuit.activeExitNodeIP c)) (Some a) s)
        as [[free|f|h] s1] eqn:Hfree.
      * rewrite (Hrun a free s1 Hfree). now destruct free.
      * unfold Manager.changeIPIfNecessary.
        rewrite (run_bind _ _ s s false) by (unfold gets; now rewrite Hgate).
        rewrite (run_bind _ _ s s c) by (unfold readCircuit; now rewrite Hc).
        now rewrite (run_raise _ _ s s1 f Hfree).
      * unfold Manager.changeIPIfNecessary.
        rewrite (run_bind _ _ s s false) by (unfold gets; now rewrite Hgate).
        rewrite (run_bind _ _ s s c) by (unfold readCircuit; now rewrite Hc).
        now rewrite (run_halt _ _ s s1 h Hfree).
    + unfold Manager.changeIPIfNecessary.
      rewrite (run_bind _ _ s s false) by (unfold gets; now rewrite Hgate).
      discriminate.
Qed.

Lemma manager_change_leaves_the_gate_up_witness :
  isCurrentlyChanging exhaustedClient = false
  /\ outcome (_isIPAvailableForRequests "10.0.0.0" (Some "api")) exhaustedClient
     = Ret false
  /\ outcome (Manager.changeIPIfNecessary 0%nat (Some "api")) exhaustedClient
     = Raise (ReferenceError "actualExitIP")
  /\ isCurrentlyChanging
       (after (Manager.changeIPIfNecessary 0%nat (Some "api")) exhaustedClient)
     = true
  /\ effects (after (Manager.changeIPIfNecessary 0%nat (Some "api")) exhaustedClient)
     = [].
Proof.
  split; [vm_compute; reflexivity|]. split; [vm_compute; reflexivity|].
  assert (exists c, circuitStore exhaustedClient !! 0%nat = Some c
                    /\ ProxyCircuit.activeExitNodeIP c = Some "10.0.0.0")
    as (c & Hc & Hip) by (vm_compute; eauto).
  destruct (manager_change_leaves_the_gate_up exhaustedClient 0%nat c Hc)
    as (_ & Hexhausted & _); [vm_compute; reflexivity|vm_compute; reflexivity|].
  assert (exists s1,
             _isIPAvailableForRequests "10.0.0.0" (Some "api") exhaustedClient
             = (Ret false, s1) /\ effects s1 = []) as (s1 & Hfree & Heffects)
    by (vm_compute; eauto).
  assert (propKey (ProxyCircuit.activeExitNodeIP c) = "10.0.0.0") as Hkey
    by now rewrite Hip.
  rewrite <- Hkey in Hfree.
  unfold outcome, after.
  rewrite (Hexhausted "api" s1 Hfree).
  split; [reflexivity|]. split; [reflexivity|]. exact Heffects.
Defined.

(** ** Signals to tor *)

(** A loop that signals every process of a list and is content with the
    answer to each signal. *)
Lemma signal_all (f : Z -> Effect) (h : option string -> M unit)
  (pids : list Z) (s : Manager.t) :
  (forall i, (i < length pids)%nat ->
             h (psKill (world s) (asked s + i)%nat) = ret tt) ->
  forEach pids (fun pid => log (f pid) ;;; err <- ask psKill ;; h err) s
  = (Ret tt,
     set_asked (asked s + length pids)
       (set_effects (effects s ++ map f pids) s)).
Proof.
  revert s. induction pids as [|pid rest IH]; intros s Hok.
  - simpl. rewrite Nat.add_0_r, app_nil_r. now destruct s.
  - cbn [forEach].
    set (s1 := set_asked (S (asked s)) (set_effects (effects s ++ [f pid]) s)).
    rewrite (run_bind _ _ s s1 tt).
    + rewrite IH.
      * subst s1. cbn [asked effects set_asked set_effects length map].
        rewrite <- app_assoc. cbn [app].
        replace (S (asked s) + length rest)%nat
          with (asked s + S (length rest))%nat by lia.
        reflexivity.
      * intros i Hi. subst s1. cbn [world asked set_asked set_effects].
        replace (S (asked s) + i)%nat with (asked s + S i)%nat by lia.
        apply Hok. simpl. lia.
    + unfold log.
      rewrite (run_bind _ _ s (set_effects (effects s ++ [f pid]) s) tt)
        by reflexivity.
      rewrite (run_bind _ _ _ s1 (psKill (world s) (asked s))) by reflexivity.
      specialize (Hok 0%nat ltac:(simpl; lia)).
      rewrite Nat.add_0_r in Hok. now rewrite Hok.
Qed.

(** The same loop when the answer to the signal sent to the process at
    index [j] is the first it is not content with. *)
Lemma signal_until (f : Z -> Effect) (h : option string -> M unit)
  (pids : list Z) (j : nat) (flt : Fault) (s : Manager.t) :
  (j < length pids)%nat ->
  (forall i, (i < j)%nat -> h (psKill (world s) (asked s + i)%nat) = ret tt) ->
  h (psKill (world s) (asked s + j)%nat) = raise flt ->
  forEach pids (fun pid => log (f pid) ;;; err <- ask psKill ;; h err) s
  = (Raise flt,
     set_asked (asked s + S j)
       (set_effects (effects s ++ map f (take (S j) pids)) s)).
Proof.
  intros Hj Hok Hbad.
  rewrite <- (take_drop (S j) pids) at 1.
  assert (forall (l1 l2 : list Z) (g : Z -> M unit) (t : Manager.t),
             forEach (l1 ++ l2) g t = (forEach l1 g ;;; forEach l2 g) t) as Happ.
  { intros l1 l2 g. induction l1 as [|x l1 IHl]; intros t; simpl.
    - unfold bind, ret. now destruct (forEach l2 g t) as [[[]|?|?] ?].
    - unfold bind in *. destruct (g x t) as [[[]|?|?] t']; [|reflexivity..].
      apply IHl. }
  rewrite Happ.
  rewrite (take_S_r pids j (default 0 (pids !! j))).
  2:{ destruct (lookup_lt_is_Some_2 pids j Hj) as [pid Hpid]. now rewrite Hpid. }
  assert (length (take j pids) = j) as Hlen by (rewrite length_take; lia).
  apply run_raise. rewrite Happ.
  rewrite (run_bind _ _ s
             (set_asked (asked s + j)
                (set_effects (effects s ++ map f (take j pids)) s)) tt).
  2:{ rewrite signal_all; [now rewrite Hlen|]. intros i Hi. apply Hok. lia. }
  cbn [forEach]. apply run_raise.
  unfold log, modify, ask, bind. cbn [world asked effects set_asked set_effects].
  rewrite Hbad. unfold raise. f_equal.
  rewrite map_app, <- app_assoc. cbn [map app].
  replace (S (asked s + j)) with (asked s + S j)%nat by lia.
  reflexivity.
Qed.

(** X19. [_changeExitNode]: a SIGHUP to every tor process, in the order of the
    process table. Without a tor process it fails with TorNotFound. The
    timeout of the kill call is the answer it expects: it goes on to the
    next process, and returns once all have been signalled. Any other error
    is thrown at once, the processes after that one having received
    nothing. An error of the lookup is thrown as it is. *)
Theorem changeExitNode_signals_every_tor (s : Manager.t) :
  let answer (i : nat) := psKill (world s) (S (asked s) + i)%nat in
  let expected (i : nat) :=
    answer i = None \/ answer i = Some "Error: Kill process timeout" in
  match psLookup (world s) (asked s) with
  | PsErr e => _changeExitNode s = (Raise (Thrown e), set_asked (S (asked s)) s)
  | PsList [] =>
      _changeExitNode s = (Raise (Die TorNotFound), set_asked (S (asked s)) s)
  | PsList pids =>
      ((forall i, (i < length pids)%nat -> expected i) ->
       _changeExitNode s
       = (Ret tt,
          set_asked (S (asked s) + length pids)
            (set_effects (effects s ++ map Sighup pids) s)))
      /\ (forall j e,
            (j < length pids)%nat ->
            (forall i, (i < j)%nat -> expected i) ->
            answer j = Some e ->
            e <> "Error: Kill process timeout" ->
            _changeExitNode s
            = (Raise (Thrown e),
               set_asked (S (asked s) + S j)
                 (set_effects (effects s ++ map Sighup (take (S j) pids)) s)))
  end.
Proof.
  intros answer expected.
  set (s1 := set_asked (S (asked s)) s).
  set (h := fun err : option string =>
              match err with
              | Some e =>
                  if String.eqb e "Error: Kill process timeout" then ret tt
                  else raise (Thrown e)
              | None => ret tt
              end : M unit).
  assert (forall i, expected i -> h (psKill (world s1) (asked s1 + i)%nat) = ret tt)
    as Hexpected.
  { intros i [Hi|Hi]; subst h; cbv beta; subst s1;
      cbn [world asked set_asked]; fold (answer i); now rewrite Hi. }
  unfold _changeExitNode, _getListOfTorProcesses.
  destruct (psLookup (world s) (asked s)) as [e|pids] eqn:Hps.
  - apply run_raise. unfold bind, ask. now rewrite Hps.
  - rewrite (run_bind _ _ s s1 pids) by (unfold bind, ask; now rewrite Hps).
    destruct pids as [|pid rest]; [reflexivity|].
    rewrite (run_bind _ _ s1 s1 tt) by reflexivity.
    split.
    + intros Hall.
      change (forEach (pid :: rest) _ s1)
        with (forEach (pid :: rest)
                (fun pid => log (Sighup pid) ;;; err <- ask psKill ;; h err) s1).
      rewrite signal_all; [reflexivity|].
      intros i Hi. apply Hexpected. now apply Hall.
    + intros j e Hj Hbefore Hanswer Hother.
      change (forEach (pid :: rest) _ s1)
        with (forEach (pid :: rest)
                (fun pid => log (Sighup pid) ;;; err <- ask psKill ;; h err) s1).
      rewrite (signal_until Sighup h (pid :: rest) j (Thrown e)); [reflexivity|exact Hj| |].
      * intros i Hi. apply Hexpected. now apply Hbefore.
      * subst h; cbv beta; subst s1; cbn [world asked set_asked].
        fold (answer j). rewrite Hanswer.
        now destruct (String.eqb_spec e "Error: Kill process timeout").
Qed.

(** X20. [_killAllTorProcesses]: a kill for every tor process, in the order of
    the process table; it returns their number when every kill was answered
    without an error, zero when tor was not running. Here a timeout is an
    error like any other: the first error is thrown at once and the
    processes after that one are left alone. *)
Theorem killAllTorProcesses_stops_at_an_error (s : Manager.t) :
  let answer (i : nat) := psKill (world s) (S (asked s) + i)%nat in
  match psLookup (world s) (asked s) with
  | PsErr e =>
      _killAllTorProcesses s = (Raise (Thrown e), set_asked (S (asked s)) s)
  | PsList pids =>
      ((forall i, (i < length pids)%nat -> answer i = None) ->
       _killAllTorProcesses s
       = (Ret (length pids),
          set_asked (S (asked s) + length pids)
            (set_effects (effects s ++ map Kill pids) s)))
      /\ (forall j e,
            (j < length pids)%nat ->
            (forall i, (i < j)%nat -> answer i = None) ->
            answer j = Some e ->
            _killAllTorProcesses s
            = (Raise (Thrown e),
               set_asked (S (asked s) + S j)
                 (set_effects (effects s ++ map Kill (take (S j) pids)) s)))
  end.
Proof.
  intros answer.
  set (s1 := set_asked (S (asked s)) s).
  set (h := fun err : option string =>
              match err with
              | Some e => raise (Thrown e)
              | None => ret tt
              end : M unit).
  unfold _killAllTorProcesses, _getListOfTorProcesses.
  destruct (psLookup (world s) (asked s)) as [e|pids] eqn:Hps.
  - apply run_raise. unfold bind, ask. now rewrite Hps.
  - rewrite (run_bind _ _ s s1 pids) by (unfold bind, ask; now rewrite Hps).
    split.
    + intros Hall.
      change (forEach pids _)
        with (forEach pids
                (fun pid => log (Kill pid) ;;; err <- ask psKill ;; h err)).
      rewrite (run_bind _ _ s1
                 (set_asked (asked s1 + length pids)
                    (set_effects (effects s1 ++ map Kill pids) s1)) tt);
        [reflexivity|].
      apply signal_all.
      intros i Hi. subst h; cbv beta; subst s1; cbn [world asked set_asked].
      fold (answer i). now rewrite (Hall i Hi).
    + intros j e Hj Hbefore Hanswer.
      apply run_raise.
      change (forEach pids _)
        with (forEach pids
                (fun pid => log (Kill pid) ;;; err <- ask psKill ;; h err)).
      rewrite (signal_until Kill h pids j (Thrown e)); [reflexivity|exact Hj| |].
      * intros i Hi. subst h; cbv beta; subst s1; cbn [world asked set_asked].
        fold (answer i). now rewrite (Hbefore i Hi).
      * subst h; cbv beta; subst s1; cbn [world asked set_asked].
        fold (answer j). now rewrite Hanswer.
Qed.

Lemma changeExitNode_signals_every_tor_witness :
  psLookup (world torOnly) (asked torOnly) = PsList [4242]
  /\ outcome _changeExitNode torOnly = Ret tt
  /\ effects (after _changeExitNode torOnly) = effects torOnly ++ [Sighup 4242].
Proof.
  assert (psLookup (world torOnly) (asked torOnly) = PsList [4242]) as Hps
    by (vm_compute; reflexivity).
  split; [exact Hps|].
  pose proof (changeExitNode_signals_every_tor torOnly) as H.
  cbv zeta in H. rewrite Hps in H. destruct H as [Hall _].
  unfold outcome, after. rewrite Hall.
  - split; reflexivity.
  - intros i Hi. simpl in Hi. assert (i = 0%nat) as -> by lia.
    right. vm_compute. reflexivity.
Defined.

Lemma killAllTorProcesses_stops_at_an_error_witness :
  psLookup (world torOnly) (asked torOnly) = PsList [4242]
  /\ outcome _killAllTorProcesses torOnly
     = Raise (Thrown "Error: Kill process timeout")
  /\ effects (after _killAllTorProcesses torOnly) = effects torOnly ++ [Kill 4242].
Proof.
  assert (psLookup (world torOnly) (asked torOnly) = PsList [4242]) as Hps
    by (vm_compute; reflexivity).
  split; [exact Hps|].
  pose proof (killAllTorProcesses_stops_at_an_error torOnly) as H.
  cbv zeta in H. rewrite Hps in H. destruct H as [_ Herr].
  unfold outcome, after.
  rewrite (Herr 0%nat "Error: Kill process timeout").
  - split; reflexivity.
  - simpl. lia.
  - intros i Hi. lia.
  - vm_compute. reflexivity.
Defined.

(** ** Restarting tor *)

Lemma killAllTorProcesses_frame :
  respects
    (keeps (fun s => (isCurrentlyChanging s, isCurrentlyRestarting s, circuits s,
                      circuitStore s, pendingCallbacks s, nextTicks s)))
    anyExit _killAllTorProcesses.
Proof. respects_with keeps_side. Qed.

Lemma startTorIfNotStarted_frame :
  respects
    (keeps (fun s => (isCurrentlyChanging s, circuits s, circuitStore s,
                      pendingCallbacks s, nextTicks s)))
    anyExit _startTorIfNotStarted.
Proof. respects_with keeps_side. Qed.

Lemma startTorIfNotStarted_clears_the_flag (s s' : Manager.t) (b : bool) :
  _startTorIfNotStarted s = (Ret b, s') -> isCurrentlyRestarting s' = false.
Proof.
  unfold _startTorIfNotStarted, _checkIfTorIsRunning, bind, ask, log, modify, ret.
  destruct (psLookup (world s) (asked s)) as [e|l]; [discriminate|].
  destruct (0 <? length l)%nat; intros [= _ <-]; reflexivity.
Qed.

Lemma no_tor_in_the_pool (s : Manager.t) (objs : list ProxyCircuit.t)
  (l : list CircuitRef) :
  Forall2 (fun r c => circuitStore s !! r = Some c) l objs ->
  Forall (fun c => ProxyCircuit.isLocalTor c = false) objs ->
  filterM (fun r => c <- readCircuit r ;; ret (ProxyCircuit.isLocalTor c)) l s
  = (Ret [], s).
Proof.
  induction 1 as [|r c l objs Hc _ IH]; intros Hnone; [reflexivity|].
  inversion Hnone as [|? ? Hproxy Hrest]; subst.
  cbn [filterM].
  rewrite (run_bind _ _ s s false).
  - rewrite (run_bind _ _ s s []) by (now apply IH). reflexivity.
  - rewrite (run_bind _ _ s s c) by (unfold readCircuit; now rewrite Hc).
    unfold ret. now rewrite Hproxy.
Qed.

(** X21. [forceRestartTorImmediately] raises the gate first, and the only thing
    that lowers it is a change of address reported for a tor circuit of the
    pool. On a manager whose pool has no tor circuit (tor is reached by name
    only, or not used) the call leaves the gate up however it ends; when it
    returns, the restart flag is down again, and the waiters are where they
    were. A call that finds a restart under way parks its caller. *)
Theorem forceRestartTor_leaves_the_gate_up
  (s : Manager.t) (objs : list ProxyCircuit.t) :
  Forall2 (fun r c => circuitStore s !! r = Some c) (circuits s) objs ->
  Forall (fun c => ProxyCircuit.isLocalTor c = false) objs ->
  let s' := after forceRestartTorImmediately s in
  isCurrentlyChanging s' = true
  /\ (isCurrentlyRestarting s = true ->
      forceRestartTorImmediately s
      = (NoReturn (Awaiting (nextResolver s)),
         set_nextResolver (S (nextResolver s))
           (set_pendingCallbacks (pendingCallbacks s ++ [nextResolver s])
              (set_isCurrentlyChanging true s))))
  /\ (isCurrentlyRestarting s = false ->
      pendingCallbacks s' = pendingCallbacks s
      /\ nextTicks s' = nextTicks s
      /\ (outcome forceRestartTorImmediately s = Ret tt ->
          isCurrentlyRestarting s' = false)).
Proof.
  intros Hobjs Hnone s'. subst s'. unfold after, outcome.
  unfold forceRestartTorImmediately.
  set (s1 := set_isCurrentlyChanging true s).
  rewrite (run_bind _ _ s s1 tt) by reflexivity.
  rewrite (run_bind _ _ s1 s1 (isCurrentlyRestarting s)) by reflexivity.
  destruct (isCurrentlyRestarting s) eqn:Hflag.
  - split; [reflexivity|]. split; [reflexivity|discriminate].
  - set (s2 := set_isCurrentlyRestarting true s1).
    rewrite (run_bind _ _ s1 s2 tt) by reflexivity.
    split; [|split; [discriminate|intros _]].
    + destruct (killAllTorProcesses_frame s2) as [Hk3 _].
      destruct (_killAllTorProcesses s2) as [[n|f|h] s3] eqn:Hkill;
        unfold keeps in Hk3; simpl in Hk3.
      * rewrite (run_bind _ _ s2 s3 n) by exact Hkill.
        destruct (startTorIfNotStarted_frame s3) as [Hk4 _].
        destruct (_startTorIfNotStarted s3) as [[b|f|h] s4] eqn:Hstart;
          unfold keeps in Hk4; simpl in Hk4.
        -- rewrite (run_bind _ _ s3 s4 b) by exact Hstart.
           rewrite (run_bind _ _ s4 s4 (circuits s4)) by reflexivity.
           rewrite (run_bind _ _ s4 s4 []).
           ++ simpl. congruence.
           ++ apply (no_tor_in_the_pool s4 objs); [|exact Hnone].
              replace (circuits s4) with (circuits s) by congruence.
              replace (circuitStore s4) with (circuitStore s) by congruence.
              exact Hobjs.
        -- rewrite (run_raise _ _ s3 s4 f Hstart). simpl. congruence.
        -- rewrite (run_halt _ _ s3 s4 h Hstart). simpl. congruence.
      * rewrite (run_raise _ _ s2 s3 f Hkill). simpl. congruence.
      * rewrite (run_halt _ _ s2 s3 h Hkill). simpl. congruence.
    + destruct (killAllTorProcesses_frame s2) as [Hk3 _].
      destruct (_killAllTorProcesses s2) as [[n|f|h] s3] eqn:Hkill;
        unfold keeps in Hk3; simpl in Hk3.
      * rewrite (run_bind _ _ s2 s3 n) by exact Hkill.
        destruct (startTorIfNotStarted_frame s3) as [Hk4 _].
        destruct (_startTorIfNotStarted s3) as [[b|f|h] s4] eqn:Hstart;
          unfold keeps in Hk4; simpl in Hk4.
        -- rewrite (run_bind _ _ s3 s4 b) by exact Hstart.
           rewrite (run_bind _ _ s4 s4 (circuits s4)) by reflexivity.
           rewrite (run_bind _ _ s4 s4 []).
           ++ simpl. split; [congruence|]. split; [congruence|].
              intros _. exact (startTorIfNotStarted_clears_the_flag s3 s4 b Hstart).
           ++ apply (no_tor_in_the_pool s4 objs); [|exact Hnone].
              replace (circuits s4) with (circuits s) by congruence.
              replace (circuitStore s4) with (circuitStore s) by congruence.
              exact Hobjs.
        -- rewrite (run_raise _ _ s3 s4 f Hstart). simpl.
           split; [congruence|]. split; [congruence|discriminate].
        -- rewrite (run_halt _ _ s3 s4 h Hstart). simpl.
           split; [congruence|]. split; [congruence|discriminate].
      * rewrite (run_raise _ _ s2 s3 f Hkill). simpl.
        split; [congruence|]. split; [congruence|discriminate].
      * rewrite (run_halt _ _ s2 s3 h Hkill). simpl.
        split; [congruence|]. split; [congruence|discriminate].
Qed.

Lemma forceRestartTor_leaves_the_gate_up_witness :
  circuits (torByName obedient) = [0%nat]
  /\ get "onion" (namedCircuits (torByName obedient)) = Some 1%nat
  /\ isCurrentlyChanging (torByName obedient) = false
  /\ outcome forceRestartTorImmediately (torByName obedient) = Ret tt
  /\ isCurrentlyChanging (after forceRestartTorImmediately (torByName obedient))
     = true
  /\ effects (after forceRestartTorImmediately (torByName obedient)) = [Kill 4242].
Proof.
  split; [vm_compute; reflexivity|]. split; [vm_compute; reflexivity|].
  split; [vm_compute; reflexivity|]. split; [vm_compute; reflexivity|].
  split; [|vm_compute; reflexivity].
  assert (exists c, circuitStore (torByName obedient) !! 0%nat = Some c
                    /\ ProxyCircuit.isLocalTor c = false) as (c & Hc & Hproxy)
    by (vm_compute; eauto).
  destruct (forceRestartTor_leaves_the_gate_up (torByName obedient) [c])
    as [Hgate _].
  - change (circuits (torByName obedient)) with [0%nat].
    constructor; [exact Hc|constructor].
  - constructor; [exact Hproxy|constructor].
  - exact Hgate.
Defined.

(** ** What a client cannot do *)

(** X22. A client whose circuit does not rotate.
    - On a local tor circuit, [forceIPChangeImmediately] calls the method of
      the manager without the circuit, which throws before anything is done.
    - On a rigid circuit, [changeIPIfNecessary] and [reportNewAction] fail
      with RigidCircuitMisuse: no action is ever recorded through such a
      client. [forceIPChangeImmediately] returns without a value, unless the
      circuit is a local tor.
    - A polling client is never moved: [_changeToRandomCircuit] returns at
      once.
    In all these cases the state is as before. *)
Theorem client_on_a_circuit_that_stays
  (s : Manager.t) (fuel : nat) (this : ClientRef) (client : ProxyRateClient)
  (r : CircuitRef) (c : ProxyCircuit.t) :
  clientStore s !! this = Some client ->
  circuit client = Some r ->
  circuitStore s !! r = Some c ->
  (ProxyCircuit.isLocalTor c = true ->
   Client.forceIPChangeImmediately fuel this s
   = (Raise (TypeError "circuit is undefined"), s))
  /\ (ProxyCircuit.addToCyclingCircuitPool c = false ->
      (forall actionName,
          Client.changeIPIfNecessary fuel this actionName s
          = (Raise (Die RigidCircuitMisuse), s)
          /\ Client.reportNewAction this actionName s
             = (Raise (Die RigidCircuitMisuse), s))
      /\ (ProxyCircuit.isLocalTor c = false ->
          Client.forceIPChangeImmediately fuel this s = (Ret None, s)))
  /\ (isPollingClient client = true ->
      Client._changeToRandomCircuit fuel this s = (Ret tt, s)
      /\ (ProxyCircuit.isLocalTor c = false ->
          Client.forceIPChangeImmediately fuel this s = (Ret None, s))).
Proof.
  intros Hclient Hbound Hc.
  assert (Client.boundCircuit this s = (Ret c, s)) as Hread.
  { unfold Client.boundCircuit.
    rewrite (run_bind _ _ s s client) by (unfold readClient; now rewrite Hclient).
    rewrite Hbound. unfold readCircuit. now rewrite Hc. }
  assert (Client._changeToRandomCircuit fuel this s
          = if isPollingClient client then (Ret tt, s)
            else (found <- _getRandomCircuit fuel (Some r) true ;;
                  writeClient this
                    (MakeClient (clientId client) found (isPollingClient client))) s)
    as Hmove.
  { unfold Client._changeToRandomCircuit.
    rewrite (run_bind _ _ s s client) by (unfold readClient; now rewrite Hclient).
    rewrite Hbound. now destruct (isPollingClient client). }
  assert (Client.forceIPChangeImmediately fuel this s
          = if ProxyCircuit.isLocalTor c
            then (Raise (TypeError "circuit is undefined"), s)
            else if negb (ProxyCircuit.addToCyclingCircuitPool c) then (Ret None, s)
                 else (Client._changeToRandomCircuit fuel this ;;; ret None) s)
    as Hforce.
  { unfold Client.forceIPChangeImmediately.
    rewrite (run_bind _ _ s s c) by exact Hread.
    destruct (ProxyCircuit.isLocalTor c); [reflexivity|].
    now destruct (ProxyCircuit.addToCyclingCircuitPool c). }
  split; [|split].
  - intros Htor. now rewrite Hforce, Htor.
  - intros Hrigid. split.
    + intros actionName. split.
      * unfold Client.changeIPIfNecessary.
        rewrite (run_bind _ _ s s c) by exact Hread.
        now rewrite Hrigid.
      * unfold Client.reportNewAction.
        rewrite (run_bind _ _ s s client)
          by (unfold readClient; now rewrite Hclient).
        rewrite (run_bind _ _ s s c) by exact Hread.
        now rewrite Hrigid.
    + intros Hproxy. now rewrite Hforce, Hproxy, Hrigid.
  - intros Hpoller. split.
    + now rewrite Hmove, Hpoller.
    + intros Hproxy. rewrite Hforce, Hproxy.
      destruct (ProxyCircuit.addToCyclingCircuitPool c); [|reflexivity].
      simpl. rewrite (run_bind _ _ s s tt); [reflexivity|].
      now rewrite Hmove, Hpoller.
Qed.

Lemma client_on_a_circuit_that_stays_witness :
  (* the client of [rigidOnly], made here, sits on the rigid circuit *)
  let s := after (createClient 1 (ByName "login")) rigidOnly in
  Client.reportNewAction 1%nat (Some "api") s = (Raise (Die RigidCircuitMisuse), s)
  /\ Client.changeIPIfNecessary 1 1%nat (Some "api") s
     = (Raise (Die RigidCircuitMisuse), s)
  /\ Client.forceIPChangeImmediately 1 1%nat s = (Ret None, s)
  /\ reqStats s = [("10.0.0.0", [("api", [])])].
Proof.
  intros s.
  assert (exists client c,
             clientStore s !! 1%nat = Some client
             /\ circuit client = Some 0%nat
             /\ circuitStore s !! 0%nat = Some c
             /\ ProxyCircuit.addToCyclingCircuitPool c = false
             /\ ProxyCircuit.isLocalTor c = false)
    as (client & c & Hclient & Hbound & Hc & Hrigid & Hproxy)
    by (vm_compute; eauto 10).
  destruct (client_on_a_circuit_that_stays s 1 1%nat client 0%nat c
              Hclient Hbound Hc) as (_ & Hfixed & _).
  destruct (Hfixed Hrigid) as [Hrefused Hforce].
  destruct (Hrefused (Some "api")) as [Hchange Hreport].
  split; [exact Hreport|]. split; [exact Hchange|].
  split; [exact (Hforce Hproxy)|]. vm_compute. reflexivity.
Defined.

(** ** Polling clients stay where they are *)

#[global] Instance pollersStay_preorder : PreOrder pollersStay.
Proof.
  split.
  - intros s k cl H _. exact H.
  - intros s1 s2 s3 H12 H23 k cl H Hp. apply H23; [|exact Hp]. now apply H12.
Qed.

(** Leaves for [pollersStay]: what does not write to a client, and what adds
    one. *)
Ltac pollersStay_side :=
  first
    [ exact I
    | (intros ? ? ? _; simplify_eq; simpl in *;
       first [ assumption
             | (rewrite lookup_app_l;
                [assumption|eapply lookup_lt_Some; eassumption]) ]) ].

Lemma firePending_pollersStay (queue : list Resolver) :
  respects pollersStay anyExit (firePending queue).
Proof.
  induction queue as [|fn rest IH]; simpl; respects_with pollersStay_side.
Qed.

Lemma randomCircuitLoop_pollersStay fuel omit skip :
  respects pollersStay anyExit (randomCircuitLoop fuel omit skip).
Proof.
  revert omit skip. induction fuel as [|fuel IH]; intros omit skip; simpl;
    respects_with pollersStay_side.
Qed.

Lemma randomCircuitLoop_keeps_clients fuel omit skip :
  respects (keeps clientStore) anyExit (randomCircuitLoop fuel omit skip).
Proof.
  revert omit skip. induction fuel as [|fuel IH]; intros omit skip; simpl;
    respects_with keeps_side.
Qed.

Lemma getRandomCircuit_keeps_clients fuel omit skip :
  respects (keeps clientStore) anyExit (_getRandomCircuit fuel omit skip).
Proof.
  unfold _getRandomCircuit.
  apply respects_bind; [typeclasses eauto|apply respects_gets; typeclasses eauto|].
  intros pool. destruct (length pool <=? 1)%nat.
  - apply respects_ret; typeclasses eauto.
  - apply randomCircuitLoop_keeps_clients.
Qed.

Lemma changeToRandomCircuit_pollersStay fuel this :
  respects pollersStay anyExit (Client._changeToRandomCircuit fuel this).
Proof.
  intros s. split; [|intros; exact I].
  unfold Client._changeToRandomCircuit, bind, readClient.
  destruct (clientStore s !! this) as [client|] eqn:Hclient; [|reflexivity].
  destruct (isPollingClient client) eqn:Hpoller; [reflexivity|].
  destruct (getRandomCircuit_keeps_clients fuel (circuit client) true s)
    as [Hkeep _].
  destruct (_getRandomCircuit fuel (circuit client) true s) as [[found|f|h] s1];
    unfold keeps in Hkeep; simpl in Hkeep; simpl;
    intros k cl Hk Hp; simpl; [|congruence|congruence].
  rewrite Hkeep.
  destruct (Nat.eq_dec k this) as [->|Hne]; [congruence|].
  now rewrite list_lookup_insert_ne by congruence.
Qed.

#[local] Hint Resolve firePending_pollersStay randomCircuitLoop_pollersStay
  changeToRandomCircuit_pollersStay : respects.

Lemma changeLoop_pollersStay triesLeft circuit :
  respects pollersStay anyExit (changeLoop triesLeft circuit).
Proof.
  induction triesLeft as [|triesLeft IH]; simpl; respects_with pollersStay_side.
Qed.
#[local] Hint Resolve changeLoop_pollersStay : respects.

Lemma client_forceIPChange_pollersStay fuel this :
  respects pollersStay anyExit (Client.forceIPChangeImmediately fuel this).
Proof.
  unfold Client.forceIPChangeImmediately. respects_with pollersStay_side.
Qed.
#[local] Hint Resolve client_forceIPChange_pollersStay : respects.

(** X23. A polling client is bound to its circuit for good. Whatever the clients
    do, and whatever circuits and clients are added or removed, a polling
    client in the store is afterwards what it was before: same circuit, same
    id. In particular [_removeCircuit], which moves the clients of the
    circuit it removes to other circuits, leaves the poller of that circuit
    on it. *)
Theorem polling_clients_stay_put
  (s : Manager.t) (k : ClientRef) (poller : ProxyRateClient) :
  clientStore s !! k = Some poller ->
  isPollingClient poller = true ->
  (forall fuel this,
      clientStore (after (Client._changeToRandomCircuit fuel this) s) !! k
      = Some poller)
  /\ (forall fuel this,
        clientStore (after (Client.forceIPChangeImmediately fuel this) s) !! k
        = Some poller)
  /\ (forall fuel this actionName,
        clientStore (after (Client.changeIPIfNecessary fuel this actionName) s) !! k
        = Some poller)
  /\ (forall this action,
        clientStore (after (Client.reportNewAction this action) s) !! k
        = Some poller)
  /\ (forall fuel circuit,
        clientStore (after (_removeCircuit fuel circuit) s) !! k = Some poller)
  /\ (forall fuel circuitSpecifier,
        clientStore (after (createClient fuel circuitSpecifier) s) !! k
        = Some poller)
  /\ (forall circuitDetails,
        clientStore (after (addCircuit circuitDetails) s) !! k = Some poller).
Proof.
  intros Hk Hpoller.
  assert (forall A (m : M A),
             respects pollersStay anyExit m ->
             clientStore (after m s) !! k = Some poller) as Hstay.
  { intros A m Hm. destruct (Hm s) as [Hrel _]. now apply Hrel. }
  repeat split; intros; apply Hstay.
  - apply changeToRandomCircuit_pollersStay.
  - apply client_forceIPChange_pollersStay.
  - unfold Client.changeIPIfNecessary. respects_with pollersStay_side.
  - respects_with pollersStay_side.
  - unfold _removeCircuit. respects_with pollersStay_side.
  - unfold createClient. respects_with pollersStay_side.
  - unfold addCircuit. respects_with pollersStay_side.
Qed.

Lemma polling_clients_stay_put_witness :
  (* client 0 is the poller of the first proxy, client 2 a client on it *)
  clientStore exhaustedClient !! 0%nat
  = Some (MakeClient (StrId "POLLER") (Some 0%nat) true)
  /\ (circuit <$> clientStore exhaustedClient !! 2%nat) = Some (Some 0%nat)
  /\ (circuit <$>
        clientStore (after (_removeCircuit 2 0%nat) exhaustedClient) !! 2%nat)
     = Some (Some 1%nat)
  /\ clientStore (after (_removeCircuit 2 0%nat) exhaustedClient) !! 0%nat
     = Some (MakeClient (StrId "POLLER") (Some 0%nat) true).
Proof.
  assert (clientStore exhaustedClient !! 0%nat
          = Some (MakeClient (StrId "POLLER") (Some 0%nat) true)) as Hk
    by (vm_compute; reflexivity).
  split; [exact Hk|]. split; [vm_compute; reflexivity|].
  split; [vm_compute; reflexivity|].
  destruct (polling_clients_stay_put exhaustedClient 0%nat _ Hk eq_refl)
    as (_ & _ & _ & _ & Hremove & _).
  apply Hremove.
Defined.

(** ** A change nobody asked for *)

Ltac notThrown_side :=
  first [ exact I | (unfold notThrown; intros; discriminate) ].

Lemma firePending_notThrown (queue : list Resolver) :
  respects anyState notThrown (firePending queue).
Proof.
  induction queue as [|fn rest IH]; simpl; respects_with notThrown_side.
Qed.
#[local] Hint Resolve firePending_notThrown : respects.

Lemma onChangedIP_notThrown (circuit : CircuitRef) (newIp : option string) :
  respects anyState notThrown (_onChangedIP circuit newIp).
Proof. respects_with notThrown_side. Qed.

Lemma copyAmbiguous_frame oldIp newIp lastIPPollTime a :
  respects
    (keeps (fun s => (isCurrentlyChanging s, circuitStore s, pendingCallbacks s,
                      nextTicks s)))
    anyExit (copyAmbiguous oldIp newIp lastIPPollTime a).
Proof. respects_with keeps_side. Qed.
#[local] Hint Resolve copyAmbiguous_frame : respects.

Lemma copyAmbiguous_notThrown oldIp newIp lastIPPollTime a :
  respects anyState notThrown (copyAmbiguous oldIp newIp lastIPPollTime a).
Proof. respects_with notThrown_side. Qed.

Lemma writeOutCache_frame :
  respects
    (keeps (fun s => (isCurrentlyChanging s, circuitStore s, pendingCallbacks s,
                      nextTicks s)))
    anyExit _writeOutCache.
Proof. respects_with keeps_side. Qed.

Lemma writeOutCache_logs (s s' : Manager.t) (o : Outcome unit) :
  _writeOutCache s = (o, s') ->
  effects s' = effects s ++ [WriteCache (reqStats s)] /\ reqStats s' = reqStats s.
Proof.
  unfold _writeOutCache, bind, gets, log, modify, ask, raise, ret. simpl.
  destruct (writeFile (world s) (asked s)); intros [= _ <-]; now split.
Qed.



(** ** The address a probe ends with *)

Lemma append_nil_l (a : string) : "" +:+ a = a.
Proof. reflexivity. Qed.

Lemma append_cons (x : ascii) (a b : string) :
  String x a +:+ b = String x (a +:+ b).
Proof. reflexivity. Qed.

Lemma append_assoc (a b c : string) : (a +:+ b) +:+ c = a +:+ (b +:+ c).
Proof.
  induction a as [|x a IH]; [reflexivity|]. rewrite !append_cons. now rewrite IH.
Qed.

Lemma append_nil_r (a : string) : a +:+ "" = a.
Proof.
  induction a as [|x a IH]; [reflexivity|]. rewrite append_cons. now rewrite IH.
Qed.

Lemma matchFrom_repeat_0 (r : IPCheckRequest.Regex) (min : nat) (s : string)
  (k : string -> option string) :
  IPCheckRequest.matchFrom (IPCheckRequest.Repeat r min 0) s k
  = if (min =? 0)%nat then k s else None.
Proof. reflexivity. Qed.

Lemma matchFrom_repeat_S (r : IPCheckRequest.Regex) (min max : nat) (s : string)
  (k : string -> option string) :
  IPCheckRequest.matchFrom (IPCheckRequest.Repeat r min (S max)) s k
  = match IPCheckRequest.matchFrom r s
            (fun s' =>
               IPCheckRequest.matchFrom (IPCheckRequest.Repeat r (pred min) max) s' k)
    with
    | Some matched => Some matched
    | None => if (min =? 0)%nat then k s else None
    end.
Proof. reflexivity. Qed.

(** What the matcher returns is a text of the expression, at the head of the
    subject, followed by what the continuation made of the rest. *)
Lemma matchFrom_sound (r : IPCheckRequest.Regex) :
  forall s k out,
    IPCheckRequest.matchFrom r s k = Some out ->
    exists m rest tail,
      s = m +:+ rest /\ Matches r m /\ k rest = Some tail /\ out = m +:+ tail.
Proof.
  induction r as [|c0|r1 IH1 r2 IH2|r0 IH0 min max]; intros s k out Hrun.
  - destruct s as [|c s']; [discriminate|]. simpl in Hrun.
    destruct (IPCheckRequest.isDigit c) eqn:Hc; [|discriminate].
    destruct (k s') as [tail|] eqn:Hk; [|discriminate].
    injection Hrun as <-.
    exists (String c ""), s', tail.
    split; [reflexivity|]. split; [now constructor|]. split; [exact Hk|reflexivity].
  - destruct s as [|c s']; [discriminate|]. simpl in Hrun.
    destruct (Ascii.eqb_spec c c0) as [->|]; [|discriminate].
    destruct (k s') as [tail|] eqn:Hk; [|discriminate].
    injection Hrun as <-.
    exists (String c0 ""), s', tail.
    split; [reflexivity|]. split; [constructor|]. split; [exact Hk|reflexivity].
  - simpl in Hrun.
    destruct (IH1 _ _ _ Hrun) as (m1 & rest1 & tail1 & -> & Hm1 & Hk1 & ->).
    destruct (IH2 _ _ _ Hk1) as (m2 & rest & tail & -> & Hm2 & Hk & ->).
    exists (m1 +:+ m2), rest, tail.
    rewrite !append_assoc.
    split; [reflexivity|]. split; [now constructor|]. split; [exact Hk|reflexivity].
  - revert min s k out Hrun.
    induction max as [|max IHmax]; intros min s k out Hrun.
    + rewrite matchFrom_repeat_0 in Hrun.
      destruct min; [|discriminate]. simpl in Hrun.
      exists "", s, out.
      split; [reflexivity|]. split; [constructor|]. split; [exact Hrun|reflexivity].
    + rewrite matchFrom_repeat_S in Hrun.
      destruct (IPCheckRequest.matchFrom r0 s _) as [matched|] eqn:Hturn.
      * injection Hrun as <-.
        destruct (IH0 _ _ _ Hturn) as (m1 & rest1 & tail1 & -> & Hm1 & Hk1 & ->).
        destruct (IHmax _ _ _ _ Hk1) as (m2 & rest & tail & -> & Hm2 & Hk & ->).
        exists (m1 +:+ m2), rest, tail.
        rewrite !append_assoc.
        split; [reflexivity|]. split; [now constructor|].
        split; [exact Hk|reflexivity].
      * destruct min; [|discriminate]. simpl in Hrun.
        exists "", s, out.
      split; [reflexivity|]. split; [constructor|]. split; [exact Hrun|reflexivity].
Qed.

(** Backtracking misses nothing: if some text of the expression at the head
    of the subject leaves a rest the continuation accepts, the matcher
    returns a match. *)
Lemma matchFrom_complete (r : IPCheckRequest.Regex) (m : string) :
  Matches r m ->
  forall rest k tail,
    k rest = Some tail ->
    exists out, IPCheckRequest.matchFrom r (m +:+ rest) k = Some out.
Proof.
  induction 1 as [c Hc|c|r1 r2 m1 m2 _ IH1 _ IH2|r max|r min max m1 m2 _ IH1 _ IH2];
    intros rest k tail Hk.
  - rewrite append_cons, append_nil_l. simpl. rewrite Hc, Hk. eauto.
  - rewrite append_cons, append_nil_l. simpl. rewrite Ascii.eqb_refl, Hk. eauto.
  - simpl. rewrite append_assoc.
    destruct (IH2 rest k tail Hk) as [out2 Hout2].
    exact (IH1 (m2 +:+ rest) _ out2 Hout2).
  - rewrite append_nil_l. destruct max as [|max].
    + rewrite matchFrom_repeat_0. simpl. eauto.
    + rewrite matchFrom_repeat_S.
      destruct (IPCheckRequest.matchFrom r rest _); simpl; eauto.
  - rewrite matchFrom_repeat_S, append_assoc.
    destruct (IH2 rest k tail Hk) as [out2 Hout2].
    destruct (IH1 (m2 +:+ rest)
                (fun s' =>
                   IPCheckRequest.matchFrom
                     (IPCheckRequest.Repeat r (pred min) max) s' k)
                out2 Hout2) as [out Hout].
    rewrite Hout. eauto.
Qed.

Lemma occursAt_tail (n : nat) (m s : string) (c : ascii) :
  occursAt (S n) m (String c s) <-> occursAt n m s.
Proof.
  split.
  - intros (pre & post & Hs & Hlen).
    destruct pre as [|c' pre]; [discriminate|].
    rewrite append_cons in Hs. simpl in Hlen.
    injection Hs as <- ->. injection Hlen as Hlen.
    now exists pre, post.
  - intros (pre & post & -> & Hlen).
    exists (String c pre), post. rewrite append_cons. simpl. now rewrite Hlen.
Qed.

(** [search] returns the match that starts first. *)
Lemma search_sound (r : IPCheckRequest.Regex) (s matched : string) :
  IPCheckRequest.search r s = Some matched ->
  exists n,
    occursAt n matched s /\ Matches r matched
    /\ forall n' m', occursAt n' m' s -> Matches r m' -> (n <= n')%nat.
Proof.
  revert matched. induction s as [|c s IH]; intros matched Hrun; simpl in Hrun.
  - destruct (IPCheckRequest.matchFrom r "" _) as [out|] eqn:Hhere; [|discriminate].
    injection Hrun as ->.
    destruct (matchFrom_sound r _ _ _ Hhere) as (m & rest & tail & Hs & Hm & [= <-] & ->).
    rewrite append_nil_r. exists 0%nat. split; [|split; [exact Hm|intros; lia]].
    exists "", rest. now split.
  - destruct (IPCheckRequest.matchFrom r (String c s) _) as [out|] eqn:Hhere.
    + injection Hrun as ->.
      destruct (matchFrom_sound r _ _ _ Hhere)
        as (m & rest & tail & Hs & Hm & [= <-] & ->).
      rewrite append_nil_r. exists 0%nat. split; [|split; [exact Hm|intros; lia]].
      exists "", rest. now split.
    + destruct (IH matched Hrun) as (n & Hat & Hm & Hfirst).
      exists (S n). split; [now apply occursAt_tail|]. split; [exact Hm|].
      intros [|n'] m' Hat' Hm'.
      * exfalso. destruct Hat' as (pre & post & Hs & Hlen).
        destruct pre; [|discriminate]. rewrite append_nil_l in Hs.
        destruct (matchFrom_complete r m' Hm' post (fun _ => Some "") "" eq_refl)
          as [out Hout].
        rewrite <- Hs in Hout. congruence.
      * apply occursAt_tail in Hat'. specialize (Hfirst n' m' Hat' Hm'). lia.
Qed.

(** And it finds a match whenever the subject has one. *)
Lemma search_complete (r : IPCheckRequest.Regex) (s m : string) (n : nat) :
  occursAt n m s -> Matches r m ->
  exists matched, IPCheckRequest.search r s = Some matched.
Proof.
  revert n. induction s as [|c s IH]; intros n Hat Hm; simpl.
  - destruct Hat as (pre & post & Hs & Hlen).
    destruct pre; [|discriminate]. rewrite append_nil_l in Hs.
    destruct (matchFrom_complete r m Hm post (fun _ => Some "") "" eq_refl)
      as [out Hout].
    rewrite <- Hs in Hout. rewrite Hout. eauto.
  - destruct (IPCheckRequest.matchFrom r (String c s) _) as [out|] eqn:Hhere;
      [eauto|].
    destruct n as [|n].
    + exfalso. destruct Hat as (pre & post & Hs & Hlen).
      destruct pre; [|discriminate]. rewrite append_nil_l in Hs.
      destruct (matchFrom_complete r m Hm post (fun _ => Some "") "" eq_refl)
        as [out Hout].
      rewrite <- Hs in Hout. congruence.
    + apply occursAt_tail in Hat. exact (IH n Hat Hm).
Qed.

Lemma length_append (a b : string) :
  String.length (a +:+ b) = (String.length a + String.length b)%nat.
Proof.
  induction a as [|x a IH]; [reflexivity|]. rewrite append_cons. simpl.
  now rewrite IH.
Qed.

Lemma allDigits_append (a b : string) :
  allDigits (a +:+ b) = allDigits a && allDigits b.
Proof.
  induction a as [|x a IH]; [reflexivity|]. rewrite append_cons. simpl.
  rewrite IH. now rewrite andb_assoc.
Qed.

(** [\d{min,max}] stands for the runs of [min] to [max] digits. *)
Lemma matches_digits (max min : nat) (m : string) :
  Matches (IPCheckRequest.Repeat IPCheckRequest.Digit min max) m
  <-> allDigits m = true /\ (min <= String.length m <= max)%nat.
Proof.
  revert min m. induction max as [|max IH]; intros min m.
  - split.
    + intros H. inversion H; subst. split; [reflexivity|simpl; lia].
    + intros [_ Hlen]. destruct m; [|simpl in Hlen; lia].
      assert (min = 0%nat) as -> by (simpl in Hlen; lia). constructor.
  - split.
    + intros H. inversion H as [| | |? ?|? ? ? m1 m2 Hdigit Hrest]; subst.
      * split; [reflexivity|simpl; lia].
      * inversion Hdigit as [c Hc| | | |]; subst.
        apply IH in Hrest as [Hall Hlen].
        rewrite append_cons, append_nil_l. simpl. rewrite Hc, Hall.
        split; [reflexivity|lia].
    + intros [Hall Hlen]. destruct m as [|c m].
      * assert (min = 0%nat) as -> by (simpl in Hlen; lia). constructor.
      * simpl in Hall, Hlen. apply andb_true_iff in Hall as [Hc Hall].
        change (String c m) with (String c "" +:+ m).
        constructor; [now constructor|].
        apply IH. split; [exact Hall|lia].
Qed.

Lemma matches_group (g : string) :
  Matches (IPCheckRequest.Seq (IPCheckRequest.Repeat IPCheckRequest.Digit 1 3)
             (IPCheckRequest.Char ".")) g
  <-> exists a, g = a +:+ "." /\ isGroup a.
Proof.
  split.
  - intros H. inversion H as [| |? ? a dot Ha Hdot| |]; subst.
    inversion Hdot; subst. apply matches_digits in Ha.
    exists a. now split.
  - intros (a & -> & Ha). constructor; [now apply matches_digits|constructor].
Qed.

(** The expression of the module stands for the dotted quads. *)
Lemma ipPattern_matches (q : string) :
  Matches IPCheckRequest.ipPattern q <-> isDottedQuad q.
Proof.
  unfold IPCheckRequest.ipPattern. split.
  - intros H. inversion H as [| |? ? abc d Habc Hd| |]; subst.
    apply matches_digits in Hd.
    inversion Habc as [| | | |? ? ? g1 bc Hg1 Hbc]; subst.
    inversion Hbc as [| | | |? ? ? g2 c_ Hg2 Hc]; subst.
    inversion Hc as [| | | |? ? ? g3 e Hg3 He]; subst.
    inversion He; subst.
    apply matches_group in Hg1 as (a & -> & Ha).
    apply matches_group in Hg2 as (b & -> & Hb).
    apply matches_group in Hg3 as (c & -> & Hc').
    exists a, b, c, d. split; [|auto].
    rewrite append_nil_r. now rewrite !append_assoc.
  - intros (a & b & c & d & -> & Ha & Hb & Hc & Hd).
    replace (a +:+ "." +:+ b +:+ "." +:+ c +:+ "." +:+ d)
      with (((a +:+ ".") +:+ (b +:+ ".") +:+ (c +:+ ".") +:+ "") +:+ d)
      by (rewrite append_nil_r; now rewrite !append_assoc).
    constructor; [|now apply matches_digits].
    change 3%nat with (S 2) at 2. constructor; [apply matches_group; eauto|].
    change (pred 3) with 2%nat. change 2%nat with (S 1) at 2.
    constructor; [apply matches_group; eauto|].
    change (pred 2) with 1%nat. change 1%nat with (S 0) at 2.
    constructor; [apply matches_group; eauto|].
    constructor.
Qed.

(** X25. [postProcess] of an IPCheckRequest. A blank body ends in [fail(40, ...)],
    a body without a dotted quad in [fail(10, ...)], and any other body in
    [onFinish] with the dotted quad that starts first in the body: four
    groups of one to three digits, of any value, wherever they stand in the
    text. What a probe hands on is thus never an empty address. *)
Theorem postProcess_finds_the_first_dotted_quad (data : string) :
  match IPCheckRequest.postProcess data with
  | IPCheckRequest.Finish ip =>
      isDottedQuad ip
      /\ truthy_str (Some ip) = true
      /\ exists n,
          occursAt n ip data
          /\ forall n' q, occursAt n' q data -> isDottedQuad q -> (n <= n')%nat
  | IPCheckRequest.Fail sleepSeconds _ =>
      (data = "" /\ sleepSeconds = 40)
      \/ (data <> "" /\ sleepSeconds = 10
          /\ forall n q, occursAt n q data -> ~ isDottedQuad q)
  end.
Proof.
  unfold IPCheckRequest.postProcess. simpl truthy_str.
  destruct (String.eqb_spec data "") as [->|Hdata]; simpl negb; cbv iota.
  - left. now split.
  - destruct (IPCheckRequest.search IPCheckRequest.ipPattern data) as [ip|] eqn:Hrun.
    + destruct (search_sound _ _ _ Hrun) as (n & Hat & Hm & Hfirst).
      apply ipPattern_matches in Hm.
      split; [exact Hm|]. split.
      * destruct Hm as (a & b & c & d & -> & (_ & Ha) & _).
        destruct a as [|x a]; [simpl in Ha; lia|reflexivity].
      * exists n. split; [exact Hat|].
        intros n' q Hq Hquad. apply (Hfirst n' q Hq).
        now apply ipPattern_matches.
    + right. split; [exact Hdata|]. split; [reflexivity|].
      intros n q Hq Hquad. apply ipPattern_matches in Hquad.
      destruct (search_complete _ _ _ _ Hq Hquad) as [matched Hmatched].
      congruence.
Qed.

(** Some bodies and what becomes of them. *)
Example postProcess_on_some_bodies :
  IPCheckRequest.postProcess "Your address is 203.0.113.7, welcome"
  = IPCheckRequest.Finish "203.0.113.7"
  /\ IPCheckRequest.postProcess "999.999.999.999"
     = IPCheckRequest.Finish "999.999.999.999"
  /\ IPCheckRequest.postProcess "1234.5.6.7890"
     = IPCheckRequest.Finish "234.5.6.789"
  /\ IPCheckRequest.postProcess "1.2.3.4.5" = IPCheckRequest.Finish "1.2.3.4"
  /\ IPCheckRequest.postProcess "version 1.2.3"
     = IPCheckRequest.Fail 10
         "ERR getting external IP - response data failed regex:"
  /\ IPCheckRequest.postProcess ""
     = IPCheckRequest.Fail 40 "IPCheckRequest failed, BLANK request. Retrying 40s".
Proof. repeat split. Qed.

(** ** One turn of the copy loop, on a store *)

Lemma copyAmbiguous_copies_settled_entries_witness :
  let s := after (_initializeIPDataIfNotInitialized "10.0.0.2")
             oneSettledTwoAmbiguous in
  seriesOf s "10.0.0.1" "api" = Some [3000; 6000; 7000]
  /\ seriesOf s "10.0.0.2" "api" = Some []
  /\ (ProxyCircuit.lastIPPollTime <$> circuitStore s !! 0%nat) = Some 5000
  /\ exists s',
      copyAmbiguous "10.0.0.1" "10.0.0.2" 5000 "api" s = (Ret tt, s')
      /\ seriesOf s' "10.0.0.2" "api" = Some [3000]
      /\ seriesOf s' "10.0.0.1" "api" = Some [3000; 6000; 7000].
Proof.
  intros s.
  split; [vm_compute; reflexivity|]. split; [vm_compute; reflexivity|].
  split; [vm_compute; reflexivity|].
  eexists. split.
  - apply (copyAmbiguous_copies_settled_entries s "10.0.0.1" "10.0.0.2" "api" 5000
             [("api", [3000; 6000; 7000])] [("api", [])]
             [3000] [6000; 7000] []).
    + vm_compute. reflexivity.
    + reflexivity.
    + vm_compute. reflexivity.
    + reflexivity.
    + repeat constructor; lia.
    + right. exists [], 3000. split; [reflexivity|]. right. lia.
  - split; vm_compute; reflexivity.
Defined.

(** ** Removing a tor circuit *)

Lemma removeCircuit_marks_first
  (s : Manager.t) (fuel : nat) (circuit : CircuitRef) (c : ProxyCircuit.t) :
  circuitStore s !! circuit = Some c ->
  _removeCircuit fuel circuit s
  = dropCircuit fuel circuit (ProxyCircuit.markInvalid c)
      (set_circuitStore
         (<[circuit := ProxyCircuit.markInvalid c]> (circuitStore s)) s).
Proof.
  intros Hc.
  set (s1 := set_circuitStore
               (<[circuit := ProxyCircuit.markInvalid c]> (circuitStore s)) s).
  rewrite removeCircuit_unfold.
  rewrite (run_bind _ _ s s1 tt).
  2:{ unfold updateCircuit.
      rewrite (run_bind _ _ s s c) by (unfold readCircuit; now rewrite Hc).
      reflexivity. }
  rewrite (run_bind _ _ s1 s1 (ProxyCircuit.markInvalid c)); [reflexivity|].
  unfold readCircuit. subst s1; simpl.
  rewrite list_lookup_insert_eq; [reflexivity|].
  now apply lookup_lt_Some in Hc.
Qed.

Lemma randomCircuitLoop_keeps_the_pool fuel omit skip :
  respects (keeps (fun s => (effects s, circuits s, circuitStore s))) anyExit
    (randomCircuitLoop fuel omit skip).
Proof.
  revert omit skip. induction fuel as [|fuel IH]; intros omit skip; simpl;
    respects_with keeps_side.
Qed.

Lemma kicking_clients_keeps_the_pool fuel circuit (tracked : list ClientRef) :
  respects (keeps (fun s => (effects s, circuits s, circuitStore s))) anyExit
    (forEach tracked (fun k =>
       client <- readClient k ;;
       if bool_decide (Manager.circuit client = Some circuit)
       then Client._changeToRandomCircuit fuel k
       else ret tt)).
Proof.
  pose proof randomCircuitLoop_keeps_the_pool as Hdraw.
  apply respects_forEach; [typeclasses eauto|]. intros k.
  apply respects_bind; [typeclasses eauto|respects_prim keeps_side|].
  intros client. destruct (bool_decide _).
  - unfold Client._changeToRandomCircuit, _getRandomCircuit.
    respects_with keeps_side.
  - apply respects_ret. typeclasses eauto.
Qed.

(** The filter for the tor circuits of a list reads and keeps the state, and
    what it returns has every tor circuit of the list. *)
Lemma tor_circuits_of (l : list CircuitRef) (s s' : Manager.t)
  (o : Outcome (list CircuitRef)) :
  filterM (fun r => c' <- readCircuit r ;; ret (ProxyCircuit.isLocalTor c')) l s
  = (o, s') ->
  s' = s
  /\ forall found r c,
       o = Ret found -> In r l -> circuitStore s !! r = Some c ->
       ProxyCircuit.isLocalTor c = true -> In r found.
Proof.
  revert o s'. induction l as [|r0 l IH]; intros o s' Hrun; simpl in Hrun.
  - injection Hrun as <- <-. split; [reflexivity|]. intros found r c _ [].
  - unfold bind at 1 in Hrun. unfold bind at 1 in Hrun.
    unfold readCircuit at 1 in Hrun.
    destruct (circuitStore s !! r0) as [c0|] eqn:Hc0;
      [|injection Hrun as <- <-; split; [reflexivity|discriminate]].
    unfold ret at 1 in Hrun. unfold bind at 1 in Hrun.
    destruct (filterM _ l s) as [[rest|f|h] s1] eqn:Hrest.
    + destruct (IH _ _ eq_refl) as [-> Hin].
      injection Hrun as <- <-. split; [reflexivity|].
      intros found r c [= <-] [<-|Hr] Hc Htor.
      * rewrite Hc in Hc0. injection Hc0 as <-. rewrite Htor. now left.
      * specialize (Hin rest r c eq_refl Hr Hc Htor).
        destruct (ProxyCircuit.isLocalTor c0); [now right|exact Hin].
    + destruct (IH _ _ eq_refl) as [-> _].
      injection Hrun as <- <-. split; [reflexivity|discriminate].
    + destruct (IH _ _ eq_refl) as [-> _].
      injection Hrun as <- <-. split; [reflexivity|discriminate].
Qed.

(** X27. [_removeCircuit] never stops tor. The kill is meant for the removal of
    the last tor circuit of the pool; but a circuit of the pool stays in the
    pool when it is removed, so that a tor circuit is always left there, and
    a rigid circuit is not in the pool, so that the call has failed before.
    Whatever circuit is removed, and however the call ends, no process has
    been signalled. *)
Theorem removeCircuit_never_kills_tor
  (s : Manager.t) (fuel : nat) (circuit : CircuitRef) (c : ProxyCircuit.t) :
  circuitStore s !! circuit = Some c ->
  (In circuit (circuits s) <-> ProxyCircuit.addToCyclingCircuitPool c = true) ->
  effects (after (_removeCircuit fuel circuit) s) = effects s.
Proof.
  intros Hc Hpool. unfold after.
  rewrite (removeCircuit_marks_first s fuel circuit c Hc).
  set (c1 := ProxyCircuit.markInvalid c).
  set (s1 := set_circuitStore (<[circuit := c1]> (circuitStore s)) s).
  assert (circuitStore s1 !! circuit = Some c1) as Hc1.
  { subst s1. simpl. apply list_lookup_insert_eq. now apply lookup_lt_Some in Hc. }
  unfold dropCircuit.
  change (ProxyCircuit.addToCyclingCircuitPool c1)
    with (ProxyCircuit.addToCyclingCircuitPool c).
  change (ProxyCircuit.isLocalTor c1) with (ProxyCircuit.isLocalTor c).
  change (ProxyCircuit.name c1) with (ProxyCircuit.name c).
  destruct (ProxyCircuit.addToCyclingCircuitPool c) eqn:Hcyc.
  - assert (In circuit (circuits s)) as Hin by now apply Hpool.
    set (s2 := set_namedCircuits
                 (del (propKey (ProxyCircuit.name c)) (namedCircuits s1)) s1).
    rewrite (run_bind _ _ s1 s2 tt) by reflexivity.
    rewrite (run_bind _ _ s2 s2 (clients s2)) by reflexivity.
    assert (effects s2 = effects s /\ circuits s2 = circuits s
            /\ circuitStore s2 = circuitStore s1) as (He2 & Hp2 & Hst2)
      by (repeat split; reflexivity).
    destruct (kicking_clients_keeps_the_pool fuel circuit (clients s2) s2)
      as [Hkeep _].
    destruct (forEach (clients s2) _ s2) as [[[]|f|h] s3] eqn:Hkick;
      unfold keeps in Hkeep; cbv beta in Hkeep; cbn [snd] in Hkeep.
    + rewrite (run_bind _ _ s2 s3 tt) by exact Hkick.
      assert (effects s3 = effects s /\ circuits s3 = circuits s
              /\ circuitStore s3 = circuitStore s1) as (He & Hp & Hst)
        by (repeat split; congruence).
      assert (exists o,
                 (if ProxyCircuit.isLocalTor c
                  then
                    pool <- gets circuits ;;
                    torCircuits <-
                      filterM (fun r =>
                                 c' <- readCircuit r ;;
                                 ret (ProxyCircuit.isLocalTor c')) pool ;;
                    if (length torCircuits =? 0)%nat
                    then _killAllTorProcesses ;;; ret tt
                    else ret tt
                  else ret tt) s3 = (o, s3)) as [o Hlast].
      { destruct (ProxyCircuit.isLocalTor c) eqn:Htor; [|now exists (Ret tt)].
        rewrite (run_bind _ _ s3 s3 (circuits s3)) by reflexivity.
        destruct (filterM
                    (fun r => c' <- readCircuit r ;; ret (ProxyCircuit.isLocalTor c'))
                    (circuits s3) s3) as [o s4] eqn:Hfilter.
        destruct (tor_circuits_of _ _ _ _ Hfilter) as [-> Hfound].
        destruct o as [found|f|h].
        - exists (Ret tt).
          rewrite (run_bind _ _ s3 s3 found) by exact Hfilter.
          assert (In circuit found) as Hthere.
          { apply (Hfound found circuit c1 eq_refl); [now rewrite Hp| |exact Htor].
            now rewrite Hst. }
          destruct found; [destruct Hthere|reflexivity].
        - exists (Raise f). now rewrite (run_raise _ _ s3 s3 f Hfilter).
        - exists (NoReturn h). now rewrite (run_halt _ _ s3 s3 h Hfilter). }
      unfold bind at 1. rewrite Hlast.
      destruct o as [[]|f|h]; simpl; exact He.
    + rewrite (run_raise _ _ s2 s3 f Hkick). simpl. congruence.
    + rewrite (run_halt _ _ s2 s3 h Hkick). simpl. congruence.
  - assert (~ In circuit (circuits s)) as Hout.
    { intros Hin. apply Hpool in Hin. congruence. }
    rewrite (run_raise _ _ s1 s1 (Die CircuitNotInPool)); [reflexivity|].
    rewrite (run_bind _ _ s1 s1 (circuits s)) by reflexivity.
    now rewrite indexOf_absent.
Qed.

Lemma removeCircuit_never_kills_tor_witness :
  circuits torOnly = [0%nat]
  /\ (ProxyCircuit.isLocalTor <$> circuitStore torOnly !! 0%nat) = Some true
  /\ outcome (_removeCircuit 1 0%nat) torOnly = Ret 0%nat
  /\ effects (after (_removeCircuit 1 0%nat) torOnly) = []
  /\ circuits (after (_removeCircuit 1 0%nat) torOnly) = [0%nat].
Proof.
  split; [vm_compute; reflexivity|]. split; [vm_compute; reflexivity|].
  split; [vm_compute; reflexivity|]. split; [|vm_compute; reflexivity].
  assert (exists c, circuitStore torOnly !! 0%nat = Some c
                    /\ ProxyCircuit.addToCyclingCircuitPool c = true)
    as (c & Hc & Hcyc) by (vm_compute; eauto).
  rewrite (removeCircuit_never_kills_tor torOnly 1 0%nat c Hc).
  - vm_compute. reflexivity.
  - rewrite Hcyc. split; [reflexivity|]. intros _. vm_compute. auto.
Defined.

(** ** The loop that changes the exit, were [actualExitIP] declared *)

Lemma getExternalIP_run (s : Manager.t) (circuit : CircuitRef) :
  pollerIsBound s circuit ->
  exists s',
    _getExternalIP circuit s = (Ret (probe (world s) (asked s)), s')
    /\ pollerIsBound s' circuit
    /\ s' = set_circuitStore (circuitStore s') (set_asked (S (asked s)) s).
Proof.
  intros (c & Hc & Hpoller).
  unfold _getExternalIP.
  rewrite (run_bind _ _ s s c) by (unfold readCircuit; now rewrite Hc).
  set (s1 := set_asked (S (asked s)) s).
  rewrite (run_bind _ _ s s1 (probe (world s) (asked s))) by reflexivity.
  destruct (ProxyCircuit.pollingClient c) as [k|] eqn:Hk.
  - destruct (Hpoller k eq_refl) as (proxyClient & Hclient & Hpolling & Hbound).
    rewrite (run_bind _ _ s1 s1 proxyClient)
      by (unfold readClient; simpl; now rewrite Hclient).
    rewrite Hpolling, Hbound.
    set (c' := ProxyCircuit.promoteHealth 10 c).
    set (s2 := set_circuitStore (<[circuit := c']> (circuitStore s1)) s1).
    exists s2. split; [|split; [|reflexivity]].
    + rewrite (run_bind _ _ s1 s2 tt); [reflexivity|].
      unfold updateCircuit.
      rewrite (run_bind _ _ s1 s1 c) by (unfold readCircuit; simpl; now rewrite Hc).
      reflexivity.
    + exists c'. split.
      * subst s2 s1. simpl. apply list_lookup_insert_eq.
        now apply lookup_lt_Some in Hc.
      * intros k' Hk'. change (ProxyCircuit.pollingClient c') with
          (ProxyCircuit.pollingClient c) in Hk'.
        rewrite Hk in Hk'. injection Hk' as <-.
        exists proxyClient. now split.
  - exists s1. split; [reflexivity|]. split; [|now destruct s].
    exists c. split; [exact Hc|]. intros k Hk'. congruence.
Qed.

Lemma changeExitNode_run (s : Manager.t) (pids : list Z) :
  psLookup (world s) (asked s) = PsList pids ->
  pids <> [] ->
  (forall i, (i < length pids)%nat ->
             psKill (world s) (S (asked s) + i)%nat = None
             \/ psKill (world s) (S (asked s) + i)%nat
                = Some "Error: Kill process timeout") ->
  _changeExitNode s
  = (Ret tt,
     set_asked (S (asked s) + length pids)
       (set_effects (effects s ++ map Sighup pids) s)).
Proof.
  intros Hps Hsome Hall.
  set (s1 := set_asked (S (asked s)) s).
  set (h := fun err : option string =>
              match err with
              | Some e =>
                  if String.eqb e "Error: Kill process timeout" then ret tt
                  else raise (Thrown e)
              | None => ret tt
              end : M unit).
  unfold _changeExitNode, _getListOfTorProcesses.
  rewrite (run_bind _ _ s s1 pids) by (unfold bind, ask; now rewrite Hps).
  destruct pids as [|pid rest]; [congruence|].
  rewrite (run_bind _ _ s1 s1 tt) by reflexivity.
  change (forEach (pid :: rest) _ s1)
    with (forEach (pid :: rest)
            (fun pid => log (Sighup pid) ;;; err <- ask psKill ;; h err) s1).
  rewrite signal_all; [reflexivity|].
  intros i Hi. subst h; cbv beta; subst s1; cbn [world asked set_asked].
  destruct (Hall i Hi) as [Hok|Hok]; now rewrite Hok.
Qed.

(** One round of the loop on a probe that shows the remembered address. *)
Lemma changeLoop_round
  (s : Manager.t) (triesLeft : nat) (circuit : CircuitRef) (pids : list Z)
  (a : string) :
  pollerIsBound s circuit ->
  get "actualExitIP" (globalScope s) = Some (Some a) ->
  psLookup (world s) (asked s) = PsList pids ->
  pids <> [] ->
  (forall i, (i < length pids)%nat ->
             psKill (world s) (S (asked s) + i)%nat = None
             \/ psKill (world s) (S (asked s) + i)%nat
                = Some "Error: Kill process timeout") ->
  exists s',
    pollerIsBound s' circuit
    /\ s' = set_circuitStore (circuitStore s')
              (set_asked (S (S (asked s)) + length pids)
                 (set_effects (effects s ++ map Sighup pids) s))
    /\ changeLoop (S triesLeft) circuit s
       = if String.eqb (probe (world s) (S (asked s) + length pids)%nat) a
         then changeLoop triesLeft circuit s'
         else _onChangedIP circuit
                (Some (probe (world s) (S (asked s) + length pids)%nat)) s'.
Proof.
  intros Hbound Hglobal Hps Hsome Hall.
  set (s1 := set_asked (S (asked s) + length pids)
               (set_effects (effects s ++ map Sighup pids) s)).
  assert (pollerIsBound s1 circuit) as Hbound1.
  { destruct Hbound as (c & Hc & Hpoller). exists c. split; [exact Hc|exact Hpoller]. }
  destruct (getExternalIP_run s1 circuit Hbound1) as (s2 & Hprobe & Hbound2 & Hs2).
  exists s2. split; [exact Hbound2|]. split; [exact Hs2|].
  cbn [changeLoop].
  rewrite (run_bind _ _ s s1 tt) by (now apply changeExitNode_run).
  rewrite (run_bind _ _ s1 s2 (probe (world s) (S (asked s) + length pids)%nat))
    by exact Hprobe.
  rewrite (run_bind _ _ s2 s2 (Some a)).
  2:{ unfold readGlobal. rewrite Hs2. simpl. now rewrite Hglobal. }
  now destruct (String.eqb _ a).
Qed.

Lemma sighupRounds_S (n : nat) (pids : list Z) :
  sighupRounds (S n) pids = map Sighup pids ++ sighupRounds n pids.
Proof. reflexivity. Qed.

(** The loop under probes that always show the remembered address. *)
Lemma changeLoop_gives_up
  (w : World) (circuit : CircuitRef) (pids : list Z) (a : string)
  (triesLeft : nat) :
  (forall k, psLookup w k = PsList pids) ->
  pids <> [] ->
  (forall k, psKill w k = None
             \/ psKill w k = Some "Error: Kill process timeout") ->
  (forall k, probe w k = a) ->
  forall s,
    world s = w ->
    pollerIsBound s circuit ->
    get "actualExitIP" (globalScope s) = Some (Some a) ->
    exists s',
      changeLoop triesLeft circuit s = (Raise (Die IPChangeExhausted), s')
      /\ effects s' = effects s ++ sighupRounds triesLeft pids
      /\ isCurrentlyChanging s' = isCurrentlyChanging s
      /\ pendingCallbacks s' = pendingCallbacks s
      /\ reqStats s' = reqStats s
      /\ asked s' = (asked s + triesLeft * (2 + length pids))%nat.
Proof.
  intros Hps Hsome Hkill Hprobe.
  induction triesLeft as [|n IH]; intros s Hw Hbound Hglobal.
  - exists s. split.
    + cbn [changeLoop].
      rewrite (run_bind _ _ s s (Some a))
        by (unfold readGlobal; now rewrite Hglobal).
      reflexivity.
    + unfold sighupRounds. simpl. rewrite app_nil_r.
      repeat split; lia.
  - destruct (changeLoop_round s n circuit pids a Hbound Hglobal)
      as (s1 & Hbound1 & Hs1 & Hround).
    + rewrite Hw. apply Hps.
    + exact Hsome.
    + intros i _. rewrite Hw. apply Hkill.
    + rewrite Hw, Hprobe, String.eqb_refl in Hround.
      destruct (IH s1) as (s' & Hrun & Heff & Hgate & Hwait & Hstats & Hasked).
      * rewrite Hs1. exact Hw.
      * exact Hbound1.
      * rewrite Hs1. exact Hglobal.
      * exists s'. split; [now rewrite Hround|].
        rewrite Heff, Hgate, Hwait, Hstats, Hasked, sighupRounds_S.
        rewrite Hs1. cbn [effects isCurrentlyChanging pendingCallbacks reqStats
                          asked set_circuitStore set_asked set_effects].
        rewrite <- app_assoc. repeat split; lia.
Qed.

(** X28. The change that does not come: were a global [actualExitIP] declared,
    and every probe through the circuit showed the address the function
    starts from, [_definitivelyChangeToAvailableIP] would send
    [MAX_CHANGE_TRIES] rounds of SIGHUP to every tor process, one round per
    try and nothing else, and then end the program from inside [DIE]: with
    the gate up, no waiter answered and no counter touched. The address it
    starts from is the global's value if it is truthy, and its own first
    probe if not. *)
Theorem change_gives_up_after_its_tries
  (s : Manager.t) (circuit : CircuitRef) (pids : list Z) (a : string)
  (g : option string) :
  pollerIsBound s circuit ->
  get "actualExitIP" (globalScope s) = Some g ->
  (truthy_str g = true -> g = Some a) ->
  (forall k, psLookup (world s) k = PsList pids) ->
  pids <> [] ->
  (forall k, psKill (world s) k = None
             \/ psKill (world s) k = Some "Error: Kill process timeout") ->
  (forall k, probe (world s) k = a) ->
  outcome (_definitivelyChangeToAvailableIP circuit) s
  = Raise (Die IPChangeExhausted)
  /\ effects (after (_definitivelyChangeToAvailableIP circuit) s)
     = effects s ++ sighupRounds MAX_CHANGE_TRIES pids
  /\ isCurrentlyChanging (after (_definitivelyChangeToAvailableIP circuit) s)
     = true
  /\ pendingCallbacks (after (_definitivelyChangeToAvailableIP circuit) s)
     = pendingCallbacks s
  /\ reqStats (after (_definitivelyChangeToAvailableIP circuit) s) = reqStats s.
Proof.
  intros Hbound Hglobal Htruthy Hps Hsome Hkill Hprobe.
  unfold outcome, after, _definitivelyChangeToAvailableIP.
  set (s1 := set_isCurrentlyChanging true s).
  rewrite (run_bind _ _ s s1 tt) by reflexivity.
  assert (pollerIsBound s1 circuit) as Hbound1 by exact Hbound.
  destruct Hbound as (c & Hc & _).
  rewrite (run_bind _ _ s1 s1 c) by (unfold readCircuit; subst s1; simpl; now rewrite Hc).
  rewrite (run_bind _ _ s1 s1 g) by (unfold readGlobal; subst s1; simpl; now rewrite Hglobal).
  assert (exists s2,
             (if truthy_str g then ret tt
              else extIp <- _getExternalIP circuit ;;
                   writeGlobal "actualExitIP" (Some extIp)) s1 = (Ret tt, s2)
             /\ world s2 = world s
             /\ pollerIsBound s2 circuit
             /\ get "actualExitIP" (globalScope s2) = Some (Some a)
             /\ effects s2 = effects s
             /\ isCurrentlyChanging s2 = true
             /\ pendingCallbacks s2 = pendingCallbacks s
             /\ reqStats s2 = reqStats s)
    as (s2 & Hrun & Hw2 & Hbound2 & Hglobal2 & Heff2 & Hgate2 & Hwait2 & Hstats2).
  { destruct (truthy_str g) eqn:Hg.
    - exists s1. rewrite (Htruthy eq_refl) in Hglobal. now repeat split.
    - destruct (getExternalIP_run s1 circuit Hbound1) as (s2 & Hp & Hb2 & Hs2).
      change (world s1) with (world s) in Hp. rewrite Hprobe in Hp.
      assert (globalScope s2 = globalScope s) as Hg2 by (now rewrite Hs2).
      exists (set_globalScope (set "actualExitIP" (Some a) (globalScope s2)) s2).
      split.
      { rewrite (run_bind _ _ s1 s2 a) by exact Hp.
        unfold writeGlobal. now rewrite Hg2, Hglobal. }
      cbn [world globalScope effects isCurrentlyChanging pendingCallbacks
           reqStats set_globalScope].
      split; [now rewrite Hs2|].
      split; [exact Hb2|].
      split; [apply get_set_eq|].
      now rewrite Hs2. }
  rewrite (run_bind _ _ s1 s2 tt) by exact Hrun.
  destruct (changeLoop_gives_up (world s) circuit pids a MAX_CHANGE_TRIES
              Hps Hsome Hkill Hprobe s2 Hw2 Hbound2 Hglobal2)
    as (s' & Hloop & Heff & Hgate & Hwait & Hstats & _).
  rewrite Hloop. cbn [fst snd].
  rewrite Heff, Hgate, Hwait, Hstats, Heff2, Hgate2, Hwait2, Hstats2.
  now repeat split.
Qed.

Lemma change_gives_up_after_its_tries_witness :
  outcome (_definitivelyChangeToAvailableIP 0%nat) stuckTor
  = Raise (Die IPChangeExhausted)
  /\ effects (after (_definitivelyChangeToAvailableIP 0%nat) stuckTor)
     = effects stuckTor ++ sighupRounds MAX_CHANGE_TRIES [4242]
  /\ isCurrentlyChanging (after (_definitivelyChangeToAvailableIP 0%nat) stuckTor)
     = true
  /\ pendingCallbacks (after (_definitivelyChangeToAvailableIP 0%nat) stuckTor)
     = pendingCallbacks stuckTor
  /\ reqStats (after (_definitivelyChangeToAvailableIP 0%nat) stuckTor)
     = reqStats stuckTor.
Proof.
  apply (change_gives_up_after_its_tries stuckTor 0%nat [4242] "10.0.0.1" None).
  - assert (exists c k proxyClient,
               circuitStore stuckTor !! 0%nat = Some c
               /\ ProxyCircuit.pollingClient c = Some k
               /\ clientStore stuckTor !! k = Some proxyClient
               /\ isPollingClient proxyClient = true
               /\ Manager.circuit proxyClient = Some 0%nat)
      as (c & k & proxyClient & Hc & Hk & Hclient & Hpolling & Hcircuit)
      by (vm_compute; eauto 10).
    exists c. split; [exact Hc|].
    intros k' Hk'. exists proxyClient.
    assert (k' = k) as -> by congruence. now repeat split.
  - reflexivity.
  - discriminate.
  - reflexivity.
  - discriminate.
  - intros k. right. reflexivity.
  - reflexivity.
Defined.
